(** * KodaCare: the extraction and condition-card pipeline

    A shallow embedding of
      - [backend/entities/health_condition.py]   (the Condition Card),
      - [backend/services/health_condition_service.py] ([find_or_create]),
      - [backend/entities/condition_log.py], [condition_log_service.py],
      - [backend/entities/mascot_memory.py],
      - [backend/services/aura_agent.py] ([process_input] and the memory CRUD),
      - the input guard of [backend/controllers/aura_controller.py].

    Python [str] values are sequences of Unicode code points; MongoDB
    collections are lists of documents in insertion order; a Python call that
    can raise is a computation in a state-and-exception monad over the
    database. *)

From Stdlib Require Import List NArith ZArith String Ascii Bool Lia.
From Stdlib Require Import Permutation Sorted.
Import ListNotations.

Set Warnings "-register-all".
Local Open Scope N_scope.

(* ================================================================== *)
(** * Python strings *)
(* ================================================================== *)

(** A Python [str] is a sequence of code points. *)
Definition str := list N.

(** An ASCII literal of the source, as a [str]. *)
Definition lit (s : string) : str :=
  List.map N_of_ascii (list_ascii_of_string s).

Definition str_eq_dec : forall a b : str, {a = b} + {a <> b} :=
  list_eq_dec N.eq_dec.

Definition str_eqb (a b : str) : bool :=
  if str_eq_dec a b then true else false.

(** Truthiness of a [str]: [bool(s)], i.e. non-empty. *)
Definition str_truthy (s : str) : bool :=
  match s with [] => false | _ :: _ => true end.

(** [s.endswith(suffix)]. *)
Fixpoint startswith (prefix s : str) : bool :=
  match prefix, s with
  | [], _ => true
  | p :: ps, c :: cs => (p =? c) && startswith ps cs
  | _ :: _, [] => false
  end.

Definition endswith (s suffix : str) : bool :=
  startswith (rev suffix) (rev s).

(** ** The character database

    [str.strip], [str.title] and [str.lower] are driven by the tables of
    CPython's Unicode database, which are no part of this repository: they
    are a parameter of the model.  *)
Record UnicodeData := {
  is_space : N -> bool;            (* Py_UNICODE_ISSPACE *)
  is_cased : N -> bool;            (* _PyUnicode_IsCased *)
  is_case_ignorable : N -> bool;   (* _PyUnicode_IsCaseIgnorable *)
  to_title_full : N -> list N;     (* _PyUnicode_ToTitleFull *)
  to_lower_full : N -> list N      (* _PyUnicode_ToLowerFull *)
}.

Section PyStr.
Variable ucd : UnicodeData.

(** [s.strip()] with no argument: whitespace is removed on the left, then
    on the right. *)
Fixpoint lstrip (s : str) : str :=
  match s with
  | [] => []
  | c :: r => if is_space ucd c then lstrip r else s
  end.

Definition rstrip (s : str) : str := rev (lstrip (rev s)).

Definition py_strip (s : str) : str := rstrip (lstrip s).

(** The Final_Sigma context of U+03A3, as CPython's [handle_capital_sigma]
    decides it: [before_rev] holds the code points before the sigma,
    nearest first; [after] the ones behind it. *)
Fixpoint skip_ignorable (l : list N) : list N :=
  match l with
  | [] => []
  | c :: r => if is_case_ignorable ucd c then skip_ignorable r else l
  end.

Definition handle_capital_sigma (before_rev after : list N) : N :=
  let final_sigma :=
    match skip_ignorable before_rev with
    | [] => false
    | c :: _ => is_cased ucd c
    end in
  let final_sigma :=
    if final_sigma then
      match skip_ignorable after with
      | [] => true
      | c :: _ => negb (is_cased ucd c)
      end
    else false in
  if final_sigma then 962 (* U+03C2 *) else 963 (* U+03C3 *).

Definition lower_ucs4 (before_rev : list N) (c : N) (after : list N) : list N :=
  if c =? 931 (* U+03A3 *) then [handle_capital_sigma before_rev after]
  else to_lower_full ucd c.

(** [s.title()]: a code point is title-cased when the one before it is not
    cased, lower-cased otherwise. *)
Fixpoint do_title (before_rev : list N) (previous_is_cased : bool) (s : str) : str :=
  match s with
  | [] => []
  | c :: rest =>
      (if previous_is_cased then lower_ucs4 before_rev c rest
       else to_title_full ucd c)
      ++ do_title (c :: before_rev) (is_cased ucd c) rest
  end.

Definition py_title (s : str) : str := do_title [] false s.

(** [s.lower()]. *)
Fixpoint do_lower (before_rev : list N) (s : str) : str :=
  match s with
  | [] => []
  | c :: rest => lower_ucs4 before_rev c rest ++ do_lower (c :: before_rev) rest
  end.

Definition py_lower (s : str) : str := do_lower [] s.

(** The normalisation of a condition name, [condition_name.strip().title()],
    as it is written in [find_or_create], in [get_condition_by_name] and in
    [HealthCondition.__init__]. *)
Definition normalise (condition_name : str) : str :=
  py_title (py_strip condition_name).

End PyStr.

(** ** The ASCII rows of the database *)

Definition ascii_isspace (c : N) : bool :=
  ((9 <=? c) && (c <=? 13)) || ((28 <=? c) && (c <=? 32)).

Definition ascii_isupper (c : N) : bool := (65 <=? c) && (c <=? 90).
Definition ascii_islower (c : N) : bool := (97 <=? c) && (c <=? 122).
Definition ascii_isalpha (c : N) : bool := ascii_isupper c || ascii_islower c.

Definition ascii_toupper (c : N) : N := if ascii_islower c then c - 32 else c.
Definition ascii_tolower (c : N) : N := if ascii_isupper c then c + 32 else c.

Definition is_ascii (s : str) : bool := forallb (fun c => c <? 128) s.

(** A database agrees with Unicode on the code points below 128. *)
Record ascii_rules (ucd : UnicodeData) : Prop := {
  ar_space : forall c, c < 128 -> is_space ucd c = ascii_isspace c;
  ar_cased : forall c, c < 128 -> is_cased ucd c = ascii_isalpha c;
  ar_title : forall c, c < 128 -> to_title_full ucd c = [ascii_toupper c];
  ar_lower : forall c, c < 128 -> to_lower_full ucd c = [ascii_tolower c]
}.

(** The rows for ASCII, for U+0130 (LATIN CAPITAL LETTER I WITH DOT ABOVE:
    cased, lower-cased to U+0069 U+0307, its own title case) and for U+0307
    (COMBINING DOT ABOVE: not cased, case-ignorable, no case mapping).  Every
    other code point is given no case and no mapping here; nothing below
    evaluates this database outside the rows listed. *)
Definition ucd_fragment : UnicodeData := {|
  is_space c := if c <? 128 then ascii_isspace c else false;
  is_cased c := if c <? 128 then ascii_isalpha c else (c =? 304);
  is_case_ignorable c :=
    (c =? 39) || (c =? 46) || (c =? 58) || (c =? 94) || (c =? 96) || (c =? 775);
  to_title_full c := if c <? 128 then [ascii_toupper c] else [c];
  to_lower_full c :=
    if c <? 128 then [ascii_tolower c]
    else if c =? 304 then [105; 775] else [c]
|}.

(** [title()] and [strip()] on ASCII text, without the database. *)
Fixpoint ascii_title (previous_is_cased : bool) (s : str) : str :=
  match s with
  | [] => []
  | c :: rest =>
      (if previous_is_cased then ascii_tolower c else ascii_toupper c)
      :: ascii_title (ascii_isalpha c) rest
  end.

Fixpoint ascii_lstrip (s : str) : str :=
  match s with
  | [] => []
  | c :: r => if ascii_isspace c then ascii_lstrip r else s
  end.

Definition ascii_strip (s : str) : str :=
  rev (ascii_lstrip (rev (ascii_lstrip s))).

(* ================================================================== *)
(** * Python values *)
(* ================================================================== *)

Definition bytes := list Byte.byte.

(** What [json.loads] returns.  The only numeric field of the response
    schema is an INTEGER; numbers are integers here. *)
Inductive json :=
| JNone
| JBool (b : bool)
| JInt (z : Z)
| JStr (s : str)
| JList (l : list json)
| JDict (d : list (str * json)).

(** A Python [dict] with [str] keys, in insertion order. *)
Definition dict := list (str * json).

(** [d.get(k)] *)
Fixpoint dict_get (d : dict) (k : str) : option json :=
  match d with
  | [] => None
  | (k', v) :: r => if str_eqb k' k then Some v else dict_get r k
  end.

(** [d.get(k, default)] *)
Definition dict_get_default (d : dict) (k : str) (default : json) : json :=
  match dict_get d k with Some v => v | None => default end.

(** [k in d] *)
Definition dict_has (d : dict) (k : str) : bool :=
  match dict_get d k with Some _ => true | None => false end.

(** [d[k] = v]: the value of an existing key is replaced in place, a new
    key goes to the end. *)
Fixpoint dict_set (d : dict) (k : str) (v : json) : dict :=
  match d with
  | [] => [(k, v)]
  | (k', v') :: r =>
      if str_eqb k' k then (k', v) :: r else (k', v') :: dict_set r k v
  end.

(** [bool(v)] *)
Definition truthy (v : json) : bool :=
  match v with
  | JNone => false
  | JBool b => b
  | JInt z => negb (Z.eqb z 0)
  | JStr s => str_truthy s
  | JList l => match l with [] => false | _ => true end
  | JDict d => match d with [] => false | _ => true end
  end.

(** Truthiness of an [Optional[str]] argument. *)
Definition opt_truthy (o : option str) : bool :=
  match o with Some s => str_truthy s | None => false end.

Definition is_some {A} (o : option A) : bool :=
  match o with Some _ => true | None => false end.

Definition is_none {A} (o : option A) : bool := negb (is_some o).

(** [sep.join(items)] *)
Fixpoint str_join (sep : str) (items : list str) : str :=
  match items with
  | [] => []
  | [x] => x
  | x :: r => x ++ sep ++ str_join sep r
  end.

(* ================================================================== *)
(** * Exceptions *)
(* ================================================================== *)

Inductive ExcClass :=
| ValueError | RuntimeError | TypeError | KeyError | AttributeError
| JSONDecodeError | DuplicateKeyError | ConnectionFailure | APIError
| UnicodeEncodeError | OverflowError | InvalidDocument.

(** [Raised cls msg cause] is a [raise cls(msg) from cause] written in the
    source; [LibraryError cls] is raised inside the interpreter or a library
    (pymongo, google-genai), its message is not modelled. *)
Inductive PyExc :=
| Raised (cls : ExcClass) (msg : str) (cause : option ExcClass)
| LibraryError (cls : ExcClass).

Definition exc_class (e : PyExc) : ExcClass :=
  match e with Raised c _ _ => c | LibraryError c => c end.


(* ================================================================== *)
(** * What BSON can hold *)
(* ================================================================== *)

(** pymongo encodes every document, filter and update it sends.  A [str]
    goes out as UTF-8, which has no encoding for a lone surrogate (a [str]
    of Python may hold one, [json.loads] returns one for an escape like
    \ud800); an [int] must fit 64 bits; a key must not hold NUL. *)
Definition is_surrogate (c : N) : bool := (55296 <=? c) && (c <=? 57343).

Definition utf8_encodable (s : str) : bool := negb (existsb is_surrogate s).

Definition fits_int64 (z : Z) : bool :=
  ((- 9223372036854775808 <=? z) && (z <=? 9223372036854775807))%Z.

Definition bson_key_error (k : str) : option ExcClass :=
  if negb (utf8_encodable k) then Some UnicodeEncodeError
  else if existsb (N.eqb 0) k then Some InvalidDocument
  else None.

(** The exception that encoding a value ends with, if any: the first one
    met in the order of the document. *)
Fixpoint bson_error (v : json) : option ExcClass :=
  match v with
  | JNone | JBool _ => None
  | JInt z => if fits_int64 z then None else Some OverflowError
  | JStr s => if utf8_encodable s then None else Some UnicodeEncodeError
  | JList l =>
      (fix items (l : list json) : option ExcClass :=
         match l with
         | [] => None
         | x :: r => match bson_error x with
                     | Some e => Some e
                     | None => items r
                     end
         end) l
  | JDict d =>
      (fix pairs (d : list (str * json)) : option ExcClass :=
         match d with
         | [] => None
         | (k, x) :: r =>
             match bson_key_error k with
             | Some e => Some e
             | None => match bson_error x with
                       | Some e => Some e
                       | None => pairs r
                       end
             end
         end) d
  end.

(* ================================================================== *)
(** * The document store *)
(* ================================================================== *)

(** A [bson.ObjectId].  The [user_id] arguments of the services are hex
    strings that [ObjectId(user_id)] parses; the model takes the parsed id. *)
Definition ObjectId := N.

Definition datetime := N.

Inductive ConditionStatus := ACTIVE | RESOLVED.

Inductive InputMode :=
| TEXT | VOICE | IMAGE | TEXT_IMAGE | TEXT_VOICE | VOICE_IMAGE | ALL.


(** A document of the [health_conditions] collection, as
    [HealthCondition.to_dict] writes it. *)
Record HealthConditionDoc := {
  hc_id : ObjectId;
  hc_user_id : ObjectId;
  hc_condition_name : str;
  hc_status : ConditionStatus;
  hc_log_count : Z;
  hc_first_reported : datetime;
  hc_last_reported : datetime;
  hc_created_at : datetime;
  hc_updated_at : datetime
}.

(** A document of the [condition_logs] collection
    ([ConditionLog.to_dict]); the fields copied from the oracle's answer hold
    whatever value the answer had. *)
Record ConditionLogDoc := {
  cl_id : ObjectId;
  cl_user_id : ObjectId;
  cl_condition_name : json;
  cl_pain_level : json;
  cl_location : json;
  cl_details : json;
  cl_symptom_timestamp : json;
  cl_input_mode : InputMode;
  cl_mascot_response : json;
  cl_mascot_notes : json;
  cl_condition_id : option ObjectId;
  cl_created_at : datetime
}.

(** A document of the [mascot_memory] collection. *)
Record MascotMemoryDoc := {
  mm_id : ObjectId;
  mm_user_id : ObjectId;
  mm_tone : str;
  mm_name_used : str;
  mm_mascot_name : str;
  mm_summary_memory : str;
  mm_created_at : datetime;
  mm_updated_at : datetime
}.

(** The database, the generator of fresh [ObjectId]s, the wall clock, and
    the reachability of the server: [outage = Some n] lets [n] more
    round-trips through before the server stops answering, [None] is a server
    that stays up. *)
Record World := {
  health_conditions : list HealthConditionDoc;
  condition_logs : list ConditionLogDoc;
  mascot_memory : list MascotMemoryDoc;
  next_oid : ObjectId;
  clock : datetime;
  outage : option nat
}.

Definition with_health_conditions (w : World) l : World :=
  {| health_conditions := l; condition_logs := condition_logs w;
     mascot_memory := mascot_memory w; next_oid := next_oid w;
     clock := clock w; outage := outage w |}.

Definition with_condition_logs (w : World) l : World :=
  {| health_conditions := health_conditions w; condition_logs := l;
     mascot_memory := mascot_memory w; next_oid := next_oid w;
     clock := clock w; outage := outage w |}.

Definition with_mascot_memory (w : World) l : World :=
  {| health_conditions := health_conditions w; condition_logs := condition_logs w;
     mascot_memory := l; next_oid := next_oid w;
     clock := clock w; outage := outage w |}.

Definition with_next_oid (w : World) n : World :=
  {| health_conditions := health_conditions w; condition_logs := condition_logs w;
     mascot_memory := mascot_memory w; next_oid := n;
     clock := clock w; outage := outage w |}.

Definition with_clock (w : World) t : World :=
  {| health_conditions := health_conditions w; condition_logs := condition_logs w;
     mascot_memory := mascot_memory w; next_oid := next_oid w;
     clock := t; outage := outage w |}.

Definition with_outage (w : World) o : World :=
  {| health_conditions := health_conditions w; condition_logs := condition_logs w;
     mascot_memory := mascot_memory w; next_oid := next_oid w;
     clock := clock w; outage := o |}.

(** ** Computations that read and write the world and may raise *)

Inductive Outcome (A : Type) :=
| Ok (a : A)
| Raise (e : PyExc).

Arguments Ok {A} a.
Arguments Raise {A} e.

Definition M (A : Type) := World -> Outcome A * World.

Definition ret {A} (a : A) : M A := fun w => (Ok a, w).

Definition raise {A} (e : PyExc) : M A := fun w => (Raise e, w).

Definition bind {A B} (c : M A) (k : A -> M B) : M B :=
  fun w =>
    match c w with
    | (Ok a, w') => k a w'
    | (Raise e, w') => (Raise e, w')
    end.

Notation "x <- c ;; k" := (bind c (fun x => k))
  (at level 61, c at next level, right associativity).
Notation "' pat <- c ;; k" := (bind c (fun x => match x with pat => k end))
  (at level 61, pat pattern, c at next level, right associativity).

(** [datetime.now(timezone.utc)]: every reading advances the clock. *)
Definition now : M datetime :=
  fun w => (Ok (clock w), with_clock w (N.succ (clock w))).

(** One round-trip to the server. *)
Definition round_trip : M unit :=
  fun w =>
    match outage w with
    | None => (Ok tt, w)
    | Some (S n) => (Ok tt, with_outage w (Some n))
    | Some O => (Raise (LibraryError ConnectionFailure), w)
    end.

(** The [_id] that [insert_one] gives a document that has none. *)
Definition fresh_oid : M ObjectId :=
  fun w => (Ok (next_oid w), with_next_oid w (N.succ (next_oid w))).

(** Replace the first element that satisfies [p]. *)
Fixpoint update_first {A} (p : A -> bool) (f : A -> A) (l : list A) : list A :=
  match l with
  | [] => []
  | x :: r => if p x then f x :: r else x :: update_first p f r
  end.

Definition or_else {A} (o : option A) (default : A) : A :=
  match o with Some a => a | None => default end.

(* ================================================================== *)
(** * Entities *)
(* ================================================================== *)

(** ** [backend/entities/health_condition.py] *)
Module HealthCondition.

Record t := {
  id : option ObjectId;
  user_id : ObjectId;
  condition_name : str;
  status : ConditionStatus;
  log_count : Z;
  first_reported : datetime;
  last_reported : datetime;
  created_at : datetime;
  updated_at : datetime
}.

(** [__init__]: the name is normalised again, whatever the caller passed;
    one reading of the clock fills the timestamps that are missing. *)
Definition init (ucd : UnicodeData) (user_id : ObjectId) (condition_name : str)
    (status : ConditionStatus) (log_count : Z)
    (first_reported last_reported : option datetime)
    (_id : option ObjectId) (created_at updated_at : option datetime) : M t :=
  n <- now ;;
  ret {| id := _id;
         user_id := user_id;
         condition_name := normalise ucd condition_name;
         status := status;
         log_count := log_count;
         first_reported := or_else first_reported n;
         last_reported := or_else last_reported n;
         created_at := or_else created_at n;
         updated_at := or_else updated_at n |}.

(** [to_dict], with the [_id] the document is stored under. *)
Definition to_dict (c : t) (oid : ObjectId) : HealthConditionDoc :=
  {| hc_id := oid;
     hc_user_id := user_id c;
     hc_condition_name := condition_name c;
     hc_status := status c;
     hc_log_count := log_count c;
     hc_first_reported := first_reported c;
     hc_last_reported := last_reported c;
     hc_created_at := created_at c;
     hc_updated_at := updated_at c |}.

Definition from_dict (ucd : UnicodeData) (data : HealthConditionDoc) : M t :=
  init ucd (hc_user_id data) (hc_condition_name data) (hc_status data)
       (hc_log_count data)
       (Some (hc_first_reported data)) (Some (hc_last_reported data))
       (Some (hc_id data))
       (Some (hc_created_at data)) (Some (hc_updated_at data)).

Definition set_id (c : t) (i : option ObjectId) : t :=
  {| id := i; user_id := user_id c; condition_name := condition_name c;
     status := status c; log_count := log_count c;
     first_reported := first_reported c; last_reported := last_reported c;
     created_at := created_at c; updated_at := updated_at c |}.

Definition touch (c : t) : M t :=
  n <- now ;;
  ret {| id := id c; user_id := user_id c; condition_name := condition_name c;
         status := status c; log_count := log_count c;
         first_reported := first_reported c; last_reported := last_reported c;
         created_at := created_at c; updated_at := n |}.

Definition record_new_log (c : t) : M t :=
  n <- now ;;
  touch {| id := id c; user_id := user_id c; condition_name := condition_name c;
           status := status c; log_count := (log_count c + 1)%Z;
           first_reported := first_reported c; last_reported := n;
           created_at := created_at c; updated_at := updated_at c |}.

Definition set_status (c : t) (s : ConditionStatus) : t :=
  {| id := id c; user_id := user_id c; condition_name := condition_name c;
     status := s; log_count := log_count c;
     first_reported := first_reported c; last_reported := last_reported c;
     created_at := created_at c; updated_at := updated_at c |}.

Definition resolve (c : t) : M t := touch (set_status c RESOLVED).

Definition reactivate (c : t) : M t := touch (set_status c ACTIVE).

End HealthCondition.

(** ** [backend/entities/mascot_memory.py] *)
Module PersonaPreferences.

Record t := {
  tone : str;
  name_used : str;
  mascot_name : str
}.

Definition DEFAULT_TONE : str := lit "gentle".
Definition DEFAULT_MASCOT_NAME : str := lit "Barnaby the Bear".

Definition default : t :=
  {| tone := DEFAULT_TONE; name_used := lit "friend";
     mascot_name := DEFAULT_MASCOT_NAME |}.

End PersonaPreferences.

Module MascotMemory.

Record t := {
  id : option ObjectId;
  user_id : ObjectId;
  persona_preferences : PersonaPreferences.t;
  summary_memory : str;
  created_at : datetime;
  updated_at : datetime
}.

(** [MascotMemory(user_id=user_id)]: default preferences, empty summary,
    and a reading of the clock for each of the two timestamps. *)
Definition init (user_id : ObjectId) : M t :=
  c <- now ;;
  u <- now ;;
  ret {| id := None; user_id := user_id;
         persona_preferences := PersonaPreferences.default;
         summary_memory := [];
         created_at := c; updated_at := u |}.

Definition to_dict (m : t) (oid : ObjectId) : MascotMemoryDoc :=
  {| mm_id := oid;
     mm_user_id := user_id m;
     mm_tone := PersonaPreferences.tone (persona_preferences m);
     mm_name_used := PersonaPreferences.name_used (persona_preferences m);
     mm_mascot_name := PersonaPreferences.mascot_name (persona_preferences m);
     mm_summary_memory := summary_memory m;
     mm_created_at := created_at m;
     mm_updated_at := updated_at m |}.

Definition from_dict (data : MascotMemoryDoc) : t :=
  {| id := Some (mm_id data);
     user_id := mm_user_id data;
     persona_preferences :=
       {| PersonaPreferences.tone := mm_tone data;
          PersonaPreferences.name_used := mm_name_used data;
          PersonaPreferences.mascot_name := mm_mascot_name data |};
     summary_memory := mm_summary_memory data;
     created_at := mm_created_at data;
     updated_at := mm_updated_at data |}.

Definition set_id (m : t) (i : option ObjectId) : t :=
  {| id := i; user_id := user_id m;
     persona_preferences := persona_preferences m;
     summary_memory := summary_memory m;
     created_at := created_at m; updated_at := updated_at m |}.

Definition set_summary_memory (m : t) (s : str) : t :=
  {| id := id m; user_id := user_id m;
     persona_preferences := persona_preferences m;
     summary_memory := s;
     created_at := created_at m; updated_at := updated_at m |}.

Definition touch (m : t) : M t :=
  n <- now ;;
  ret {| id := id m; user_id := user_id m;
         persona_preferences := persona_preferences m;
         summary_memory := summary_memory m;
         created_at := created_at m; updated_at := n |}.

End MascotMemory.

(** ** [backend/entities/condition_log.py] *)
Module ConditionLog.

Record t := {
  id : option ObjectId;
  user_id : ObjectId;
  condition_name : json;
  pain_level : json;
  location : json;
  details : json;
  symptom_timestamp : json;
  input_mode : InputMode;
  mascot_response : json;
  mascot_notes : json;
  condition_id : option ObjectId;
  created_at : datetime
}.

(** [x or []] *)
Definition or_empty_list (v : json) : json :=
  if truthy v then v else JList [].

Definition init (user_id : ObjectId) (condition_name pain_level location
    details symptom_timestamp : json) (input_mode : InputMode)
    (mascot_response mascot_notes : json) (condition_id : option ObjectId) : M t :=
  n <- now ;;
  ret {| id := None; user_id := user_id;
         condition_name := condition_name;
         pain_level := pain_level;
         location := or_empty_list location;
         details := details;
         symptom_timestamp := symptom_timestamp;
         input_mode := input_mode;
         mascot_response := mascot_response;
         mascot_notes := or_empty_list mascot_notes;
         condition_id := condition_id;
         created_at := n |}.

Definition to_dict (l : t) (oid : ObjectId) : ConditionLogDoc :=
  {| cl_id := oid;
     cl_user_id := user_id l;
     cl_condition_name := condition_name l;
     cl_pain_level := pain_level l;
     cl_location := location l;
     cl_details := details l;
     cl_symptom_timestamp := symptom_timestamp l;
     cl_input_mode := input_mode l;
     cl_mascot_response := mascot_response l;
     cl_mascot_notes := mascot_notes l;
     cl_condition_id := condition_id l;
     cl_created_at := created_at l |}.

Definition set_id (l : t) (i : option ObjectId) : t :=
  {| id := i; user_id := user_id l; condition_name := condition_name l;
     pain_level := pain_level l; location := location l;
     details := details l; symptom_timestamp := symptom_timestamp l;
     input_mode := input_mode l; mascot_response := mascot_response l;
     mascot_notes := mascot_notes l; condition_id := condition_id l;
     created_at := created_at l |}.

End ConditionLog.

(* ================================================================== *)
(** * [HealthConditionService] *)
(* ================================================================== *)

(** The pair that the index [uq_user_condition], created in
    [HealthConditionService.__init__], keeps unique. *)
Definition card_key (d : HealthConditionDoc) : ObjectId * str :=
  (hc_user_id d, hc_condition_name d).

(** The filter [{"user_id": ..., "condition_name": ...}]. *)
Definition matches_key (user_id : ObjectId) (name : str) (d : HealthConditionDoc) : bool :=
  (hc_user_id d =? user_id) && str_eqb (hc_condition_name d) name.

(** [find_one] on [health_conditions].  The driver encodes the filter as
    it encodes a document, and refuses a condition name that BSON cannot
    encode; that refusal is not modelled for the cards: what is stated of
    them is about the names of stored cards, about calls that have returned,
    or about names that can be encoded. *)
Definition hc_find_one (p : HealthConditionDoc -> bool) : M (option HealthConditionDoc) :=
  _ <- round_trip ;;
  fun w => (Ok (find p (health_conditions w)), w).

(** [update_one({"_id": oid}, {"$set": ...})] on [health_conditions]. *)
Definition hc_update_one (oid : ObjectId)
    (set : HealthConditionDoc -> HealthConditionDoc) : M unit :=
  _ <- round_trip ;;
  fun w => (Ok tt, with_health_conditions w
                     (update_first (fun d => hc_id d =? oid) set (health_conditions w))).

(** [insert_one] on [health_conditions]: the unique index rejects a document
    whose (user_id, condition_name) is already stored. *)
Definition hc_insert_one (c : HealthCondition.t) : M ObjectId :=
  oid <- match HealthCondition.id c with
         | Some i => ret i
         | None => fresh_oid
         end ;;
  _ <- round_trip ;;
  fun w =>
    let d := HealthCondition.to_dict c oid in
    if existsb (matches_key (hc_user_id d) (hc_condition_name d)) (health_conditions w)
    then (Raise (LibraryError DuplicateKeyError), w)
    else (Ok oid, with_health_conditions w (health_conditions w ++ [d])).

(** The [$set] of the update path of [find_or_create]. *)
Definition set_after_log (card : HealthCondition.t) (d : HealthConditionDoc) : HealthConditionDoc :=
  {| hc_id := hc_id d;
     hc_user_id := hc_user_id d;
     hc_condition_name := hc_condition_name d;
     hc_status := HealthCondition.status card;
     hc_log_count := HealthCondition.log_count card;
     hc_first_reported := hc_first_reported d;
     hc_last_reported := HealthCondition.last_reported card;
     hc_created_at := hc_created_at d;
     hc_updated_at := HealthCondition.updated_at card |}.

(** The [$set] of [resolve_condition]. *)
Definition set_after_resolve (card : HealthCondition.t) (d : HealthConditionDoc)
  : HealthConditionDoc :=
  {| hc_id := hc_id d;
     hc_user_id := hc_user_id d;
     hc_condition_name := hc_condition_name d;
     hc_status := HealthCondition.status card;
     hc_log_count := hc_log_count d;
     hc_first_reported := hc_first_reported d;
     hc_last_reported := hc_last_reported d;
     hc_created_at := hc_created_at d;
     hc_updated_at := HealthCondition.updated_at card |}.

(** What a call of [find_or_create] holds between its [find_one] and its
    write. *)
Record Lookup := {
  lk_normalised : str;
  lk_now : datetime;
  lk_doc : option HealthConditionDoc
}.

Section HealthConditionService.
Variable ucd : UnicodeData.

(** [find_or_create], up to and including the [find_one]. *)
Definition find_or_create_lookup (user_id : ObjectId) (condition_name : str) : M Lookup :=
  let normalised := normalise ucd condition_name in
  n <- now ;;
  doc <- hc_find_one (matches_key user_id normalised) ;;
  ret {| lk_normalised := normalised; lk_now := n; lk_doc := doc |}.

(** [find_or_create], from the test [doc is not None] on. *)
Definition find_or_create_write (user_id : ObjectId) (l : Lookup) : M (HealthCondition.t * bool) :=
  match lk_doc l with
  | Some doc =>
      card <- HealthCondition.from_dict ucd doc ;;
      card <- HealthCondition.record_new_log card ;;
      card <- (match HealthCondition.status card with
               | RESOLVED => HealthCondition.reactivate card
               | ACTIVE => ret card
               end) ;;
      _ <- match HealthCondition.id card with
           | Some oid => hc_update_one oid (set_after_log card)
           | None => round_trip
           end ;;
      ret (card, false)
  | None =>
      card <- HealthCondition.init ucd user_id (lk_normalised l) ACTIVE 1%Z
                (Some (lk_now l)) (Some (lk_now l)) None None None ;;
      oid <- hc_insert_one card ;;
      ret (HealthCondition.set_id card (Some oid), true)
  end.

Definition find_or_create (user_id : ObjectId) (condition_name : str)
  : M (HealthCondition.t * bool) :=
  l <- find_or_create_lookup user_id condition_name ;;
  find_or_create_write user_id l.

Definition get_condition_by_id (condition_id : ObjectId) : M (option HealthCondition.t) :=
  doc <- hc_find_one (fun d => hc_id d =? condition_id) ;;
  match doc with
  | None => ret None
  | Some d => card <- HealthCondition.from_dict ucd d ;; ret (Some card)
  end.

Definition resolve_condition (condition_id : ObjectId) : M (option HealthCondition.t) :=
  card <- get_condition_by_id condition_id ;;
  match card with
  | None => ret None
  | Some card =>
      card <- HealthCondition.resolve card ;;
      _ <- match HealthCondition.id card with
           | Some oid => hc_update_one oid (set_after_resolve card)
           | None => round_trip
           end ;;
      ret (Some card)
  end.

(** [k] calls of [find_or_create user_id condition_name], one after the
    other; the results in order, or the first exception. *)
Fixpoint find_or_create_times (k : nat) (user_id : ObjectId) (condition_name : str)
  : M (list (HealthCondition.t * bool)) :=
  match k with
  | O => ret []
  | S k' =>
      r <- find_or_create user_id condition_name ;;
      rs <- find_or_create_times k' user_id condition_name ;;
      ret (r :: rs)
  end.

(** ** Calls in flight

    Requests are served in parallel; the server executes each [find_one],
    [update_one] and [insert_one] atomically, and a call of [find_or_create]
    makes two of them.  A call is a task that is scheduled twice. *)
Inductive Task :=
| Called (user_id : ObjectId) (condition_name : str)
| Looked (user_id : ObjectId) (condition_name : str) (l : Lookup)
| Finished (user_id : ObjectId) (condition_name : str)
           (r : Outcome (HealthCondition.t * bool)).

Definition step_task (t : Task) (w : World) : Task * World :=
  match t with
  | Called u n =>
      match find_or_create_lookup u n w with
      | (Ok l, w') => (Looked u n l, w')
      | (Raise e, w') => (Finished u n (Raise e), w')
      end
  | Looked u n l =>
      let '(r, w') := find_or_create_write u l w in (Finished u n r, w')
  | Finished _ _ _ => (t, w)
  end.

Record System := {
  tasks : list Task;
  world : World
}.

(** Scheduling the task at position [i]: its next operation executes. *)
Fixpoint step_at (i : nat) (ts : list Task) (w : World) : list Task * World :=
  match ts, i with
  | [], _ => ([], w)
  | t :: r, O => let '(t', w') := step_task t w in (t' :: r, w')
  | t :: r, S j => let '(r', w') := step_at j r w in (t :: r', w')
  end.

Definition schedule_one (s : System) (i : nat) : System :=
  let '(ts, w) := step_at i (tasks s) (world s) in
  {| tasks := ts; world := w |}.

(** An execution is the list of the positions scheduled, in order. *)
Definition run (schedule : list nat) (s : System) : System :=
  fold_left schedule_one schedule s.

(** The calls [calls], all issued and none started. *)
Definition issue (calls : list (ObjectId * str)) (w : World) : System :=
  {| tasks := List.map (fun c => Called (fst c) (snd c)) calls; world := w |}.

End HealthConditionService.

(* ================================================================== *)
(** * [ConditionLogService] *)
(* ================================================================== *)

(** [insert_one] on [condition_logs]. *)
(** The values of a log that come from the oracle's answer, in the order of
    [ConditionLog.to_dict]; the other fields are ids, a date and the value
    of an [InputMode]. *)
Definition log_values (d : ConditionLogDoc) : json :=
  JList [cl_condition_name d; cl_pain_level d; cl_location d; cl_details d;
         cl_symptom_timestamp d; cl_mascot_response d; cl_mascot_notes d].

(** [insert_one] on [condition_logs]: a document that BSON cannot encode is
    refused by the driver and nothing is stored. *)
Definition cl_insert_one (l : ConditionLog.t) : M ObjectId :=
  oid <- match ConditionLog.id l with
         | Some i => ret i
         | None => fresh_oid
         end ;;
  _ <- round_trip ;;
  fun w =>
    let d := ConditionLog.to_dict l oid in
    match bson_error (log_values d) with
    | Some cls => (Raise (LibraryError cls), w)
    | None => (Ok oid, with_condition_logs w (condition_logs w ++ [d]))
    end.

(** [x.get(k, default)] on a value that should be a [dict]; anything else
    has no attribute [get]. *)
Definition value_get (x : json) (k : str) (default : json) : M json :=
  match x with
  | JDict d => ret (dict_get_default d k default)
  | _ => raise (LibraryError AttributeError)
  end.

Definition create_from_gemini_result (user_id : ObjectId) (result : dict)
    (input_mode : InputMode) (condition_id : option ObjectId) : M ConditionLog.t :=
  let extracted := dict_get_default result (lit "extracted_data") (JDict []) in
  pain_level <- value_get extracted (lit "pain_level") (JInt 0) ;;
  location <- value_get extracted (lit "location") (JList []) ;;
  details <- value_get extracted (lit "details") (JStr []) ;;
  timestamp <- value_get extracted (lit "timestamp") (JStr []) ;;
  mascot_notes <- value_get extracted (lit "mascot_notes") (JList []) ;;
  log <- ConditionLog.init user_id
           (dict_get_default result (lit "condition_name") (JStr []))
           pain_level location details timestamp input_mode
           (dict_get_default result (lit "mascot_response") (JStr []))
           mascot_notes condition_id ;;
  oid <- cl_insert_one log ;;
  ret (ConditionLog.set_id log (Some oid)).

(* ================================================================== *)
(** * [AuraMascotAgent] *)
(* ================================================================== *)

(** ** Memory CRUD *)

Definition mm_find_one (p : MascotMemoryDoc -> bool) : M (option MascotMemoryDoc) :=
  _ <- round_trip ;;
  fun w => (Ok (find p (mascot_memory w)), w).

(** [insert_one] on [mascot_memory].  The one document that is inserted is
    the blank memory of [get_or_create_memory]: the defaults and an empty
    summary, which BSON can encode. *)
Definition mm_insert_one (m : MascotMemory.t) : M ObjectId :=
  oid <- match MascotMemory.id m with
         | Some i => ret i
         | None => fresh_oid
         end ;;
  _ <- round_trip ;;
  fun w => (Ok oid, with_mascot_memory w
                      (mascot_memory w ++ [MascotMemory.to_dict m oid])).

(** [update_one({"_id": oid}, {"$set": ...})] on [mascot_memory]; [texts]
    are the strings of the update document.  An update that BSON cannot
    encode is refused by the driver and nothing is stored. *)
Definition mm_update_one (oid : ObjectId) (texts : list str)
    (set : MascotMemoryDoc -> MascotMemoryDoc) : M unit :=
  _ <- round_trip ;;
  fun w =>
    if forallb utf8_encodable texts
    then (Ok tt, with_mascot_memory w
                   (update_first (fun d => mm_id d =? oid) set (mascot_memory w)))
    else (Raise (LibraryError UnicodeEncodeError), w).

Definition get_memory (user_id : ObjectId) : M (option MascotMemory.t) :=
  doc <- mm_find_one (fun d => mm_user_id d =? user_id) ;;
  ret (option_map MascotMemory.from_dict doc).

Definition get_or_create_memory (user_id : ObjectId) : M MascotMemory.t :=
  memory <- get_memory user_id ;;
  match memory with
  | Some m => ret m
  | None =>
      m <- MascotMemory.init user_id ;;
      oid <- mm_insert_one m ;;
      ret (MascotMemory.set_id m (Some oid))
  end.

(** The [$set] of [_save]. *)
Definition set_on_save (m : MascotMemory.t) (d : MascotMemoryDoc) : MascotMemoryDoc :=
  {| mm_id := mm_id d;
     mm_user_id := mm_user_id d;
     mm_tone := PersonaPreferences.tone (MascotMemory.persona_preferences m);
     mm_name_used := PersonaPreferences.name_used (MascotMemory.persona_preferences m);
     mm_mascot_name := PersonaPreferences.mascot_name (MascotMemory.persona_preferences m);
     mm_summary_memory := MascotMemory.summary_memory m;
     mm_created_at := mm_created_at d;
     mm_updated_at := MascotMemory.updated_at m |}.

(** The strings of the [$set] of [_save]. *)
Definition saved_texts (m : MascotMemory.t) : list str :=
  [PersonaPreferences.tone (MascotMemory.persona_preferences m);
   PersonaPreferences.name_used (MascotMemory.persona_preferences m);
   PersonaPreferences.mascot_name (MascotMemory.persona_preferences m);
   MascotMemory.summary_memory m].

Definition _save (memory : MascotMemory.t) : M MascotMemory.t :=
  memory <- MascotMemory.touch memory ;;
  _ <- match MascotMemory.id memory with
       | Some oid => mm_update_one oid (saved_texts memory) (set_on_save memory)
       | None => round_trip
       end ;;
  ret memory.

Definition append_to_summary (user_id : ObjectId) (addition : str) : M MascotMemory.t :=
  memory <- get_or_create_memory user_id ;;
  let memory :=
    if str_truthy (MascotMemory.summary_memory memory)
    then MascotMemory.set_summary_memory memory
           (MascotMemory.summary_memory memory ++ [10] ++ addition)
    else MascotMemory.set_summary_memory memory addition in
  _save memory.

(** ** Input resolution *)

(** A Werkzeug [FileStorage], or any open file: what [read()] returns, and
    the attributes [content_type] and [filename] when it has them. *)
Record FileStorage := {
  fs_read : bytes;
  fs_content_type : option str;
  fs_filename : option str
}.

Definition _AUDIO_EXT_MAP : list (str * str) :=
  [ (lit ".webm", lit "audio/webm");
    (lit ".m4a", lit "audio/mp4");
    (lit ".mp3", lit "audio/mpeg");
    (lit ".wav", lit "audio/wav");
    (lit ".ogg", lit "audio/ogg");
    (lit ".aac", lit "audio/aac") ].

Definition _IMAGE_EXT_MAP : list (str * str) :=
  [ (lit ".jpg", lit "image/jpeg");
    (lit ".jpeg", lit "image/jpeg");
    (lit ".png", lit "image/png");
    (lit ".gif", lit "image/gif");
    (lit ".webp", lit "image/webp");
    (lit ".heic", lit "image/heic") ].

Definition _mime_from_filename (ucd : UnicodeData) (filename : option str)
    (ext_map : list (str * str)) (default : str) : str :=
  if negb (opt_truthy filename) then default
  else
    match find (fun em => endswith (py_lower ucd (or_else filename [])) (fst em)) ext_map with
    | Some em => snd em
    | None => default
    end.

(** [audio_file] takes priority over the raw bytes. *)
Definition _resolve_audio (ucd : UnicodeData) (audio_file : option FileStorage)
    (audio_bytes : option bytes) (audio_mime : str) : option bytes * str :=
  match audio_file with
  | Some f =>
      let data := fs_read f in
      let mime :=
        if opt_truthy (fs_content_type f) then or_else (fs_content_type f) []
        else _mime_from_filename ucd (fs_filename f) _AUDIO_EXT_MAP (lit "audio/webm") in
      (Some data, mime)
  | None => (audio_bytes, audio_mime)
  end.

Definition _resolve_image (ucd : UnicodeData) (image_file : option FileStorage)
    (image_bytes : option bytes) (image_mime : str) : option bytes * str :=
  match image_file with
  | Some f =>
      let data := fs_read f in
      let mime :=
        if opt_truthy (fs_content_type f) then or_else (fs_content_type f) []
        else _mime_from_filename ucd (fs_filename f) _IMAGE_EXT_MAP (lit "image/jpeg") in
      (Some data, mime)
  | None => (image_bytes, image_mime)
  end.

(** Step 3 of [process_input]: the input mode, from which inputs are there. *)
Definition determine_input_mode (has_text has_audio has_image : bool) : InputMode :=
  if has_text && has_audio && has_image then ALL
  else if has_text && has_image then TEXT_IMAGE
  else if has_text && has_audio then TEXT_VOICE
  else if has_audio && has_image then VOICE_IMAGE
  else if has_audio then VOICE
  else if has_image then IMAGE
  else TEXT.


(** ** The request to the oracle *)

Inductive Part :=
| Part_from_text (text : str)
| Part_from_bytes (data : bytes) (mime_type : str).

Record Content := {
  role : str;
  parts : list Part
}.

Record GenerateRequest := {
  contents : list Content;
  system_instruction : str
}.

(** [generate_content] raises, or returns a response whose [.text] may be
    [None]. *)
Inductive GeminiReply :=
| ApiRaises (e : PyExc)
| Response (text : option str).

(** A message of [conversation_history]. *)
Record HistoryMessage := {
  msg_role : str;
  msg_text : str
}.

Definition _FORCE_LOG_INSTRUCTION : str :=
  [10; 10; 9888; 65039] ++ lit " IMPORTANT " ++ [8212]
  ++ lit " THE USER HAS PRESSED THE 'LOG IT' BUTTON. "
  ++ lit "You MUST set action to 'update_condition' NOW. "
  ++ lit "Summarise ALL information from the conversation into the "
  ++ lit "structured fields (condition_name, pain_level, location, "
  ++ lit "details, timestamp, mascot_notes). Use your best judgement "
  ++ lit "to fill in any fields the user didn't explicitly mention. "
  ++ lit "Do NOT ask any more follow-up questions. "
  ++ lit "Do NOT set action to 'request_clarification' or 'general_chat'."
  ++ [10].

Definition _MEMORY_EMPTY_NOTE (name_used : str) : str :=
  lit "This is your first conversation with " ++ name_used
  ++ lit ".  You don't know anything about them yet " ++ [8212]
  ++ lit " start by being warm and welcoming.".

Definition voice_caption : str :=
  lit "(The user just sent a voice message " ++ [8212]
  ++ lit " listen to it and respond.)".

Definition photo_caption : str :=
  lit "(The user just sent a photo " ++ [8212]
  ++ lit " describe what you see and log it.)".

Definition bytes_truthy (b : option bytes) : bool :=
  match b with Some (_ :: _) => true | _ => false end.

(** [str(ObjectId)]: 24 hexadecimal digits. *)
Definition hex_digit (n : N) : N := if n <? 10 then 48 + n else 87 + n.

Fixpoint hex_digits (k : nat) (n : N) (acc : str) : str :=
  match k with
  | O => acc
  | S k' => hex_digits k' (n / 16) (hex_digit (n mod 16) :: acc)
  end.

Definition oid_str (o : ObjectId) : str := hex_digits 24 o [].

Definition oid_json (o : option ObjectId) : json :=
  match o with Some i => JStr (oid_str i) | None => JNone end.

(** The input guard of [process_aura] in the controller: the request is
    answered 400 when this is false. *)
Definition controller_accepts (text : option str) (audio_file image_file : option FileStorage)
    (force_log : bool) : bool :=
  negb (negb (opt_truthy text) && is_none audio_file && is_none image_file
        && negb force_log).

(** The input guard of [process_input], after the files are resolved. *)
Definition input_missing (text : option str) (audio_bytes image_bytes : option bytes) : bool :=
  negb (opt_truthy text) && is_none audio_bytes && is_none image_bytes.

Definition no_input_error : PyExc :=
  Raised ValueError (lit "At least one input (text, audio, or image) is required.") None.

Definition empty_response_error : PyExc :=
  Raised RuntimeError (lit "Gemini returned an empty response.") None.

Definition invalid_json_error (raw_text : str) : PyExc :=
  Raised RuntimeError (lit "Gemini returned invalid JSON: " ++ firstn 200 raw_text)
         (Some JSONDecodeError).

Section Agent.
Variable ucd : UnicodeData.

(** [json.loads]; [None] stands for [json.JSONDecodeError]. *)
Variable json_loads : str -> option json.

(** [self._gemini.models.generate_content], the extraction oracle. *)
Variable generate_content : GenerateRequest -> GeminiReply.

(** How an f-string renders a value that is not a [str]. *)
Variable py_str : json -> str.

(** The six personality blocks, formatted with [mascot_name], [tone],
    [name_used] and [summary_memory] and joined by newlines. *)
Variable personality : str -> str -> str -> str -> str.

(** [_JSON_INSTRUCTION], formatted with the time of the call. *)
Variable json_rules : datetime -> str.

Definition generate_system_instruction (memory : MascotMemory.t) : M str :=
  let prefs := MascotMemory.persona_preferences memory in
  let summary_memory :=
    if str_truthy (MascotMemory.summary_memory memory)
    then MascotMemory.summary_memory memory
    else _MEMORY_EMPTY_NOTE (PersonaPreferences.name_used prefs) in
  n <- now ;;
  ret (personality (PersonaPreferences.mascot_name prefs)
                   (PersonaPreferences.tone prefs)
                   (PersonaPreferences.name_used prefs)
                   summary_memory
       ++ json_rules n).

(** Step 5: the turns of the history, then the parts of the current
    message. *)
Definition history_contents (conversation_history : option (list HistoryMessage)) : list Content :=
  List.map (fun msg =>
              {| role := if str_eqb (msg_role msg) (lit "user")
                         then lit "user" else lit "model";
                 parts := [Part_from_text (msg_text msg)] |})
           (or_else conversation_history []).

Definition current_parts (text : option str) (audio_bytes : option bytes) (audio_mime : str)
    (image_bytes : option bytes) (image_mime : str) (force_log : bool) : list Part :=
  let parts :=
    (if bytes_truthy audio_bytes
     then [Part_from_bytes (or_else audio_bytes []) audio_mime;
           Part_from_text voice_caption]
     else [])
    ++ (if bytes_truthy image_bytes
        then [Part_from_bytes (or_else image_bytes []) image_mime;
              Part_from_text photo_caption]
        else [])
    ++ (if opt_truthy text then [Part_from_text (or_else text [])] else []) in
  match parts with
  | [] => if force_log
          then [Part_from_text (lit "Please log everything we've discussed so far.")]
          else []
  | _ => parts
  end.

Definition build_contents (conversation_history : option (list HistoryMessage))
    (current : list Part) : list Content :=
  match current with
  | [] => history_contents conversation_history
  | _ => history_contents conversation_history
         ++ [{| role := lit "user"; parts := current |}]
  end.

(** Step 6 *)
Definition call_gemini (request : GenerateRequest) : M (option str) :=
  match generate_content request with
  | ApiRaises e => raise e
  | Response text => ret text
  end.

(** Step 7 *)
Definition parse_response (raw_text : option str) : M json :=
  if negb (opt_truthy raw_text) then raise empty_response_error
  else
    match json_loads (or_else raw_text []) with
    | Some result => ret result
    | None => raise (invalid_json_error (or_else raw_text []))
    end.

(** Step 8: [result["memory_context"] = {...}]; only a [dict] supports the
    assignment. *)
Definition memory_context (memory : MascotMemory.t) : json :=
  let prefs := MascotMemory.persona_preferences memory in
  JDict [ (lit "mascot_name", JStr (PersonaPreferences.mascot_name prefs));
          (lit "name_used", JStr (PersonaPreferences.name_used prefs));
          (lit "tone", JStr (PersonaPreferences.tone prefs));
          (lit "summary_length",
            JInt (Z.of_nat (List.length (MascotMemory.summary_memory memory))));
          (lit "is_first_interaction",
            JBool (negb (str_truthy (MascotMemory.summary_memory memory)))) ].

Definition attach_memory_context (result : json) (memory : MascotMemory.t) : M dict :=
  match result with
  | JDict d => ret (dict_set d (lit "memory_context") (memory_context memory))
  | _ => raise (LibraryError TypeError)
  end.

(** The test of step 9. *)
Definition is_loggable (result : dict) : bool :=
  match dict_get result (lit "action") with
  | Some (JStr a) =>
      str_eqb a (lit "update_condition")
      && match dict_get result (lit "condition_name") with
         | Some v => truthy v
         | None => false
         end
  | _ => false
  end.

Definition format_value (v : json) : str :=
  match v with JStr s => s | _ => py_str v end.

Fixpoint all_str (l : list json) : option (list str) :=
  match l with
  | [] => Some []
  | JStr s :: r => option_map (cons s) (all_str r)
  | _ :: _ => None
  end.

(** ["; ".join(x)] *)
Definition join_notes (x : json) : M str :=
  match x with
  | JList l =>
      match all_str l with
      | Some items => ret (str_join (lit "; ") items)
      | None => raise (LibraryError TypeError)
      end
  | JStr s => ret (str_join (lit "; ") (List.map (fun c => [c]) s))
  | JDict d => ret (str_join (lit "; ") (List.map fst d))
  | _ => raise (LibraryError TypeError)
  end.

(** The body of step 9: card, summary line, log. *)
Definition log_condition (user_id : ObjectId) (result : dict) (input_mode : InputMode) : M dict :=
  entry <- match dict_get result (lit "extracted_data") with
           | Some e => ret e
           | None => raise (LibraryError KeyError)
           end ;;
  condition_name <- match dict_get result (lit "condition_name") with
                    | Some (JStr s) => ret s
                    | Some _ => raise (LibraryError AttributeError)
                    | None => raise (LibraryError KeyError)
                    end ;;
  ' (card, is_new) <- find_or_create ucd user_id condition_name ;;
  let result := dict_set result (lit "condition_id") (oid_json (HealthCondition.id card)) in
  let result := dict_set result (lit "is_new_condition") (JBool is_new) in
  notes <- value_get entry (lit "mascot_notes") (JList []) ;;
  notes_str <- join_notes notes ;;
  pain_level <- value_get entry (lit "pain_level") (JStr (lit "?")) ;;
  location <- value_get entry (lit "location") (JList []) ;;
  details <- value_get entry (lit "details") (JStr []) ;;
  timestamp <- value_get entry (lit "timestamp") (JStr (lit "unknown time")) ;;
  let summary_line :=
    condition_name ++ lit ": "
    ++ lit "pain " ++ format_value pain_level ++ lit "/10, "
    ++ lit "location " ++ format_value location ++ lit ", "
    ++ format_value details ++ lit " "
    ++ lit "(" ++ format_value timestamp ++ lit ")" in
  let summary_line :=
    if str_truthy notes_str
    then summary_line ++ lit " [notes: " ++ notes_str ++ lit "]"
    else summary_line in
  _ <- append_to_summary user_id summary_line ;;
  log <- create_from_gemini_result user_id result input_mode (HealthCondition.id card) ;;
  ret (dict_set result (lit "log_id") (oid_json (ConditionLog.id log))).

(** Steps 7 to 9 of [process_input]: what is done with the [.text] of the
    oracle's response. *)
Definition interpret_response (user_id : ObjectId) (memory : MascotMemory.t)
    (input_mode : InputMode) (raw_text : option str) : M dict :=
  result <- parse_response raw_text ;;
  result <- attach_memory_context result memory ;;
  if is_loggable result then log_condition user_id result input_mode
  else ret result.

(** Everything of [process_input] behind the input guard (steps 2 to 9). *)
Definition process_valid_input (user_id : ObjectId) (text : option str)
    (audio_bytes : option bytes) (audio_mime : str)
    (image_bytes : option bytes) (image_mime : str)
    (force_log : bool) (conversation_history : option (list HistoryMessage)) : M dict :=
  memory <- get_or_create_memory user_id ;;
  let input_mode :=
    determine_input_mode (opt_truthy text) (is_some audio_bytes) (is_some image_bytes) in
  system_instruction <- generate_system_instruction memory ;;
  let system_instruction :=
    if force_log then system_instruction ++ _FORCE_LOG_INSTRUCTION
    else system_instruction in
  let contents :=
    build_contents conversation_history
      (current_parts text audio_bytes audio_mime image_bytes image_mime force_log) in
  raw_text <- call_gemini {| contents := contents;
                             system_instruction := system_instruction |} ;;
  interpret_response user_id memory input_mode raw_text.

Definition process_input (user_id : ObjectId) (text : option str)
    (audio_file image_file : option FileStorage)
    (force_log : bool) (conversation_history : option (list HistoryMessage))
    (audio_bytes : option bytes) (audio_mime : str)
    (image_bytes : option bytes) (image_mime : str) : M dict :=
  let audio := _resolve_audio ucd audio_file audio_bytes audio_mime in
  let image := _resolve_image ucd image_file image_bytes image_mime in
  if input_missing text (fst audio) (fst image) then raise no_input_error
  else process_valid_input user_id text (fst audio) (snd audio)
                           (fst image) (snd image) force_log conversation_history.

End Agent.

(* ================================================================== *)
(** * The rest of the services *)
(* ================================================================== *)

(** ** Cursors: [find(...).sort(key, -1).skip(n).limit(m)] *)

(** [sort(key, -1)]: descending by [key].  The server does not say in which
    order it returns documents of equal key; the model inserts each document
    before the first one that is not greater. *)
Fixpoint insert_desc {A} (key : A -> N) (x : A) (l : list A) : list A :=
  match l with
  | [] => [x]
  | y :: r => if key y <=? key x then x :: l else y :: insert_desc key x r
  end.

Fixpoint sort_desc {A} (key : A -> N) (l : list A) : list A :=
  match l with
  | [] => []
  | x :: r => insert_desc key x (sort_desc key r)
  end.

(** [limit(m)]: at most [m] documents; a limit of 0 is no limit. *)
Definition cursor_limit {A} (m : nat) (l : list A) : list A :=
  match m with O => l | _ => firstn m l end.

(** [delete_one(filter)]: the first matching document goes; the result is
    what is left and [deleted_count]. *)
Fixpoint remove_first {A} (p : A -> bool) (l : list A) : list A * nat :=
  match l with
  | [] => ([], O)
  | x :: r =>
      if p x then (r, 1%nat)
      else let '(r', n) := remove_first p r in (x :: r', n)
  end.

(** [delete_many(filter)]. *)
Definition remove_all {A} (p : A -> bool) (l : list A) : list A * nat :=
  (filter (fun x => negb (p x)) l, List.length (filter p l)).

(** ** [HealthConditionService], the other methods *)

(** The query [{"user_id": ...}], with ["status"] when a status is given. *)
Definition user_query (user_id : ObjectId) (status : option ConditionStatus)
    (d : HealthConditionDoc) : bool :=
  (hc_user_id d =? user_id)
  && match status, hc_status d with
     | None, _ => true
     | Some ACTIVE, ACTIVE | Some RESOLVED, RESOLVED => true
     | _, _ => false
     end.

Section HealthConditionReads.
Variable ucd : UnicodeData.

(** [[HealthCondition.from_dict(doc) for doc in cursor]] *)
Fixpoint hydrate_all (docs : list HealthConditionDoc) : M (list HealthCondition.t) :=
  match docs with
  | [] => ret []
  | d :: r =>
      c <- HealthCondition.from_dict ucd d ;;
      cs <- hydrate_all r ;;
      ret (c :: cs)
  end.

Definition get_conditions_for_user (user_id : ObjectId) (status : option ConditionStatus)
  : M (list HealthCondition.t) :=
  _ <- round_trip ;;
  docs <- (fun w => (Ok (sort_desc hc_last_reported
                           (filter (user_query user_id status) (health_conditions w))), w)) ;;
  hydrate_all docs.

Definition get_condition_by_name (user_id : ObjectId) (condition_name : str)
  : M (option HealthCondition.t) :=
  let normalised := normalise ucd condition_name in
  doc <- hc_find_one (matches_key user_id normalised) ;;
  match doc with
  | None => ret None
  | Some d => card <- HealthCondition.from_dict ucd d ;; ret (Some card)
  end.

End HealthConditionReads.

Definition count_conditions_for_user (user_id : ObjectId) (status : option ConditionStatus)
  : M nat :=
  _ <- round_trip ;;
  fun w => (Ok (List.length (filter (user_query user_id status) (health_conditions w))), w).

Definition delete_condition (condition_id : ObjectId) : M bool :=
  _ <- round_trip ;;
  fun w =>
    let '(rest, deleted_count) :=
      remove_first (fun d => hc_id d =? condition_id) (health_conditions w) in
    (Ok (Nat.ltb 0 deleted_count), with_health_conditions w rest).

Definition delete_all_conditions_for_user (user_id : ObjectId) : M nat :=
  _ <- round_trip ;;
  fun w =>
    let '(rest, deleted_count) :=
      remove_all (fun d => hc_user_id d =? user_id) (health_conditions w) in
    (Ok deleted_count, with_health_conditions w rest).

(** ** [ConditionLogService], the other methods *)

(** [ConditionLog.from_dict]: the document has its [created_at], the clock
    is not read. *)
Definition ConditionLog_from_dict (data : ConditionLogDoc) : ConditionLog.t :=
  {| ConditionLog.id := Some (cl_id data);
     ConditionLog.user_id := cl_user_id data;
     ConditionLog.condition_name := cl_condition_name data;
     ConditionLog.pain_level := cl_pain_level data;
     ConditionLog.location := ConditionLog.or_empty_list (cl_location data);
     ConditionLog.details := cl_details data;
     ConditionLog.symptom_timestamp := cl_symptom_timestamp data;
     ConditionLog.input_mode := cl_input_mode data;
     ConditionLog.mascot_response := cl_mascot_response data;
     ConditionLog.mascot_notes := ConditionLog.or_empty_list (cl_mascot_notes data);
     ConditionLog.condition_id := cl_condition_id data;
     ConditionLog.created_at := cl_created_at data |}.

(** [find(query).sort("created_at", -1).skip(skip).limit(limit)] on the
    logs, hydrated. *)
Definition find_logs (query : ConditionLogDoc -> bool) (limit skip : nat)
  : M (list ConditionLog.t) :=
  _ <- round_trip ;;
  fun w =>
    (Ok (List.map ConditionLog_from_dict
           (cursor_limit limit
              (skipn skip (sort_desc cl_created_at (filter query (condition_logs w)))))),
     w).

Definition get_logs_for_user (user_id : ObjectId) (limit skip : nat)
  : M (list ConditionLog.t) :=
  find_logs (fun d => cl_user_id d =? user_id) limit skip.

Definition get_logs_for_condition (condition_id : ObjectId) (limit skip : nat)
  : M (list ConditionLog.t) :=
  find_logs (fun d => match cl_condition_id d with
                      | Some c => c =? condition_id
                      | None => false
                      end) limit skip.

Definition count_logs_for_user (user_id : ObjectId) : M nat :=
  _ <- round_trip ;;
  fun w => (Ok (List.length (filter (fun d => cl_user_id d =? user_id) (condition_logs w))), w).

Definition get_log_by_id (log_id : ObjectId) : M (option ConditionLog.t) :=
  _ <- round_trip ;;
  fun w => (Ok (option_map ConditionLog_from_dict
                  (find (fun d => cl_id d =? log_id) (condition_logs w))), w).

Definition delete_log (log_id : ObjectId) : M bool :=
  _ <- round_trip ;;
  fun w =>
    let '(rest, deleted_count) :=
      remove_first (fun d => cl_id d =? log_id) (condition_logs w) in
    (Ok (Nat.ltb 0 deleted_count), with_condition_logs w rest).

Definition delete_all_logs_for_user (user_id : ObjectId) : M nat :=
  _ <- round_trip ;;
  fun w =>
    let '(rest, deleted_count) :=
      remove_all (fun d => cl_user_id d =? user_id) (condition_logs w) in
    (Ok deleted_count, with_condition_logs w rest).

(** ** [AuraMascotAgent], the other memory methods *)

(** [MascotMemory.update_preferences]: only the fields that are given. *)
Definition MascotMemory_update_preferences (m : MascotMemory.t)
    (tone name_used mascot_name : option str) : M MascotMemory.t :=
  let p := MascotMemory.persona_preferences m in
  MascotMemory.touch
    {| MascotMemory.id := MascotMemory.id m;
       MascotMemory.user_id := MascotMemory.user_id m;
       MascotMemory.persona_preferences :=
         {| PersonaPreferences.tone := or_else tone (PersonaPreferences.tone p);
            PersonaPreferences.name_used :=
              or_else name_used (PersonaPreferences.name_used p);
            PersonaPreferences.mascot_name :=
              or_else mascot_name (PersonaPreferences.mascot_name p) |};
       MascotMemory.summary_memory := MascotMemory.summary_memory m;
       MascotMemory.created_at := MascotMemory.created_at m;
       MascotMemory.updated_at := MascotMemory.updated_at m |}.

(** [MascotMemory.update_summary] *)
Definition MascotMemory_update_summary (m : MascotMemory.t) (new_summary : str)
  : M MascotMemory.t :=
  MascotMemory.touch (MascotMemory.set_summary_memory m new_summary).

Definition update_preferences (user_id : ObjectId)
    (tone name_used mascot_name : option str) : M MascotMemory.t :=
  memory <- get_or_create_memory user_id ;;
  memory <- MascotMemory_update_preferences memory tone name_used mascot_name ;;
  _save memory.

Definition update_summary (user_id : ObjectId) (new_summary : str) : M MascotMemory.t :=
  memory <- get_or_create_memory user_id ;;
  memory <- MascotMemory_update_summary memory new_summary ;;
  _save memory.

Definition delete_memory (user_id : ObjectId) : M bool :=
  _ <- round_trip ;;
  fun w =>
    let '(rest, deleted_count) :=
      remove_first (fun d => mm_user_id d =? user_id) (mascot_memory w) in
    (Ok (Nat.ltb 0 deleted_count), with_mascot_memory w rest).

(** ** Controllers: the endpoints that write *)

(** The status code of a response, and what it carries. *)
Record Reply (A : Type) := {
  status_code : nat;
  payload : option A
}.

Arguments status_code {A} r.
Arguments payload {A} r.

(** [PATCH /api/conditions/<id>/resolve], for the authenticated
    [user_id]. *)
Definition resolve_condition_endpoint (ucd : UnicodeData) (user_id condition_id : ObjectId)
  : M (Reply HealthCondition.t) :=
  card <- get_condition_by_id ucd condition_id ;;
  match card with
  | None => ret {| status_code := 404; payload := None |}
  | Some card =>
      if negb (HealthCondition.user_id card =? user_id)
      then ret {| status_code := 403; payload := None |}
      else
        updated <- resolve_condition ucd condition_id ;;
        match updated with
        | Some u => ret {| status_code := 200; payload := Some u |}
        | None => raise (LibraryError AttributeError)
        end
  end.

(** [DELETE /api/logs/<id>], for the authenticated [user_id]. *)
Definition delete_log_endpoint (user_id log_id : ObjectId) : M (Reply unit) :=
  log <- get_log_by_id log_id ;;
  match log with
  | None => ret {| status_code := 404; payload := None |}
  | Some l =>
      if negb (ConditionLog.user_id l =? user_id)
      then ret {| status_code := 403; payload := None |}
      else
        _ <- delete_log log_id ;;
        ret {| status_code := 200; payload := Some tt |}
  end.

(** [GET /api/conditions]: the query parameter [status] filters only when
    it is "active" or "resolved". *)
Definition parse_status_filter (status_filter : option str) : option ConditionStatus :=
  match status_filter with
  | None => None
  | Some s =>
      if str_eqb s (lit "active") then Some ACTIVE
      else if str_eqb s (lit "resolved") then Some RESOLVED
      else None
  end.

Definition get_my_conditions (ucd : UnicodeData) (user_id : ObjectId)
    (status_filter : option str) : M (list HealthCondition.t * nat) :=
  let status := parse_status_filter status_filter in
  cards <- get_conditions_for_user ucd user_id status ;;
  total <- count_conditions_for_user user_id status ;;
  ret (cards, total).

(** [GET /api/logs], for the authenticated [user_id]; [limit] and [skip]
    are the query parameters, taken here as naturals: negative values are
    outside the model.  The response carries the logs and the total. *)
Definition get_my_logs (user_id : ObjectId) (limit skip : nat)
  : M (list ConditionLog.t * nat) :=
  logs <- get_logs_for_user user_id limit skip ;;
  total <- count_logs_for_user user_id ;;
  ret (logs, total).

(** ** [POST /api/process-aura] *)

(** Which [except] clause of [process_aura] takes an exception:
    [ValueError] and its subclasses are answered 400, [RuntimeError] 502,
    every other [Exception] 500. *)
Definition status_of_exception (e : PyExc) : nat :=
  match exc_class e with
  | ValueError | JSONDecodeError | UnicodeEncodeError => 400
  | RuntimeError => 502
  | _ => 500
  end.

Section ProcessAura.
Variable ucd : UnicodeData.
Variable json_loads : str -> option json.
Variable generate_content : GenerateRequest -> GeminiReply.
Variable py_str : json -> str.
Variable personality : str -> str -> str -> str -> str.
Variable json_rules : datetime -> str.

(** [TtsService.synthesise] on a [str]: the name of the audio file, or
    [None]; it raises nothing, its own failures are caught inside. *)
Variable synthesise : str -> option str.

(** The speech step.  [synthesise] calls [text.strip()] before its [try],
    which only a [str] has. *)
Definition attach_audio (result : dict) : M dict :=
  let mascot_text := dict_get_default result (lit "mascot_response") (JStr []) in
  if truthy mascot_text then
    match mascot_text with
    | JStr s =>
        match synthesise s with
        | Some filename =>
            if str_truthy filename
            then ret (dict_set result (lit "audio_url") (JStr (lit "/api/tts/" ++ filename)))
            else ret result
        | None => ret result
        end
    | _ => raise (LibraryError AttributeError)
    end
  else ret result.

(** The endpoint from its input guard on; [text], the files, [force_log]
    and the history are what was read off the request. *)
Definition process_aura (user_id : ObjectId) (text : option str)
    (audio_file image_file : option FileStorage) (force_log : bool)
    (conversation_history : option (list HistoryMessage))
  : World -> Reply dict * World :=
  fun w =>
    if negb (controller_accepts text audio_file image_file force_log)
    then ({| status_code := 400; payload := None |}, w)
    else
      match (result <- process_input ucd json_loads generate_content py_str
                         personality json_rules user_id text audio_file image_file
                         force_log conversation_history
                         None (lit "audio/webm") None (lit "image/jpeg") ;;
             attach_audio result) w with
      | (Ok result, w') => ({| status_code := 200; payload := Some result |}, w')
      | (Raise e, w') => ({| status_code := status_of_exception e; payload := None |}, w')
      end.

End ProcessAura.

(* ================================================================== *)
(** * Vocabulary of the statements *)
(* ================================================================== *)

(** [title()] keeps the places of the whitespace. *)
Definition same_spaces (s t : str) : Prop :=
  Forall2 (fun a b => ascii_isspace a = ascii_isspace b) s t.

(** A stripped text: no whitespace at either end. *)
Definition is_stripped (s : str) : Prop :=
  ascii_lstrip s = s /\ ascii_lstrip (rev s) = rev s.

(** The number of cards stored for a (user, name) pair. *)
Definition cards_for (user_id : ObjectId) (name : str) (w : World) : nat :=
  List.length (filter (matches_key user_id name) (health_conditions w)).

Definition card_keys (w : World) : list (ObjectId * str) :=
  List.map card_key (health_conditions w).

Definition card_ids (w : World) : list ObjectId :=
  List.map hc_id (health_conditions w).

(** The index [uq_user_condition] holds. *)
Definition unique_index (w : World) : Prop := NoDup (card_keys w).

(** The unique index holds in a store, the [_id]s are distinct, and the
    generator has not yet given out the id of a stored card. *)
Record store_ok (w : World) : Prop := {
  ok_keys : unique_index w;
  ok_ids : NoDup (card_ids w);
  ok_fresh : Forall (fun i => i < next_oid w) (card_ids w)
}.

(** The collections other than the cards are not touched. *)
Definition same_rest (w w' : World) : Prop :=
  condition_logs w' = condition_logs w /\ mascot_memory w' = mascot_memory w.

Definition has_card (u : ObjectId) (name : str) (w : World) : Prop :=
  In (u, name) (card_keys w).

(** What is known of a task, whatever the other tasks do: a card that was
    found, updated or created is stored. *)
Definition task_inv (ucd : UnicodeData) (w : World) (t : Task) : Prop :=
  match t with
  | Called _ _ => True
  | Looked u n l =>
      lk_normalised l = normalise ucd n
      /\ (lk_doc l <> None -> has_card u (normalise ucd n) w)
  | Finished u n (Ok (card, is_new)) =>
      has_card u (if is_new then normalise ucd (normalise ucd n)
                  else normalise ucd n) w
  | Finished _ _ (Raise _) => True
  end.

(** Cards are added and updated, never removed or renamed. *)
Definition keys_grow (w w' : World) : Prop :=
  exists extra, card_keys w' = card_keys w ++ extra.

(** What a call reports: the count of the card it returns, and whether it
    created the card. *)
Definition tally (r : HealthCondition.t * bool) : Z * bool :=
  (HealthCondition.log_count (fst r), snd r).

(** [k] reports of calls that found the card, the count [j] before them. *)
Fixpoint recurrences (j : Z) (k : nat) : list (Z * bool) :=
  match k with
  | O => []
  | S k' => ((j + 1)%Z, false) :: recurrences (j + 1)%Z k'
  end.

(** A database with nothing in it, on a server that stays up. *)
Definition empty_world : World :=
  {| health_conditions := []; condition_logs := []; mascot_memory := [];
     next_oid := 1; clock := 0; outage := None |}.

(** A computation leaves a part of the world as it is, however it ends. *)
Definition preserves {A X} (f : World -> X) (c : M A) : Prop :=
  forall w r w', c w = (r, w') -> f w' = f w.

(** A computation that raises has left a part of the world as it was. *)
Definition preserves_on_raise {A X} (f : World -> X) (c : M A) : Prop :=
  forall w e w', c w = (Raise e, w') -> f w' = f w.

(** The exceptions of a computation all satisfy [P]. *)
Definition raises_only {A} (P : PyExc -> Prop) (c : M A) : Prop :=
  forall w e w', c w = (Raise e, w') -> P e.

Definition is_library_error (e : PyExc) : Prop :=
  exists cls, e = LibraryError cls /\ cls <> RuntimeError.

(** The memory collection after a call that only loaded the memory of
    [user_id]: as before, or with a blank memory for a user who had none. *)
Definition memory_loaded (user_id : ObjectId) (w w' : World) : Prop :=
  mascot_memory w' = mascot_memory w
  \/ (find (fun d => mm_user_id d =? user_id) (mascot_memory w) = None
      /\ exists d, mascot_memory w' = mascot_memory w ++ [d]
                   /\ mm_user_id d = user_id
                   /\ mm_summary_memory d = []).

(** ** Examples: answers of the oracle and stand-ins for the libraries *)

Definition quoted (s : string) : str := [34] ++ lit s ++ [34].

(** The oracle logs a headache. *)
Definition headache_answer : str :=
  lit "{" ++ quoted "action" ++ lit ": " ++ quoted "update_condition" ++ lit ", "
  ++ quoted "condition_name" ++ lit ": " ++ quoted "headache" ++ lit ", "
  ++ quoted "extracted_data" ++ lit ": {"
  ++ quoted "pain_level" ++ lit ": 6, "
  ++ quoted "location" ++ lit ": [" ++ quoted "front of head" ++ lit "], "
  ++ quoted "details" ++ lit ": " ++ quoted "throbbing" ++ lit ", "
  ++ quoted "timestamp" ++ lit ": " ++ [34; 34] ++ lit ", "
  ++ quoted "mascot_notes" ++ lit ": []}, "
  ++ quoted "mascot_response" ++ lit ": " ++ quoted "Noted." ++ lit "}".

Definition headache_object : dict :=
  [ (lit "action", JStr (lit "update_condition"));
    (lit "condition_name", JStr (lit "headache"));
    (lit "extracted_data",
      JDict [ (lit "pain_level", JInt 6);
              (lit "location", JList [JStr (lit "front of head")]);
              (lit "details", JStr (lit "throbbing"));
              (lit "timestamp", JStr []);
              (lit "mascot_notes", JList []) ]);
    (lit "mascot_response", JStr (lit "Noted.")) ].

(** The oracle asks for a log but names no condition. *)
Definition unnamed_answer : str :=
  lit "{" ++ quoted "action" ++ lit ": " ++ quoted "update_condition" ++ lit ", "
  ++ quoted "condition_name" ++ lit ": " ++ [34; 34] ++ lit ", "
  ++ quoted "extracted_data" ++ lit ": {"
  ++ quoted "pain_level" ++ lit ": 0, "
  ++ quoted "location" ++ lit ": [], "
  ++ quoted "details" ++ lit ": " ++ [34; 34] ++ lit ", "
  ++ quoted "timestamp" ++ lit ": " ++ [34; 34] ++ lit ", "
  ++ quoted "mascot_notes" ++ lit ": []}, "
  ++ quoted "mascot_response" ++ lit ": " ++ quoted "Tell me more." ++ lit "}".

Definition unnamed_object : dict :=
  [ (lit "action", JStr (lit "update_condition"));
    (lit "condition_name", JStr []);
    (lit "extracted_data",
      JDict [ (lit "pain_level", JInt 0);
              (lit "location", JList []);
              (lit "details", JStr []);
              (lit "timestamp", JStr []);
              (lit "mascot_notes", JList []) ]);
    (lit "mascot_response", JStr (lit "Tell me more.")) ].

(** [json.loads] on the two answers above; any other text used in the
    examples ("oops") is no JSON. *)
Definition example_loads (raw_text : str) : option json :=
  if str_eqb raw_text headache_answer then Some (JDict headache_object)
  else if str_eqb raw_text unnamed_answer then Some (JDict unnamed_object)
  else None.

(** An oracle whose response has the given [.text]. *)
Definition oracle_saying (text : option str) : GenerateRequest -> GeminiReply :=
  fun _ => Response text.

(** How the values of the examples are rendered in an f-string. *)
Definition example_py_str (v : json) : str :=
  match v with
  | JInt 6 => lit "6"
  | JList [JStr s] => lit "['" ++ s ++ lit "']"
  | _ => lit "?"
  end.

(** The prompt text has no bearing on the examples. *)
Definition blank_personality : str -> str -> str -> str -> str := fun _ _ _ _ => [].
Definition blank_json_rules : datetime -> str := fun _ => [].

(** [process_input] with the stand-ins, on text alone. *)
Definition example_run (oracle_text : option str) (user_id : ObjectId)
    (text : option str) (force_log : bool) : M dict :=
  process_input ucd_fragment example_loads (oracle_saying oracle_text)
    example_py_str blank_personality blank_json_rules
    user_id text None None force_log None
    None (lit "audio/webm") None (lit "image/jpeg").

(** The value a computation returned, [default] if it raised. *)
Definition value_of {A} (default : A) (o : Outcome A) : A :=
  match o with Ok a => a | Raise _ => default end.

(** The card object that [HealthCondition.from_dict] builds from a
    document. *)
Definition card_of_doc (ucd : UnicodeData) (d : HealthConditionDoc) : HealthCondition.t :=
  {| HealthCondition.id := Some (hc_id d);
     HealthCondition.user_id := hc_user_id d;
     HealthCondition.condition_name := normalise ucd (hc_condition_name d);
     HealthCondition.status := hc_status d;
     HealthCondition.log_count := hc_log_count d;
     HealthCondition.first_reported := hc_first_reported d;
     HealthCondition.last_reported := hc_last_reported d;
     HealthCondition.created_at := hc_created_at d;
     HealthCondition.updated_at := hc_updated_at d |}.

(** A list in descending order of [key]. *)
Definition descending {A} (key : A -> N) (l : list A) : Prop :=
  StronglySorted (fun a b => key b <= key a) l.

(** The memory document that [get_memory] finds for a user. *)
Definition memory_doc_of (user_id : ObjectId) (w : World) : option MascotMemoryDoc :=
  find (fun d => mm_user_id d =? user_id) (mascot_memory w).

(** The summary stored for a user, empty when there is no memory. *)
Definition summary_of (user_id : ObjectId) (w : World) : str :=
  match memory_doc_of user_id w with
  | Some d => mm_summary_memory d
  | None => []
  end.

(** The preferences stored for a user. *)
Definition preferences_of (user_id : ObjectId) (w : World) : option PersonaPreferences.t :=
  option_map (fun d => MascotMemory.persona_preferences (MascotMemory.from_dict d))
             (memory_doc_of user_id w).

(** The [_id]s of the memory documents are distinct, and the generator has
    not yet given out one of them. *)
Record memory_ok (w : World) : Prop := {
  mok_ids : NoDup (List.map mm_id (mascot_memory w));
  mok_fresh : Forall (fun i => i < next_oid w) (List.map mm_id (mascot_memory w))
}.

(** The logs of a user, as stored. *)
Definition logs_of (user_id : ObjectId) (w : World) : list ConditionLogDoc :=
  filter (fun d => cl_user_id d =? user_id) (condition_logs w).

(** The logs of everyone else. *)
Definition logs_of_others (user_id : ObjectId) (w : World) : list ConditionLogDoc :=
  filter (fun d => negb (cl_user_id d =? user_id)) (condition_logs w).

(** The cards of everyone but [user_id]. *)
Definition cards_of_others (user_id : ObjectId) (w : World) : list HealthConditionDoc :=
  filter (fun d => negb (hc_user_id d =? user_id)) (health_conditions w).

(** The oracle asks for a log, names no condition, and sends a [log_id] of
    its own. *)
Definition stray_answer : str :=
  lit "{" ++ quoted "action" ++ lit ": " ++ quoted "update_condition" ++ lit ", "
  ++ quoted "condition_name" ++ lit ": " ++ [34; 34] ++ lit ", "
  ++ quoted "extracted_data" ++ lit ": {}, "
  ++ quoted "mascot_response" ++ lit ": " ++ quoted "Tell me more." ++ lit ", "
  ++ quoted "log_id" ++ lit ": " ++ quoted "65f0c0ffee" ++ lit "}".

Definition stray_object : dict :=
  [ (lit "action", JStr (lit "update_condition"));
    (lit "condition_name", JStr []);
    (lit "extracted_data", JDict []);
    (lit "mascot_response", JStr (lit "Tell me more."));
    (lit "log_id", JStr (lit "65f0c0ffee")) ].

(** [json.loads] on that answer. *)
Definition stray_loads (raw_text : str) : option json :=
  if str_eqb raw_text stray_answer then Some (JDict stray_object) else None.

(** What stands for the memory that a call returns when the call has
    raised. *)
Definition no_memory : MascotMemory.t :=
  MascotMemory.from_dict
    {| mm_id := 0; mm_user_id := 0; mm_tone := []; mm_name_used := [];
       mm_mascot_name := []; mm_summary_memory := [];
       mm_created_at := 0; mm_updated_at := 0 |}.

(** The oracle logs a headache whose details are a lone surrogate, written
    in the answer as the escape that [json.loads] turns into one. *)
Definition surrogate_answer : str :=
  lit "{" ++ quoted "action" ++ lit ": " ++ quoted "update_condition" ++ lit ", "
  ++ quoted "condition_name" ++ lit ": " ++ quoted "headache" ++ lit ", "
  ++ quoted "extracted_data" ++ lit ": {"
  ++ quoted "details" ++ lit ": " ++ [34; 92] ++ lit "ud800" ++ [34] ++ lit "}, "
  ++ quoted "mascot_response" ++ lit ": " ++ quoted "Noted." ++ lit "}".

Definition surrogate_object : dict :=
  [ (lit "action", JStr (lit "update_condition"));
    (lit "condition_name", JStr (lit "headache"));
    (lit "extracted_data", JDict [ (lit "details", JStr [55296]) ]);
    (lit "mascot_response", JStr (lit "Noted.")) ].

(** [json.loads] on that answer. *)
Definition surrogate_loads (raw_text : str) : option json :=
  if str_eqb raw_text surrogate_answer then Some (JDict surrogate_object) else None.

(** The call that a task serves, and how far it has got. *)
Definition call_of (t : Task) : ObjectId * str :=
  match t with
  | Called u n | Looked u n _ | Finished u n _ => (u, n)
  end.

Definition stage (t : Task) : nat :=
  match t with
  | Called _ _ => 0
  | Looked _ _ _ => 1
  | Finished _ _ _ => 2
  end.

(** A call has returned, or the index has refused its insert. *)
Definition returned_or_refused (r : Outcome (HealthCondition.t * bool)) : Prop :=
  (exists c, r = Ok c) \/ r = Raise (LibraryError DuplicateKeyError).

(** What is known of a call that the index has refused: the card that was
    in its way is stored. *)
Definition refused_by_a_card (ucd : UnicodeData) (w : World) (t : Task) : Prop :=
  match t with
  | Finished u n (Raise (LibraryError DuplicateKeyError)) =>
      has_card u (normalise ucd (normalise ucd n)) w
  | _ => True
  end.

(** With the server up, a call ends in no other way. *)
Definition ended_well (t : Task) : Prop :=
  match t with
  | Finished _ _ r => returned_or_refused r
  | _ => True
  end.

(* ================================================================== *)
(** * Strings: equality and normalisation *)
(* ================================================================== *)

Arguments normalise : simpl never.

Lemma str_eqb_eq a b : str_eqb a b = true <-> a = b.
Proof.
  unfold str_eqb. destruct (str_eq_dec a b); split; congruence.
Qed.

Lemma str_eqb_refl a : str_eqb a a = true.
Proof. now apply str_eqb_eq. Qed.

Lemma str_eqb_neq a b : str_eqb a b = false <-> a <> b.
Proof.
  unfold str_eqb. destruct (str_eq_dec a b); split; congruence.
Qed.

Ltac ascii_split_var :=
  match goal with
  | |- context [?a <=? ?b] =>
      first [is_var a | is_var b];
      let E := fresh "E" in destruct (N.leb_spec a b) as [E|E]; simpl
  end.

Ltac ascii_split_any :=
  match goal with
  | |- context [?a <=? ?b] =>
      let E := fresh "E" in destruct (N.leb_spec a b) as [E|E]; simpl
  end.

Ltac ascii_cases :=
  unfold ascii_isalpha, ascii_toupper, ascii_tolower, ascii_isspace,
         ascii_isupper, ascii_islower in *;
  repeat ascii_split_var; repeat ascii_split_any;
  try reflexivity; try lia.

Lemma ascii_isalpha_toupper c : ascii_isalpha (ascii_toupper c) = ascii_isalpha c.
Proof. ascii_cases. Qed.

Lemma ascii_isalpha_tolower c : ascii_isalpha (ascii_tolower c) = ascii_isalpha c.
Proof. ascii_cases. Qed.

Lemma ascii_toupper_idem c : ascii_toupper (ascii_toupper c) = ascii_toupper c.
Proof. ascii_cases. Qed.

Lemma ascii_tolower_idem c : ascii_tolower (ascii_tolower c) = ascii_tolower c.
Proof. ascii_cases. Qed.

Lemma ascii_isspace_toupper c : ascii_isspace (ascii_toupper c) = ascii_isspace c.
Proof. ascii_cases. Qed.

Lemma ascii_isspace_tolower c : ascii_isspace (ascii_tolower c) = ascii_isspace c.
Proof. ascii_cases. Qed.

Lemma ascii_toupper_lt c : c < 128 -> ascii_toupper c < 128.
Proof. intros H. ascii_cases. Qed.

Lemma ascii_tolower_lt c : c < 128 -> ascii_tolower c < 128.
Proof. intros H. ascii_cases. Qed.

Lemma is_ascii_Forall s : is_ascii s = true <-> Forall (fun c => c < 128) s.
Proof.
  unfold is_ascii. rewrite forallb_forall, Forall_forall.
  split; intros H c Hc; specialize (H c Hc); now apply N.ltb_lt.
Qed.

Lemma lstrip_suffix ucd s : exists p, s = p ++ lstrip ucd s.
Proof.
  induction s as [|c r [p IH]]; simpl.
  - now exists [].
  - destruct (is_space ucd c).
    + exists (c :: p). simpl. now f_equal.
    + now exists [].
Qed.

Lemma lstrip_Forall ucd (P : N -> Prop) s : Forall P s -> Forall P (lstrip ucd s).
Proof.
  intros H. destruct (lstrip_suffix ucd s) as [p E].
  rewrite E in H. now apply Forall_app in H.
Qed.

Lemma py_strip_Forall ucd (P : N -> Prop) s : Forall P s -> Forall P (py_strip ucd s).
Proof.
  intros H. unfold py_strip, rstrip.
  apply Forall_rev, lstrip_Forall, Forall_rev, lstrip_Forall, H.
Qed.

Lemma lstrip_ascii ucd s :
  ascii_rules ucd -> Forall (fun c => c < 128) s -> lstrip ucd s = ascii_lstrip s.
Proof.
  intros R. induction 1 as [|c r Hc Hr IH]; simpl; [reflexivity|].
  rewrite (ar_space ucd R) by assumption. now rewrite IH.
Qed.

Lemma py_strip_ascii ucd s :
  ascii_rules ucd -> Forall (fun c => c < 128) s -> py_strip ucd s = ascii_strip s.
Proof.
  intros R H. unfold py_strip, rstrip, ascii_strip.
  rewrite (lstrip_ascii ucd s R H).
  rewrite (lstrip_ascii ucd (rev (ascii_lstrip s))); [reflexivity|assumption|].
  apply Forall_rev. rewrite <- (lstrip_ascii ucd s R H). now apply lstrip_Forall.
Qed.

Lemma do_title_ascii ucd s :
  ascii_rules ucd -> Forall (fun c => c < 128) s ->
  forall before p, do_title ucd before p s = ascii_title p s.
Proof.
  intros R. induction 1 as [|c r Hc Hr IH]; intros before p; simpl; [reflexivity|].
  rewrite IH, (ar_cased ucd R) by assumption.
  unfold lower_ucs4.
  replace (c =? 931) with false by (symmetry; apply N.eqb_neq; lia).
  rewrite (ar_title ucd R), (ar_lower ucd R) by assumption.
  now destruct p.
Qed.

Lemma ascii_title_Forall p s :
  Forall (fun c => c < 128) s -> Forall (fun c => c < 128) (ascii_title p s).
Proof.
  intros H. revert p. induction H as [|c r Hc Hr IH]; intros p; simpl; constructor.
  - destruct p; [now apply ascii_tolower_lt | now apply ascii_toupper_lt].
  - apply IH.
Qed.

Lemma ascii_title_idem s : forall p, ascii_title p (ascii_title p s) = ascii_title p s.
Proof.
  induction s as [|c r IH]; intros p; simpl; [reflexivity|].
  destruct p.
  - now rewrite ascii_tolower_idem, ascii_isalpha_tolower, IH.
  - now rewrite ascii_toupper_idem, ascii_isalpha_toupper, IH.
Qed.

Lemma ascii_title_same_spaces s : forall p, same_spaces s (ascii_title p s).
Proof.
  induction s as [|c r IH]; intros p; simpl; constructor.
  - destruct p; [now rewrite ascii_isspace_tolower | now rewrite ascii_isspace_toupper].
  - apply IH.
Qed.

Lemma same_spaces_rev s t : same_spaces s t -> same_spaces (rev s) (rev t).
Proof.
  induction 1 as [|a b s t Hab Hst IH]; simpl; [constructor|].
  apply Forall2_app; [exact IH | now repeat constructor].
Qed.

Lemma ascii_lstrip_fixed s t :
  same_spaces s t -> ascii_lstrip s = s -> ascii_lstrip t = t.
Proof.
  intros H. destruct H as [|a b s t Hab Hst]; simpl; [reflexivity|].
  rewrite <- Hab. destruct (ascii_isspace a); [|reflexivity].
  intros E. exfalso.
  assert (L : forall l, (List.length (ascii_lstrip l) <= List.length l)%nat).
  { induction l as [|x l IHl]; simpl; [lia|].
    destruct (ascii_isspace x); simpl; lia. }
  specialize (L s). rewrite E in L. simpl in L. lia.
Qed.

Lemma ascii_lstrip_idem s : ascii_lstrip (ascii_lstrip s) = ascii_lstrip s.
Proof.
  induction s as [|c r IH]; simpl; [reflexivity|].
  destruct (ascii_isspace c) eqn:E; [exact IH|]. simpl. now rewrite E.
Qed.

Lemma ascii_lstrip_suffix s : exists p, s = p ++ ascii_lstrip s /\ forallb ascii_isspace p = true.
Proof.
  induction s as [|c r [p [IH1 IH2]]]; simpl.
  - now exists [].
  - destruct (ascii_isspace c) eqn:E.
    + exists (c :: p). simpl. rewrite E, IH2. split; [now f_equal | reflexivity].
    + now exists [].
Qed.

Lemma ascii_lstrip_head s :
  ascii_lstrip s = s <-> match s with [] => True | c :: _ => ascii_isspace c = false end.
Proof.
  destruct s as [|c r]; simpl; [tauto|].
  destruct (ascii_isspace c) eqn:E; split; try congruence; try tauto.
  intros H. exfalso.
  destruct (ascii_lstrip_suffix r) as [p [Hp _]].
  rewrite H in Hp. apply (f_equal (@List.length N)) in Hp.
  rewrite length_app in Hp. simpl in Hp. lia.
Qed.

Lemma ascii_strip_is_stripped s : is_stripped (ascii_strip s).
Proof.
  unfold is_stripped, ascii_strip.
  rewrite rev_involutive, ascii_lstrip_idem. split; [|reflexivity].
  set (u := ascii_lstrip s).
  assert (Hu : ascii_lstrip u = u) by apply ascii_lstrip_idem.
  apply ascii_lstrip_head.
  destruct (ascii_lstrip_suffix (rev u)) as [p [Hp Hsp]].
  set (v := ascii_lstrip (rev u)) in *.
  destruct (rev v) as [|c r] eqn:Ev; [exact I|].
  (* u = rev v ++ rev p, so the head of rev v is the head of u *)
  assert (Eu : u = rev v ++ rev p).
  { rewrite <- (rev_involutive u), Hp. apply rev_app_distr. }
  rewrite Ev in Eu. simpl in Eu.
  apply ascii_lstrip_head in Hu. rewrite Eu in Hu. exact Hu.
Qed.

Lemma same_spaces_stripped s t : same_spaces s t -> is_stripped s -> is_stripped t.
Proof.
  intros H [H1 H2]. split.
  - exact (ascii_lstrip_fixed _ _ H H1).
  - exact (ascii_lstrip_fixed _ _ (same_spaces_rev _ _ H) H2).
Qed.

Lemma ascii_strip_stripped s : is_stripped s -> ascii_strip s = s.
Proof.
  intros [H1 H2]. unfold ascii_strip. rewrite H1, H2. apply rev_involutive.
Qed.

Lemma normalise_ascii ucd s :
  ascii_rules ucd -> is_ascii s = true ->
  normalise ucd s = ascii_title false (ascii_strip s).
Proof.
  intros R H. apply is_ascii_Forall in H. unfold normalise, py_title.
  rewrite do_title_ascii; [|assumption|now apply py_strip_Forall].
  now rewrite (py_strip_ascii ucd s R H).
Qed.

Lemma normalise_is_ascii ucd s :
  ascii_rules ucd -> is_ascii s = true -> is_ascii (normalise ucd s) = true.
Proof.
  intros R H. rewrite (normalise_ascii ucd s R H). apply is_ascii_Forall.
  apply ascii_title_Forall. apply is_ascii_Forall in H.
  rewrite <- (py_strip_ascii ucd s R H). now apply py_strip_Forall.
Qed.

Lemma normalise_idempotent_on_ascii ucd s :
  ascii_rules ucd -> is_ascii s = true ->
  normalise ucd (normalise ucd s) = normalise ucd s.
Proof.
  intros R H.
  rewrite (normalise_ascii ucd _ R (normalise_is_ascii ucd s R H)).
  rewrite (normalise_ascii ucd s R H).
  rewrite ascii_strip_stripped.
  - apply ascii_title_idem.
  - eapply same_spaces_stripped; [apply ascii_title_same_spaces|].
    apply ascii_strip_is_stripped.
Qed.

Lemma ucd_fragment_ascii_rules : ascii_rules ucd_fragment.
Proof.
  split; intros c Hc; simpl;
    replace (c <? 128) with true by (symmetry; now apply N.ltb_lt); reflexivity.
Qed.

(** X25.  On condition names made of ASCII characters the normalisation
    [strip().title()] is idempotent, and "headache", "Headache" and
    "HEADACHE" all normalise to "Headache"; this holds for every character
    database that has the Unicode rows of the ASCII range. *)
Theorem normalise_idempotent_ascii (ucd : UnicodeData) (s : str) :
  ascii_rules ucd ->
  is_ascii s = true ->
  normalise ucd (normalise ucd s) = normalise ucd s
  /\ normalise ucd (lit "headache") = lit "Headache"
  /\ normalise ucd (lit "Headache") = lit "Headache"
  /\ normalise ucd (lit "HEADACHE") = lit "Headache".
Proof.
  intros R H. split; [now apply normalise_idempotent_on_ascii|].
  repeat split; rewrite (normalise_ascii ucd _ R) by reflexivity; reflexivity.
Qed.

Lemma normalise_idempotent_ascii_witness :
  normalise ucd_fragment (normalise ucd_fragment (lit "  skin RASH "))
  = normalise ucd_fragment (lit "  skin RASH ")
  /\ normalise ucd_fragment (lit "headache") = lit "Headache"
  /\ normalise ucd_fragment (lit "Headache") = lit "Headache"
  /\ normalise ucd_fragment (lit "HEADACHE") = lit "Headache".
Proof.
  apply (normalise_idempotent_ascii ucd_fragment (lit "  skin RASH ")).
  - split; intros c Hc; simpl;
      replace (c <? 128) with true by (symmetry; now apply N.ltb_lt); reflexivity.
  - reflexivity.
Defined.

(** Outside ASCII the normalisation need not be idempotent: "a", U+0130,
    "b" normalises to "A", "i", U+0307, "b", and that normalises to "A", "i",
    U+0307, "B": the combining dot that lower-casing U+0130 leaves behind is
    not cased, so the letter after it is title-cased the second time. *)
Lemma normalise_not_idempotent :
  normalise ucd_fragment [97; 304; 98] = [65; 105; 775; 98]
  /\ normalise ucd_fragment (normalise ucd_fragment [97; 304; 98]) = [65; 105; 775; 66]
  /\ normalise ucd_fragment (normalise ucd_fragment [97; 304; 98])
     <> normalise ucd_fragment [97; 304; 98].
Proof.
  repeat split; try reflexivity. vm_compute. discriminate.
Qed.

(** C6, the code at the failing input.  [find_or_create] normalises the
    name for the lookup, and [HealthCondition.__init__] normalises the
    result once more for the card.  On "a", U+0130, "b" the two differ: the
    first report stores its card under the second name, no card is stored
    under the name that is looked up, and the second report of the same
    condition finds nothing and is refused by the index. *)
Theorem renormalised_name_is_another_name :
  let s := [97; 304; 98] in
  let once := normalise ucd_fragment s in
  let twice := normalise ucd_fragment once in
  once = [65; 105; 775; 98]
  /\ twice = [65; 105; 775; 66]
  /\ twice <> once
  /\ exists card w1,
       find_or_create ucd_fragment 7 s empty_world = (Ok (card, true), w1)
       /\ HealthCondition.condition_name card = twice
       /\ List.map hc_condition_name (health_conditions w1) = [twice]
       /\ cards_for 7 once w1 = 0%nat
       /\ exists w2,
            find_or_create ucd_fragment 7 s w1
            = (Raise (LibraryError DuplicateKeyError), w2)
            /\ health_conditions w2 = health_conditions w1.
Proof.
  split; [reflexivity|]. split; [reflexivity|].
  split; [vm_compute; discriminate|].
  do 2 eexists. split; [vm_compute; reflexivity|].
  split; [reflexivity|]. split; [reflexivity|]. split; [reflexivity|].
  eexists. split; [vm_compute; reflexivity | reflexivity].
Qed.

(* ================================================================== *)
(** * The card store *)
(* ================================================================== *)

Lemma matches_key_spec u name d :
  matches_key u name d = true <-> card_key d = (u, name).
Proof.
  unfold matches_key, card_key. rewrite andb_true_iff, N.eqb_eq, str_eqb_eq.
  split; [intros [-> ->]; reflexivity | intros H; inversion H; auto].
Qed.

Lemma existsb_matches_key u name l :
  existsb (matches_key u name) l = true <-> In (u, name) (List.map card_key l).
Proof.
  rewrite existsb_exists, in_map_iff. split.
  - intros [d [Hd Hm]]. exists d. split; [now apply matches_key_spec | exact Hd].
  - intros [d [Hk Hd]]. exists d. split; [exact Hd | now apply matches_key_spec].
Qed.

Lemma find_matches_key_none u name l :
  find (matches_key u name) l = None <-> ~ In (u, name) (List.map card_key l).
Proof.
  rewrite <- existsb_matches_key. split.
  - intros F E. apply existsb_exists in E. destruct E as [d [Hd Hm]].
    pose proof (find_none _ _ F d Hd). congruence.
  - intros E. destruct (find (matches_key u name) l) as [d|] eqn:F; [|reflexivity].
    exfalso. apply E. apply existsb_exists. exists d.
    apply find_some in F. exact F.
Qed.

Lemma map_inj_on_NoDup {A B} (f : A -> B) l a b :
  NoDup (List.map f l) -> In a l -> In b l -> f a = f b -> a = b.
Proof.
  induction l as [|x r IH]; simpl; [tauto|].
  intros N Ha Hb E. inversion N as [|? ? Hx Hr]; subst.
  destruct Ha as [->|Ha], Hb as [->|Hb]; auto.
  - exfalso. apply Hx. rewrite E. now apply in_map.
  - exfalso. apply Hx. rewrite <- E. now apply in_map.
Qed.

Lemma find_unique_key u name l d :
  NoDup (List.map card_key l) -> In d l -> card_key d = (u, name) ->
  find (matches_key u name) l = Some d.
Proof.
  intros N Hd Hk.
  destruct (find (matches_key u name) l) as [d'|] eqn:F.
  - apply find_some in F. destruct F as [Hd' Hm]. apply matches_key_spec in Hm.
    f_equal. apply (map_inj_on_NoDup card_key l); congruence.
  - apply find_matches_key_none in F. exfalso. apply F.
    rewrite <- Hk. now apply in_map.
Qed.

Lemma filter_matches_key_none u name l :
  ~ In (u, name) (List.map card_key l) <-> filter (matches_key u name) l = [].
Proof.
  induction l as [|d r IH]; simpl; [tauto|].
  destruct (matches_key u name d) eqn:M.
  - apply matches_key_spec in M. split; [intros H; exfalso; auto | discriminate].
  - rewrite <- IH. split; [tauto|]. intros H [E|E]; [|tauto].
    apply matches_key_spec in E. congruence.
Qed.

Lemma cards_for_zero u name w :
  cards_for u name w = 0%nat <-> ~ In (u, name) (card_keys w).
Proof.
  unfold cards_for, card_keys. rewrite filter_matches_key_none.
  apply length_zero_iff_nil.
Qed.

Lemma cards_for_one u name w :
  unique_index w -> In (u, name) (card_keys w) -> cards_for u name w = 1%nat.
Proof.
  unfold unique_index, cards_for, card_keys.
  induction (health_conditions w) as [|d r IH]; simpl; [tauto|].
  intros N H. inversion N as [|? ? Hx Hr]; subst.
  destruct (matches_key u name d) eqn:M.
  - apply matches_key_spec in M. rewrite M in Hx.
    apply filter_matches_key_none in Hx. simpl. now rewrite Hx.
  - destruct H as [E|H]; [|now apply IH].
    apply matches_key_spec in E. congruence.
Qed.

(** ** [update_one] keeps the keys and the ids *)

Lemma update_first_map {A B} (g : A -> B) p f (l : list A) :
  (forall x, g (f x) = g x) ->
  List.map g (update_first p f l) = List.map g l.
Proof.
  intros H. induction l as [|x r IH]; simpl; [reflexivity|].
  destruct (p x); simpl; [now rewrite H | now rewrite IH].
Qed.

Lemma update_first_length {A} p f (l : list A) :
  List.length (update_first p f l) = List.length l.
Proof.
  induction l as [|x r IH]; simpl; [reflexivity|].
  destruct (p x); simpl; [reflexivity | now rewrite IH].
Qed.

Lemma update_first_In_id f l d :
  NoDup (List.map hc_id l) -> In d l ->
  In (f d) (update_first (fun x => hc_id x =? hc_id d) f l).
Proof.
  induction l as [|x r IH]; simpl; [tauto|].
  intros N [->|Hd].
  - rewrite N.eqb_refl. now left.
  - inversion N as [|? ? Hx Hr]; subst.
    destruct (hc_id x =? hc_id d) eqn:E.
    + apply N.eqb_eq in E. exfalso. apply Hx. rewrite E. now apply in_map.
    + right. now apply IH.
Qed.

(** ** The two halves of [find_or_create] *)

Lemma lookup_spec ucd u n w r w' :
  find_or_create_lookup ucd u n w = (r, w') ->
  health_conditions w' = health_conditions w
  /\ next_oid w' = next_oid w
  /\ same_rest w w'
  /\ match r with
     | Ok l => lk_normalised l = normalise ucd n
               /\ lk_doc l = find (matches_key u (normalise ucd n)) (health_conditions w)
     | Raise e => e = LibraryError ConnectionFailure
     end.
Proof.
  destruct w as [hc cl mm oid clk out].
  unfold find_or_create_lookup, hc_find_one, bind, same_rest. cbn.
  destruct out as [[|k]|]; cbn; intros H; inversion H; subst; cbn; auto.
Qed.

Lemma write_found_spec ucd u l d w r w' :
  lk_doc l = Some d ->
  find_or_create_write ucd u l w = (r, w') ->
  next_oid w' = next_oid w
  /\ same_rest w w'
  /\ match r with
     | Ok (card, is_new) =>
         is_new = false
         /\ HealthCondition.id card = Some (hc_id d)
         /\ HealthCondition.user_id card = hc_user_id d
         /\ HealthCondition.log_count card = (hc_log_count d + 1)%Z
         /\ HealthCondition.status card = ACTIVE
         /\ health_conditions w'
            = update_first (fun x => hc_id x =? hc_id d) (set_after_log card)
                           (health_conditions w)
     | Raise e => e = LibraryError ConnectionFailure
                  /\ health_conditions w' = health_conditions w
     end.
Proof.
  intros L. destruct w as [hc cl mm oid clk out].
  unfold find_or_create_write, hc_update_one, bind, same_rest. rewrite L. cbn.
  destruct (hc_status d); cbn;
    destruct out as [[|k]|]; cbn; intros H; inversion H; subst; cbn; auto 10.
Qed.

Lemma write_missing_spec ucd u l w r w' :
  lk_doc l = None ->
  find_or_create_write ucd u l w = (r, w') ->
  same_rest w w'
  /\ match r with
     | Ok (card, is_new) =>
         is_new = true
         /\ HealthCondition.id card = Some (next_oid w)
         /\ HealthCondition.user_id card = u
         /\ HealthCondition.condition_name card = normalise ucd (lk_normalised l)
         /\ HealthCondition.log_count card = 1%Z
         /\ HealthCondition.status card = ACTIVE
         /\ existsb (matches_key u (normalise ucd (lk_normalised l)))
                    (health_conditions w) = false
         /\ health_conditions w'
            = health_conditions w ++ [HealthCondition.to_dict card (next_oid w)]
         /\ next_oid w' = N.succ (next_oid w)
     | Raise e =>
         health_conditions w' = health_conditions w
         /\ (e = LibraryError ConnectionFailure
             \/ (e = LibraryError DuplicateKeyError
                 /\ existsb (matches_key u (normalise ucd (lk_normalised l)))
                            (health_conditions w) = true))
     end.
Proof.
  intros L. destruct w as [hc cl mm oid clk out].
  unfold find_or_create_write, hc_insert_one, bind, same_rest. rewrite L. cbn.
  destruct out as [[|k]|]; cbn;
    try (intros H; inversion H; subst; cbn; now auto);
    destruct (existsb _ hc) eqn:E; cbn;
    intros H; inversion H; subst; cbn; auto 15.
Qed.

Lemma lookup_up ucd u n w :
  outage w = None ->
  exists l w', find_or_create_lookup ucd u n w = (Ok l, w') /\ outage w' = None.
Proof.
  destruct w as [hc cl mm oid clk out]. cbn. intros ->.
  unfold find_or_create_lookup, hc_find_one, bind. cbn.
  do 2 eexists; split; reflexivity.
Qed.

Lemma write_found_up ucd u l d w :
  lk_doc l = Some d -> outage w = None ->
  exists r w', find_or_create_write ucd u l w = (Ok r, w') /\ outage w' = None.
Proof.
  intros L. destruct w as [hc cl mm oid clk out]. cbn. intros ->.
  unfold find_or_create_write, hc_update_one, bind. rewrite L. cbn.
  destruct (hc_status d); cbn; do 2 eexists; split; reflexivity.
Qed.

Lemma write_missing_up ucd u l w :
  lk_doc l = None -> outage w = None ->
  existsb (matches_key u (normalise ucd (lk_normalised l))) (health_conditions w) = false ->
  exists r w', find_or_create_write ucd u l w = (Ok r, w') /\ outage w' = None.
Proof.
  intros L. destruct w as [hc cl mm oid clk out]. cbn. intros -> E.
  unfold find_or_create_write, hc_insert_one, bind. rewrite L. cbn.
  rewrite E. cbn. do 2 eexists; split; reflexivity.
Qed.

Lemma write_conflict ucd u l w :
  lk_doc l = None -> outage w <> Some O ->
  existsb (matches_key u (normalise ucd (lk_normalised l))) (health_conditions w) = true ->
  exists w', find_or_create_write ucd u l w = (Raise (LibraryError DuplicateKeyError), w')
             /\ health_conditions w' = health_conditions w.
Proof.
  intros L. destruct w as [hc cl mm oid clk out]. cbn. intros O E.
  unfold find_or_create_write, hc_insert_one, bind. rewrite L. cbn.
  destruct out as [[|k]|]; [congruence| |]; cbn; rewrite E; cbn; eexists; split; reflexivity.
Qed.

Lemma find_or_create_unfold ucd u n w :
  find_or_create ucd u n w
  = match find_or_create_lookup ucd u n w with
    | (Ok l, w1) => find_or_create_write ucd u l w1
    | (Raise e, w1) => (Raise e, w1)
    end.
Proof. reflexivity. Qed.

(** ** Calls in flight: what every schedule preserves *)

Lemma keys_grow_refl w : keys_grow w w.
Proof. exists []. now rewrite app_nil_r. Qed.

Lemma keys_grow_same w w' : card_keys w' = card_keys w -> keys_grow w w'.
Proof. intros E. exists []. now rewrite app_nil_r. Qed.

Lemma keys_grow_trans w1 w2 w3 : keys_grow w1 w2 -> keys_grow w2 w3 -> keys_grow w1 w3.
Proof.
  intros [a Ha] [b Hb]. exists (a ++ b). now rewrite Hb, Ha, app_assoc.
Qed.

Lemma has_card_grow u name w w' : keys_grow w w' -> has_card u name w -> has_card u name w'.
Proof.
  unfold has_card. intros [extra ->] H. apply in_or_app. now left.
Qed.

Lemma task_inv_grow ucd w w' t : keys_grow w w' -> task_inv ucd w t -> task_inv ucd w' t.
Proof.
  intros G. destruct t as [u n|u n l|u n [[card is_new]|e]]; simpl; auto.
  - intros [H1 H2]. split; [exact H1|]. intros H. eapply has_card_grow; eauto.
  - now apply has_card_grow.
Qed.

Lemma set_after_log_key card d : card_key (set_after_log card d) = card_key d.
Proof. reflexivity. Qed.

Lemma set_after_log_id card d : hc_id (set_after_log card d) = hc_id d.
Proof. reflexivity. Qed.

Lemma step_task_inv ucd t w t' w' :
  unique_index w -> task_inv ucd w t ->
  step_task ucd t w = (t', w') ->
  unique_index w' /\ keys_grow w w' /\ task_inv ucd w' t'.
Proof.
  intros U I. destruct t as [u n|u n l|u n r]; simpl.
  - destruct (find_or_create_lookup ucd u n w) as [r w1] eqn:E.
    apply lookup_spec in E. destruct E as [Hc [_ [_ Hr]]].
    assert (K : card_keys w1 = card_keys w) by (unfold card_keys; now rewrite Hc).
    destruct r as [l|e]; intros H; inversion H; subst; clear H;
      (split; [unfold unique_index; now rewrite K|]);
      (split; [now apply keys_grow_same|]); simpl; [|exact I].
    destruct Hr as [Hn Hd]. split; [exact Hn|]. intros Hne.
    unfold has_card. rewrite K.
    apply existsb_matches_key. apply existsb_exists.
    destruct (lk_doc l) as [d|]; [|congruence].
    symmetry in Hd. apply find_some in Hd. exists d. exact Hd.
  - destruct (find_or_create_write ucd u l w) as [r w1] eqn:E.
    intros H; inversion H; subst; clear H.
    destruct I as [Hn Hd].
    destruct (lk_doc l) as [d|] eqn:L.
    + apply (write_found_spec ucd u l d) in E; [|exact L].
      destruct E as [_ [_ Hr]].
      assert (K : card_keys w' = card_keys w).
      { unfold card_keys. destruct r as [[card is_new]|e].
        - destruct Hr as [_ [_ [_ [_ [_ ->]]]]].
          apply update_first_map, set_after_log_key.
        - destruct Hr as [_ ->]. reflexivity. }
      split; [unfold unique_index; now rewrite K|].
      split; [now apply keys_grow_same|].
      destruct r as [[card is_new]|e]; simpl; [|exact I].
      destruct Hr as [-> _]. unfold has_card. rewrite K. apply Hd. congruence.
    + apply (write_missing_spec ucd u l) in E; [|exact L].
      destruct E as [_ Hr].
      destruct r as [[card is_new]|e].
      * destruct Hr as [-> [_ [Hu [Hname [_ [_ [Hex [Hcards _]]]]]]]].
        assert (K : card_keys w' = card_keys w ++ [(u, normalise ucd (normalise ucd n))]).
        { unfold card_keys. rewrite Hcards, map_app. simpl. unfold card_key at 2.
          simpl. now rewrite Hu, Hname, Hn. }
        split.
        { unfold unique_index. rewrite K. apply NoDup_app; [exact U| |].
          - constructor; [simpl; tauto | constructor].
          - intros x Hx [<-|[]]. rewrite Hn in Hex.
            apply existsb_matches_key in Hx. unfold card_keys in Hx. congruence. }
        split; [now exists [(u, normalise ucd (normalise ucd n))]|].
        simpl. unfold has_card. rewrite K. apply in_or_app. right. now left.
      * destruct Hr as [Hcards _].
        assert (K : card_keys w' = card_keys w) by (unfold card_keys; now rewrite Hcards).
        split; [unfold unique_index; now rewrite K|].
        split; [now apply keys_grow_same | exact I].
  - intros H; inversion H; subst. split; [exact U|]. split; [apply keys_grow_refl | exact I].
Qed.

Lemma step_at_inv ucd i : forall ts w ts' w',
  unique_index w -> Forall (task_inv ucd w) ts ->
  step_at ucd i ts w = (ts', w') ->
  unique_index w' /\ keys_grow w w' /\ Forall (task_inv ucd w') ts'.
Proof.
  induction i as [|j IH]; intros [|t r] w ts' w' U F; simpl;
    try (intros H; inversion H; subst; split; [exact U|];
         split; [apply keys_grow_refl | constructor]).
  - destruct (step_task ucd t w) as [t1 w1] eqn:E.
    intros H; inversion H; subst; clear H.
    inversion F as [|? ? Ht Hr]; subst.
    destruct (step_task_inv ucd t w t1 w' U Ht E) as [U' [G I']].
    split; [exact U'|]. split; [exact G|]. constructor; [exact I'|].
    eapply Forall_impl; [|exact Hr]. intros a. now apply task_inv_grow.
  - destruct (step_at ucd j r w) as [r1 w1] eqn:E.
    intros H; inversion H; subst; clear H.
    inversion F as [|? ? Ht Hr]; subst.
    destruct (IH r w r1 w' U Hr E) as [U' [G F']].
    split; [exact U'|]. split; [exact G|]. constructor; [|exact F'].
    now apply (task_inv_grow ucd w).
Qed.

Lemma run_inv ucd schedule : forall s,
  unique_index (world s) -> Forall (task_inv ucd (world s)) (tasks s) ->
  unique_index (world (run ucd schedule s))
  /\ keys_grow (world s) (world (run ucd schedule s))
  /\ Forall (task_inv ucd (world (run ucd schedule s))) (tasks (run ucd schedule s)).
Proof.
  induction schedule as [|i rest IH]; intros s U F.
  - simpl. split; [exact U|]. split; [apply keys_grow_refl | exact F].
  - change (run ucd (i :: rest) s) with (run ucd rest (schedule_one ucd s i)).
    destruct (step_at ucd i (tasks s) (world s)) as [ts w1] eqn:E.
    assert (S1 : schedule_one ucd s i = {| tasks := ts; world := w1 |})
      by (unfold schedule_one; now rewrite E).
    rewrite S1.
    destruct (step_at_inv ucd i _ _ _ _ U F E) as [U1 [G1 F1]].
    specialize (IH {| tasks := ts; world := w1 |} U1 F1).
    destruct IH as [U2 [G2 F2]].
    split; [exact U2|]. split; [|exact F2].
    eapply keys_grow_trans; [exact G1 | exact G2].
Qed.

Lemma issue_inv ucd calls w : Forall (task_inv ucd w) (tasks (issue calls w)).
Proof.
  simpl. apply Forall_forall. intros t Ht. apply in_map_iff in Ht.
  destruct Ht as [c [<- _]]. exact I.
Qed.


Lemma refused_by_a_card_grow ucd w w' t :
  keys_grow w w' -> refused_by_a_card ucd w t -> refused_by_a_card ucd w' t.
Proof.
  destruct t as [u n|u n l|u n [r|[cls msg cause|[]]]]; simpl; auto.
  intros G. now apply has_card_grow.
Qed.

(** A call that the index refuses leaves the card that was in its way. *)
Lemma step_task_refused ucd t w t' w' :
  task_inv ucd w t -> refused_by_a_card ucd w t ->
  step_task ucd t w = (t', w') ->
  refused_by_a_card ucd w' t'.
Proof.
  intros Inv R. destruct t as [u n|u n l|u n r]; simpl.
  - destruct (find_or_create_lookup ucd u n w) as [r w1] eqn:E.
    apply lookup_spec in E. destruct E as [_ [_ [_ Hr]]].
    destruct r as [l|e]; intros H; inversion H; subst; simpl; [exact I|].
    exact I.
  - destruct (find_or_create_write ucd u l w) as [r w1] eqn:E.
    intros H; inversion H; subst; clear H.
    destruct Inv as [Hn Hd].
    destruct (lk_doc l) as [d|] eqn:L.
    + apply (write_found_spec ucd u l d) in E; [|exact L].
      destruct E as [_ [_ Hr]].
      destruct r as [c|e]; simpl; [exact I|]. destruct Hr as [-> _]. exact I.
    + apply (write_missing_spec ucd u l) in E; [|exact L].
      destruct E as [_ Hr].
      destruct r as [c|e]; simpl; [exact I|].
      destruct Hr as [Hc [->|[-> X]]]; [exact I|].
      unfold has_card, card_keys. rewrite Hc, <- Hn. now apply existsb_matches_key.
  - intros H; inversion H; subst. exact R.
Qed.

Lemma step_at_refused ucd i : forall ts w ts' w',
  unique_index w ->
  Forall (task_inv ucd w) ts -> Forall (refused_by_a_card ucd w) ts ->
  step_at ucd i ts w = (ts', w') ->
  Forall (refused_by_a_card ucd w') ts'.
Proof.
  induction i as [|k IH]; intros [|t r] w ts' w' U F C; simpl;
    try (intros H; inversion H; subst; constructor).
  - destruct (step_task ucd t w) as [t1 w1] eqn:E.
    intros H; inversion H; subst; clear H.
    inversion F as [|? ? Ft Fr]; subst. inversion C as [|? ? Ct Cr]; subst.
    destruct (step_task_inv ucd t w t1 w' U Ft E) as [_ [G _]].
    constructor; [exact (step_task_refused ucd t w t1 w' Ft Ct E)|].
    eapply Forall_impl; [|exact Cr]. intros a. now apply refused_by_a_card_grow.
  - destruct (step_at ucd k r w) as [r1 w1] eqn:E.
    intros H; inversion H; subst; clear H.
    inversion F as [|? ? Ft Fr]; subst. inversion C as [|? ? Ct Cr]; subst.
    destruct (step_at_inv ucd k r w r1 w' U Fr E) as [_ [G _]].
    constructor; [now apply (refused_by_a_card_grow ucd w)|].
    exact (IH r w r1 w' U Fr Cr E).
Qed.

Lemma run_refused ucd schedule : forall s,
  unique_index (world s) ->
  Forall (task_inv ucd (world s)) (tasks s) ->
  Forall (refused_by_a_card ucd (world s)) (tasks s) ->
  Forall (refused_by_a_card ucd (world (run ucd schedule s))) (tasks (run ucd schedule s)).
Proof.
  induction schedule as [|i rest IH]; intros s U F C; [exact C|].
  change (run ucd (i :: rest) s) with (run ucd rest (schedule_one ucd s i)).
  destruct (step_at ucd i (tasks s) (world s)) as [ts w1] eqn:E.
  assert (S1 : schedule_one ucd s i = {| tasks := ts; world := w1 |})
    by (unfold schedule_one; now rewrite E).
  rewrite S1.
  destruct (step_at_inv ucd i _ _ _ _ U F E) as [U1 [_ F1]].
  apply IH; [exact U1 | exact F1 |].
  exact (step_at_refused ucd i _ _ _ _ U F C E).
Qed.

(** With the server up, a step takes a task one stage on, leaves the server
    up, and ends a call by a return or by a refusal of the index. *)
Lemma step_task_up ucd t w t' w' :
  outage w = None -> task_inv ucd w t -> ended_well t ->
  step_task ucd t w = (t', w') ->
  outage w' = None
  /\ call_of t' = call_of t
  /\ stage t' = Nat.min 2 (S (stage t))
  /\ ended_well t'.
Proof.
  intros O I W. destruct t as [u n|u n l|u n r]; simpl.
  - destruct (lookup_up ucd u n w O) as [l [w1 [E O1]]]. rewrite E.
    intros H; inversion H; subst. simpl. auto.
  - destruct (lk_doc l) as [d|] eqn:L.
    + destruct (write_found_up ucd u l d w L O) as [r [w1 [E O1]]]. rewrite E.
      intros H; inversion H; subst. simpl.
      repeat split; auto. left. now exists r.
    + destruct (existsb (matches_key u (normalise ucd (lk_normalised l)))
                        (health_conditions w)) eqn:X.
      * destruct (write_conflict ucd u l w L) as [w1 [E C]];
          [rewrite O; discriminate | exact X |].
        rewrite E. intros H; inversion H; subst. simpl.
        split.
        { destruct w as [hc cl mm oid clk out]. simpl in O. subst out.
          unfold find_or_create_write, hc_insert_one, bind in E. rewrite L in E.
          cbn in E. destruct (existsb _ hc); inversion E; reflexivity. }
        repeat split. now right.
      * destruct (write_missing_up ucd u l w L O X) as [r [w1 [E O1]]]. rewrite E.
        intros H; inversion H; subst. simpl.
        repeat split; auto. left. now exists r.
  - intros H; inversion H; subst. simpl. auto.
Qed.

Lemma step_at_up ucd i : forall ts w ts' w',
  outage w = None ->
  Forall (task_inv ucd w) ts -> Forall ended_well ts ->
  step_at ucd i ts w = (ts', w') ->
  outage w' = None
  /\ Forall ended_well ts'
  /\ (forall j, nth_error ts' j
                = if Nat.eqb j i
                  then option_map (fun t => fst (step_task ucd t w)) (nth_error ts j)
                  else nth_error ts j).
Proof.
  induction i as [|k IH]; intros [|t r] w ts' w' O F C; simpl.
  - intros H; inversion H; subst. split; [exact O|]. split; [constructor|].
    intros [|j]; reflexivity.
  - destruct (step_task ucd t w) as [t1 w1] eqn:E.
    intros H; inversion H; subst; clear H.
    inversion F as [|? ? Ft Fr]; subst. inversion C as [|? ? Ct Cr]; subst.
    destruct (step_task_up ucd t w t1 w' O Ft Ct E) as [O1 [_ [_ W1]]].
    split; [exact O1|]. split; [now constructor|].
    intros [|j]; simpl; [now rewrite E | reflexivity].
  - intros H; inversion H; subst. split; [exact O|]. split; [constructor|].
    intros [|j]; simpl; [reflexivity|]. now destruct (Nat.eqb j k).
  - destruct (step_at ucd k r w) as [r1 w1] eqn:E.
    intros H; inversion H; subst; clear H.
    inversion F as [|? ? Ft Fr]; subst. inversion C as [|? ? Ct Cr]; subst.
    destruct (IH r w r1 w' O Fr Cr E) as [O1 [W1 N1]].
    split; [exact O1|]. split; [now constructor|].
    intros [|j]; [reflexivity|]. simpl. apply N1.
Qed.

(** A run with the server up: each task has advanced by the number of times
    it was scheduled, and the calls that have ended have returned or were
    refused by the index. *)
Lemma run_up ucd schedule : forall s,
  outage (world s) = None -> unique_index (world s) ->
  Forall (task_inv ucd (world s)) (tasks s) ->
  Forall ended_well (tasks s) ->
  Forall ended_well (tasks (run ucd schedule s))
  /\ (forall i t, nth_error (tasks s) i = Some t ->
        exists t', nth_error (tasks (run ucd schedule s)) i = Some t'
                   /\ call_of t' = call_of t
                   /\ stage t' = Nat.min 2 (stage t + count_occ Nat.eq_dec schedule i)).
Proof.
  induction schedule as [|i rest IH]; intros s O U F C.
  - simpl. split; [exact C|]. intros i t H. exists t. split; [exact H|].
    split; [reflexivity|]. rewrite Nat.add_0_r. destruct t; reflexivity.
  - change (run ucd (i :: rest) s) with (run ucd rest (schedule_one ucd s i)).
    destruct (step_at ucd i (tasks s) (world s)) as [ts w1] eqn:E.
    assert (S1 : schedule_one ucd s i = {| tasks := ts; world := w1 |})
      by (unfold schedule_one; now rewrite E).
    rewrite S1.
    destruct (step_at_inv ucd i _ _ _ _ U F E) as [U1 [_ F1]].
    destruct (step_at_up ucd i _ _ _ _ O F C E) as [O1 [W1 N1]].
    destruct (IH {| tasks := ts; world := w1 |} O1 U1 F1 W1) as [W2 P2].
    split; [exact W2|]. intros j t Hj. cbn [tasks world] in P2.
    specialize (N1 j). rewrite Hj in N1. simpl in N1.
    destruct (Nat.eqb j i) eqn:J.
    + apply Nat.eqb_eq in J. subst j.
      destruct (step_task ucd t (world s)) as [t1 w2] eqn:St. simpl in N1.
      destruct (P2 i t1 N1) as [t' [H' [Hc Hs]]].
      rewrite Forall_forall in F, C.
      destruct (step_task_up ucd t (world s) t1 w2 O (F t (nth_error_In _ _ Hj))
                  (C t (nth_error_In _ _ Hj)) St) as [_ [Hc1 [Hs1 _]]].
      exists t'. split; [exact H'|]. split; [congruence|].
      rewrite Hs, Hs1. cbn [count_occ].
      destruct (Nat.eq_dec i i) as [_|X]; [lia|congruence].
    + apply Nat.eqb_neq in J.
      destruct (P2 j t N1) as [t' [H' [Hc Hs]]].
      exists t'. split; [exact H'|]. split; [exact Hc|].
      rewrite Hs. cbn [count_occ].
      destruct (Nat.eq_dec i j) as [X|_]; [congruence|reflexivity].
Qed.

Lemma issue_refused ucd calls w : Forall (refused_by_a_card ucd w) (tasks (issue calls w)).
Proof.
  simpl. apply Forall_forall. intros t Ht. apply in_map_iff in Ht.
  destruct Ht as [c [<- _]]. exact I.
Qed.

Lemma issue_ended_well calls w : Forall ended_well (tasks (issue calls w)).
Proof.
  simpl. apply Forall_forall. intros t Ht. apply in_map_iff in Ht.
  destruct Ht as [c [<- _]]. exact I.
Qed.


(** Two calls for one user and name in flight at once, and a call of
    another user: all three look before any writes.  The first call creates
    the card, the call of the other user creates that user's card, and the
    second call of the first user is refused by the index.  Two cards are
    stored, one for each user. *)
Lemma three_calls_two_cards :
  let s := run ucd_fragment [0; 1; 2; 0; 2; 1]%nat
               (issue [(7, lit "Headache"); (7, lit "Headache"); (8, lit "Headache")]
                      empty_world) in
  (exists c0 c2,
      tasks s = [ Finished 7 (lit "Headache") (Ok (c0, true));
                  Finished 7 (lit "Headache") (Raise (LibraryError DuplicateKeyError));
                  Finished 8 (lit "Headache") (Ok (c2, true)) ])
  /\ card_keys (world s) = [(7, lit "Headache"); (8, lit "Headache")].
Proof.
  split; [do 2 eexists|]; vm_compute; reflexivity.
Qed.

(** X26.  Whatever calls of [find_or_create] are issued and however the
    server interleaves their operations, no two cards share a (user, name)
    pair.  For a name [n] that the normalisation leaves as it is: once a
    call for [(u, n)] has returned, or has been refused by the index, exactly
    one card is stored for [(u, n)]; and with the server up, a call for
    [(u, n)] that has been scheduled twice has ended in one of these two
    ways ([n] being a name that BSON can encode, which the driver asks of a
    name it looks up), so that exactly one card is stored for [(u, n)]. *)
Theorem one_card_per_user_and_name (ucd : UnicodeData)
    (calls : list (ObjectId * str)) (schedule : list nat) (w : World) :
  unique_index w ->
  let s := run ucd schedule (issue calls w) in
  unique_index (world s)
  /\ (forall u n r,
        In (Finished u n r) (tasks s) ->
        returned_or_refused r ->
        normalise ucd n = n ->
        cards_for u n (world s) = 1%nat)
  /\ (outage w = None ->
      forall i u n,
        nth_error calls i = Some (u, n) ->
        (2 <= count_occ Nat.eq_dec schedule i)%nat ->
        utf8_encodable n = true ->
        normalise ucd n = n ->
        exists r, nth_error (tasks s) i = Some (Finished u n r)
                  /\ returned_or_refused r
                  /\ cards_for u n (world s) = 1%nat).
Proof.
  intros U s.
  destruct (run_inv ucd schedule (issue calls w) U (issue_inv ucd calls w))
    as [U' [_ F]].
  pose proof (run_refused ucd schedule (issue calls w) U (issue_inv ucd calls w)
                (issue_refused ucd calls w)) as R.
  fold s in U', F, R.
  assert (Ended : forall u n r,
             In (Finished u n r) (tasks s) -> returned_or_refused r ->
             normalise ucd n = n -> cards_for u n (world s) = 1%nat).
  { intros u n r Hin [[[card is_new] ->]| ->] Hn; (apply cards_for_one; [exact U'|]).
    - rewrite Forall_forall in F. specialize (F _ Hin). simpl in F.
      rewrite !Hn in F. now destruct is_new.
    - rewrite Forall_forall in R. specialize (R _ Hin). simpl in R.
      now rewrite !Hn in R. }
  split; [exact U'|]. split; [exact Ended|].
  intros O i u n Hi Hc _ Hn.
  destruct (run_up ucd schedule (issue calls w) O U (issue_inv ucd calls w)
              (issue_ended_well calls w)) as [C P].
  fold s in C, P.
  destruct (P i (Called u n)) as [t' [Ht [Hcall Hs]]].
  { simpl. rewrite nth_error_map, Hi. reflexivity. }
  cbn [stage] in Hs. assert (Hs' : stage t' = 2%nat) by lia.
  destruct t' as [u' n'|u' n' l|u' n' r]; try discriminate.
  simpl in Hcall. inversion Hcall; subst.
  pose proof (nth_error_In _ _ Ht) as Hin.
  rewrite Forall_forall in C. pose proof (C _ Hin) as W. simpl in W.
  exists r. split; [exact Ht|]. split; [exact W|].
  exact (Ended u n r Hin W Hn).
Qed.

Lemma one_card_per_user_and_name_witness :
  let s := run ucd_fragment [0; 1; 2; 0; 2; 1]%nat
               (issue [(7, lit "Headache"); (7, lit "Headache"); (8, lit "Headache")]
                      empty_world) in
  unique_index (world s)
  /\ (forall u n r,
        In (Finished u n r) (tasks s) ->
        returned_or_refused r ->
        normalise ucd_fragment n = n ->
        cards_for u n (world s) = 1%nat)
  /\ (outage empty_world = None ->
      forall i u n,
        nth_error [(7, lit "Headache"); (7, lit "Headache"); (8, lit "Headache")] i
        = Some (u, n) ->
        (2 <= count_occ Nat.eq_dec [0; 1; 2; 0; 2; 1]%nat i)%nat ->
        utf8_encodable n = true ->
        normalise ucd_fragment n = n ->
        exists r, nth_error (tasks s) i = Some (Finished u n r)
                  /\ returned_or_refused r
                  /\ cards_for u n (world s) = 1%nat).
Proof.
  apply (one_card_per_user_and_name ucd_fragment
           [(7, lit "Headache"); (7, lit "Headache"); (8, lit "Headache")]
           [0; 1; 2; 0; 2; 1]%nat empty_world).
  unfold unique_index. simpl. constructor.
Defined.

(** C2, as stated, fails: two calls for the same user and name are in
    flight, both look the card up before either writes; the first creates
    the card, the second is refused by the index and ends with
    [DuplicateKeyError], which its caller receives.  One card is stored, with
    a count of 1. *)
Lemma conflict_reaches_caller :
  let s := run ucd_fragment [0; 1; 0; 1]%nat
               (issue [(7, lit "migraine"); (7, lit "migraine")] empty_world) in
  (exists card,
      tasks s = [ Finished 7 (lit "migraine") (Ok (card, true));
                  Finished 7 (lit "migraine")
                           (Raise (LibraryError DuplicateKeyError)) ])
  /\ List.map (fun d => (hc_condition_name d, hc_log_count d))
              (health_conditions (world s))
     = [(lit "Migraine", 1%Z)].
Proof.
  split; [eexists|]; vm_compute; reflexivity.
Qed.

(** C2 (amended).  When the creation of a card meets a stored card with the
    same (user, name) pair, the insert is refused, the store is left as it
    is, and [find_or_create] ends with [DuplicateKeyError]: there is no
    second attempt, the error goes to the caller. *)
Theorem conflict_is_raised (ucd : UnicodeData) (u : ObjectId) (n : str)
    (l : Lookup) (w : World) :
  lk_doc l = None ->
  outage w <> Some O ->
  existsb (matches_key u (normalise ucd (lk_normalised l))) (health_conditions w) = true ->
  exists w',
    step_task ucd (Looked u n l) w
    = (Finished u n (Raise (LibraryError DuplicateKeyError)), w')
    /\ find_or_create_write ucd u l w = (Raise (LibraryError DuplicateKeyError), w')
    /\ health_conditions w' = health_conditions w.
Proof.
  intros L O E. destruct (write_conflict ucd u l w L O E) as [w' [H1 H2]].
  exists w'. simpl. rewrite H1. auto.
Qed.

Lemma conflict_is_raised_witness :
  let l := {| lk_normalised := lit "Migraine"; lk_now := 5; lk_doc := None |} in
  let w := snd (find_or_create ucd_fragment 7 (lit "migraine") empty_world) in
  exists w',
    step_task ucd_fragment (Looked 7 (lit "migraine") l) w
    = (Finished 7 (lit "migraine") (Raise (LibraryError DuplicateKeyError)), w')
    /\ find_or_create_write ucd_fragment 7 l w
       = (Raise (LibraryError DuplicateKeyError), w')
    /\ health_conditions w' = health_conditions w.
Proof.
  apply (conflict_is_raised ucd_fragment 7 (lit "migraine")
           {| lk_normalised := lit "Migraine"; lk_now := 5; lk_doc := None |}
           (snd (find_or_create ucd_fragment 7 (lit "migraine") empty_world))).
  - reflexivity.
  - vm_compute. discriminate.
  - vm_compute. reflexivity.
Defined.

(* ================================================================== *)
(** * Calls one after the other *)
(* ================================================================== *)

Lemma store_ok_same w w' :
  store_ok w -> card_keys w' = card_keys w -> card_ids w' = card_ids w ->
  next_oid w' = next_oid w -> store_ok w'.
Proof.
  intros [K I F] Hk Hi Hn. split.
  - unfold unique_index. now rewrite Hk.
  - now rewrite Hi.
  - now rewrite Hi, Hn.
Qed.

Lemma store_ok_insert w w' d :
  store_ok w ->
  health_conditions w' = health_conditions w ++ [d] ->
  hc_id d = next_oid w ->
  ~ In (card_key d) (card_keys w) ->
  next_oid w' = N.succ (next_oid w) ->
  store_ok w'.
Proof.
  intros [K I F] Hc Hid Hk Hn.
  assert (Fresh : ~ In (hc_id d) (card_ids w)).
  { intros H. rewrite Forall_forall in F. specialize (F _ H). lia. }
  split.
  - unfold unique_index, card_keys. rewrite Hc, map_app. simpl.
    apply NoDup_app; [exact K | constructor; [simpl; tauto | constructor] |].
    intros x Hx [<-|[]]. now apply Hk.
  - unfold card_ids. rewrite Hc, map_app. simpl.
    apply NoDup_app; [exact I | constructor; [simpl; tauto | constructor] |].
    intros x Hx [<-|[]]. now apply Fresh.
  - unfold card_ids. rewrite Hc, map_app, Hn. simpl.
    apply Forall_app. split.
    + eapply Forall_impl; [|exact F]. simpl. intros; lia.
    + constructor; [lia | constructor].
Qed.

(** A call that finds the card [d]. *)
Lemma find_or_create_found ucd u n w d r w' :
  unique_index w -> In d (health_conditions w) ->
  card_key d = (u, normalise ucd n) ->
  find_or_create ucd u n w = (r, w') ->
  next_oid w' = next_oid w
  /\ same_rest w w'
  /\ match r with
     | Ok (card, is_new) =>
         is_new = false
         /\ HealthCondition.id card = Some (hc_id d)
         /\ HealthCondition.log_count card = (hc_log_count d + 1)%Z
         /\ HealthCondition.status card = ACTIVE
         /\ health_conditions w'
            = update_first (fun x => hc_id x =? hc_id d) (set_after_log card)
                           (health_conditions w)
     | Raise e => e = LibraryError ConnectionFailure
                  /\ health_conditions w' = health_conditions w
     end.
Proof.
  intros U Hd Hk. rewrite find_or_create_unfold.
  destruct (find_or_create_lookup ucd u n w) as [[l|e] w1] eqn:E;
    apply lookup_spec in E; destruct E as [Hc [Hn [[R1 R2] Hr]]].
  - destruct Hr as [_ Hdoc].
    rewrite (find_unique_key u (normalise ucd n) _ d U Hd Hk) in Hdoc.
    intros W. apply (write_found_spec ucd u l d) in W; [|exact Hdoc].
    destruct W as [Hn' [[S1 S2] Hr]].
    split; [congruence|]. split; [split; congruence|].
    destruct r as [[card is_new]|e].
    + destruct Hr as [? [? [? [? [? ?]]]]]. rewrite <- Hc. auto 10.
    + destruct Hr as [? ?]. split; congruence.
  - intros H; inversion H; subst. split; [exact Hn|]. split; [now split|]. auto.
Qed.

(** A call that returns without having found a card. *)
Lemma find_or_create_created ucd u n w card is_new w' :
  ~ has_card u (normalise ucd n) w ->
  find_or_create ucd u n w = (Ok (card, is_new), w') ->
  is_new = true
  /\ HealthCondition.id card = Some (next_oid w)
  /\ HealthCondition.user_id card = u
  /\ HealthCondition.condition_name card = normalise ucd (normalise ucd n)
  /\ HealthCondition.log_count card = 1%Z
  /\ HealthCondition.status card = ACTIVE
  /\ ~ has_card u (normalise ucd (normalise ucd n)) w
  /\ health_conditions w'
     = health_conditions w ++ [HealthCondition.to_dict card (next_oid w)]
  /\ next_oid w' = N.succ (next_oid w)
  /\ same_rest w w'.
Proof.
  intros Hno. rewrite find_or_create_unfold.
  destruct (find_or_create_lookup ucd u n w) as [[l|e] w1] eqn:E; [|discriminate].
  apply lookup_spec in E. destruct E as [Hc [Hn [[R1 R2] [Hl Hdoc]]]].
  apply find_matches_key_none in Hno. unfold card_keys in Hdoc. rewrite Hno in Hdoc.
  intros W. apply (write_missing_spec ucd u l) in W; [|exact Hdoc].
  destruct W as [[S1 S2] [? [? [? [? [? [? [Hex [? ?]]]]]]]]].
  rewrite Hl, Hc, Hn in *. repeat split; try congruence.
  unfold has_card, card_keys. rewrite <- existsb_matches_key. congruence.
Qed.

Lemma find_or_create_times_unfold ucd k u n w :
  find_or_create_times ucd (S k) u n w
  = match find_or_create ucd u n w with
    | (Ok r, w1) =>
        match find_or_create_times ucd k u n w1 with
        | (Ok rs, w2) => (Ok (r :: rs), w2)
        | (Raise e, w2) => (Raise e, w2)
        end
    | (Raise e, w1) => (Raise e, w1)
    end.
Proof.
  simpl. unfold bind. destruct (find_or_create ucd u n w) as [[r|e] w1]; [|reflexivity].
  destruct (find_or_create_times ucd k u n w1) as [[rs|e] w2]; reflexivity.
Qed.


Lemma find_or_create_store_ok ucd u n w r w' :
  store_ok w -> find_or_create ucd u n w = (r, w') -> store_ok w'.
Proof.
  intros S. rewrite find_or_create_unfold.
  destruct (find_or_create_lookup ucd u n w) as [[l|e] w1] eqn:E;
    apply lookup_spec in E; destruct E as [Hc [Hn [_ Hr]]].
  - assert (S1 : store_ok w1).
    { apply (store_ok_same w); auto; unfold card_keys, card_ids; now rewrite Hc. }
    destruct Hr as [Hl Hdoc]. destruct (lk_doc l) as [d|] eqn:L; intros W.
    + apply (write_found_spec ucd u l d) in W; [|exact L].
      destruct W as [Hn' [_ Hr]]. apply (store_ok_same w1); auto.
      * unfold card_keys. destruct r as [[card is_new]|e'].
        -- destruct Hr as [_ [_ [_ [_ [_ ->]]]]]. apply update_first_map, set_after_log_key.
        -- destruct Hr as [_ ->]. reflexivity.
      * unfold card_ids. destruct r as [[card is_new]|e'].
        -- destruct Hr as [_ [_ [_ [_ [_ ->]]]]]. apply update_first_map, set_after_log_id.
        -- destruct Hr as [_ ->]. reflexivity.
    + pose proof W as W0.
      apply (write_missing_spec ucd u l) in W; [|exact L].
      destruct W as [_ Hr]. destruct r as [[card is_new]|e'].
      * destruct Hr as [_ [_ [Hu [Hname [_ [_ [Hex [Hcards Hnext]]]]]]]].
        apply (store_ok_insert w1 w' (HealthCondition.to_dict card (next_oid w1)));
          auto.
        unfold card_key. simpl. rewrite Hu, Hname. unfold card_keys.
        rewrite <- existsb_matches_key. congruence.
      * destruct Hr as [Hcards _].
        (* the generator may have moved on, the cards have not *)
        destruct S1 as [K I F]. split.
        -- unfold unique_index, card_keys. now rewrite Hcards.
        -- unfold card_ids. now rewrite Hcards.
        -- unfold card_ids. rewrite Hcards.
           assert (Hmono : next_oid w1 <= next_oid w').
           { clear - W0 L. destruct w1 as [hc cl mm oid clk out].
             unfold find_or_create_write, hc_insert_one, bind in W0.
             rewrite L in W0. cbn in W0.
             destruct out as [[|k]|]; cbn in W0;
               try (inversion W0; subst; cbn; lia);
               destruct (existsb _ hc); inversion W0; subst; cbn; lia. }
           eapply Forall_impl; [|exact F]. simpl. intros; lia.
  - intros H; inversion H; subst.
    apply (store_ok_same w); auto; unfold card_keys, card_ids; now rewrite Hc.
Qed.

Lemma find_or_create_returns ucd u n w :
  outage w = None ->
  normalise ucd (normalise ucd n) = normalise ucd n ->
  exists r w', find_or_create ucd u n w = (Ok r, w') /\ outage w' = None.
Proof.
  intros O Idem. rewrite find_or_create_unfold.
  destruct (lookup_up ucd u n w O) as [l [w1 [E O1]]]. rewrite E.
  apply lookup_spec in E. destruct E as [Hc [_ [_ [Hl Hdoc]]]].
  destruct (lk_doc l) as [d|] eqn:L.
  - now apply (write_found_up ucd u l d).
  - apply write_missing_up; auto.
    symmetry in Hdoc. apply find_matches_key_none in Hdoc.
    rewrite Hl, Idem, Hc.
    destruct (existsb _ (health_conditions w)) eqn:X; [|reflexivity].
    apply existsb_matches_key in X. contradiction.
Qed.

(** With the server up and a name on which the normalisation is idempotent,
    every call returns. *)
Lemma find_or_create_times_returns ucd u n k : forall w,
  outage w = None ->
  normalise ucd (normalise ucd n) = normalise ucd n ->
  exists rs w', find_or_create_times ucd k u n w = (Ok rs, w') /\ outage w' = None.
Proof.
  induction k as [|k IH]; intros w O Idem.
  - exists [], w. now split.
  - rewrite find_or_create_times_unfold.
    destruct (find_or_create_returns ucd u n w O Idem) as [r [w1 [E O1]]].
    rewrite E. destruct (IH w1 O1 Idem) as [rs [w2 [E2 O2]]]. rewrite E2.
    exists (r :: rs), w2. now split.
Qed.

Lemma times_from_existing ucd u n k : forall w j d rs w',
  store_ok w ->
  In d (health_conditions w) ->
  card_key d = (u, normalise ucd (normalise ucd n)) ->
  hc_log_count d = j ->
  (normalise ucd n = normalise ucd (normalise ucd n)
   \/ ~ has_card u (normalise ucd n) w) ->
  find_or_create_times ucd k u n w = (Ok rs, w') ->
  List.map tally rs = recurrences j k
  /\ Forall (fun r => HealthCondition.id (fst r) = Some (hc_id d)) rs
  /\ store_ok w'
  /\ exists d', In d' (health_conditions w')
                /\ hc_id d' = hc_id d
                /\ card_key d' = card_key d
                /\ hc_log_count d' = (j + Z.of_nat k)%Z.
Proof.
  induction k as [|k IH]; intros w j d rs w' S Hd Hk Hj Hx.
  - simpl. unfold ret. intros H; inversion H; subst.
    split; [reflexivity|]. split; [constructor|]. split; [exact S|].
    exists d. repeat split; auto. lia.
  - rewrite find_or_create_times_unfold.
    destruct (find_or_create ucd u n w) as [[[card is_new]|e] w1] eqn:E; [|discriminate].
    destruct (find_or_create_times ucd k u n w1) as [[rs1|e] w2] eqn:E2; [|discriminate].
    intros H; inversion H; subst; clear H.
    pose proof (find_or_create_store_ok ucd u n w _ w1 S E) as S1.
    destruct Hx as [Idem|Hno].
    + rewrite <- Idem in Hk.
      apply (find_or_create_found ucd u n w d) in E; [|apply S|exact Hd|exact Hk].
      destruct E as [_ [_ [-> [Hid [Hcount [_ Hcards]]]]]].
      set (d1 := set_after_log card d).
      assert (Hd1 : In d1 (health_conditions w1)).
      { rewrite Hcards. apply update_first_In_id; [apply S | exact Hd]. }
      assert (Hk1 : card_key d1 = (u, normalise ucd (normalise ucd n))).
      { unfold d1. rewrite set_after_log_key, Hk. f_equal. exact Idem. }
      destruct (IH w1 (hc_log_count d + 1)%Z d1 rs1 w' S1 Hd1 Hk1 Hcount
                   (or_introl Idem) E2)
        as [T [Fid [S2 [d2 [I2 [Id2 [K2 C2]]]]]]].
      split; [simpl; unfold tally at 1; simpl; now rewrite Hcount, T|].
      split; [constructor; [exact Hid | exact Fid]|].
      split; [exact S2|].
      exists d2. repeat split; auto. lia.
    + exfalso.
      apply (find_or_create_created ucd u n w) in E; [|exact Hno].
      destruct E as [_ [_ [_ [_ [_ [_ [Hnone _]]]]]]].
      apply Hnone. unfold has_card, card_keys. rewrite <- Hk. now apply in_map.
Qed.

(** C7.  From a store with no card for the user and the name, [k] calls of
    [find_or_create] that all return report the counts 1, 2, ..., [k]: the
    first creates the card with a count of 1, each later one finds it and
    adds exactly 1; the stored card then has a count of [k]. *)
Theorem log_count_after_k_calls (ucd : UnicodeData) (u : ObjectId) (n : str)
    (k : nat) (w : World) (rs : list (HealthCondition.t * bool)) (w' : World) :
  store_ok w ->
  cards_for u (normalise ucd n) w = 0%nat ->
  find_or_create_times ucd (S k) u n w = (Ok rs, w') ->
  List.map tally rs = (1%Z, true) :: recurrences 1 k
  /\ exists d, In d (health_conditions w')
               /\ hc_user_id d = u
               /\ hc_log_count d = Z.of_nat (S k)
               /\ Forall (fun r => HealthCondition.id (fst r) = Some (hc_id d)) rs
               /\ cards_for u (hc_condition_name d) w' = 1%nat.
Proof.
  intros S Hzero. apply cards_for_zero in Hzero.
  rewrite find_or_create_times_unfold.
  destruct (find_or_create ucd u n w) as [[[card is_new]|e] w1] eqn:E; [|discriminate].
  destruct (find_or_create_times ucd k u n w1) as [[rs1|e] w2] eqn:E2; [|discriminate].
  intros H; inversion H; subst; clear H.
  pose proof (find_or_create_store_ok ucd u n w _ w1 S E) as S1.
  apply (find_or_create_created ucd u n w) in E; [|exact Hzero].
  destruct E as [-> [Hid [Hu [Hname [Hcount [_ [_ [Hcards [Hnext _]]]]]]]]].
  set (d := HealthCondition.to_dict card (next_oid w)) in *.
  assert (Hd : In d (health_conditions w1)).
  { rewrite Hcards. apply in_or_app. right. now left. }
  assert (Hk : card_key d = (u, normalise ucd (normalise ucd n))).
  { unfold d, card_key. simpl. now rewrite Hu, Hname. }
  assert (Hx : normalise ucd n = normalise ucd (normalise ucd n)
               \/ ~ has_card u (normalise ucd n) w1).
  { destruct (str_eq_dec (normalise ucd n) (normalise ucd (normalise ucd n))) as [Y|N];
      [now left | right].
    unfold has_card, card_keys. rewrite Hcards, map_app. simpl.
    intros X. apply in_app_or in X. destruct X as [X|[X|[]]]; [now apply Hzero|].
    rewrite Hk in X. inversion X. congruence. }
  assert (Hc1 : hc_log_count d = 1%Z) by (unfold d; simpl; exact Hcount).
  destruct (times_from_existing ucd u n k w1 1%Z d rs1 w' S1 Hd Hk Hc1 Hx E2)
    as [T [Fid [S2 [d2 [I2 [Id2 [K2 C2]]]]]]].
  split; [simpl; unfold tally at 1; simpl; now rewrite Hcount, T|].
  exists d2. split; [exact I2|].
  assert (K2' : card_key d2 = (u, normalise ucd (normalise ucd n))) by congruence.
  split; [unfold card_key in K2'; now inversion K2'|].
  split; [lia|].
  split.
  - constructor; [simpl; rewrite Hid; f_equal; now rewrite Id2 | now rewrite Id2].
  - apply cards_for_one; [apply S2|].
    unfold card_keys. replace (u, hc_condition_name d2) with (card_key d2).
    + now apply in_map.
    + unfold card_key in *. inversion K2'. reflexivity.
Qed.

Lemma log_count_after_k_calls_witness :
  exists rs w',
    find_or_create_times ucd_fragment 3 7 (lit " headache") empty_world = (Ok rs, w')
    /\ List.map tally rs = (1%Z, true) :: recurrences 1 2
    /\ exists d, In d (health_conditions w')
                 /\ hc_user_id d = 7
                 /\ hc_log_count d = 3%Z
                 /\ Forall (fun r => HealthCondition.id (fst r) = Some (hc_id d)) rs
                 /\ cards_for 7 (hc_condition_name d) w' = 1%nat.
Proof.
  do 2 eexists. split; [vm_compute; reflexivity|].
  apply (log_count_after_k_calls ucd_fragment 7 (lit " headache") 2 empty_world).
  - split; simpl; constructor.
  - reflexivity.
  - vm_compute. reflexivity.
Defined.

(** The name is normalised for the lookup and once more when the card is
    built.  Where the two differ, the card is stored under a name that the
    next lookup does not ask for: the second report of "a", U+0130, "b" finds
    nothing and is refused by the index. *)
Lemma second_report_is_refused :
  exists w',
    find_or_create_times ucd_fragment 2 7 [97; 304; 98] empty_world
    = (Raise (LibraryError DuplicateKeyError), w')
    /\ List.map (fun d => (hc_condition_name d, hc_log_count d)) (health_conditions w')
       = [([65; 105; 775; 66], 1%Z)].
Proof. eexists. split; [vm_compute; reflexivity | reflexivity]. Qed.



(* ================================================================== *)
(** * What a computation leaves alone *)
(* ================================================================== *)

Lemma preserves_ret {A X} (f : World -> X) (a : A) : preserves f (ret a).
Proof. intros w r w' H. inversion H. reflexivity. Qed.

Lemma preserves_raise {A X} (f : World -> X) e : preserves f (@raise A e).
Proof. intros w r w' H. inversion H. reflexivity. Qed.

Lemma preserves_bind {A B X} (f : World -> X) (c : M A) (k : A -> M B) :
  preserves f c -> (forall a, preserves f (k a)) -> preserves f (bind c k).
Proof.
  intros Hc Hk w r w'. unfold bind.
  destruct (c w) as [[a|e] w1] eqn:E.
  - intros H. rewrite (Hk a _ _ _ H). exact (Hc _ _ _ E).
  - intros H. inversion H; subst. exact (Hc _ _ _ E).
Qed.

Lemma preserves_on_raise_bind {A B X} (f : World -> X) (c : M A) (k : A -> M B) :
  preserves f c -> (forall a, preserves_on_raise f (k a)) ->
  preserves_on_raise f (bind c k).
Proof.
  intros Hc Hk w e w'. unfold bind.
  destruct (c w) as [[a|e1] w1] eqn:E.
  - intros H. rewrite (Hk a _ _ _ H). exact (Hc _ _ _ E).
  - intros H. inversion H; subst. exact (Hc _ _ _ E).
Qed.

Lemma raises_only_ret {A} P (a : A) : raises_only P (ret a).
Proof. intros w e w' H. inversion H. Qed.

Lemma raises_only_raise {A} (P : PyExc -> Prop) e : P e -> raises_only P (@raise A e).
Proof. intros Pe w e' w' H. inversion H. now subst. Qed.

Lemma raises_only_bind {A B} P (c : M A) (k : A -> M B) :
  raises_only P c -> (forall a, raises_only P (k a)) -> raises_only P (bind c k).
Proof.
  intros Hc Hk w e w'. unfold bind.
  destruct (c w) as [[a|e1] w1] eqn:E.
  - intros H. exact (Hk a _ _ _ H).
  - intros H. inversion H; subst. exact (Hc _ _ _ E).
Qed.

Lemma library_error cls : cls <> RuntimeError -> is_library_error (LibraryError cls).
Proof. intros H. now exists cls. Qed.

(** The exceptions of the encoder. *)
Lemma bson_key_error_class k cls :
  bson_key_error k = Some cls -> cls = UnicodeEncodeError \/ cls = InvalidDocument.
Proof.
  unfold bson_key_error.
  destruct (negb (utf8_encodable k)); [intros H; inversion H; auto|].
  destruct (existsb _ k); intros H; inversion H; auto.
Qed.

Lemma bson_error_class :
  forall v cls, bson_error v = Some cls ->
                cls = UnicodeEncodeError \/ cls = OverflowError \/ cls = InvalidDocument.
Proof.
  fix IH 1. intros [ | b | z | s | l | d] cls; simpl.
  - discriminate.
  - discriminate.
  - destruct (fits_int64 z); intros H; inversion H; auto.
  - destruct (utf8_encodable s); intros H; inversion H; auto.
  - revert l. fix IHl 1. intros [|x r]; [discriminate|].
    destruct (bson_error x) eqn:E.
    + intros H. inversion H; subst. exact (IH x _ E).
    + exact (IHl r).
  - revert d. fix IHd 1. intros [|[k x] r]; [discriminate|].
    destruct (bson_key_error k) eqn:K.
    + intros H. inversion H; subst. apply bson_key_error_class in K. tauto.
    + destruct (bson_error x) eqn:E.
      * intros H. inversion H; subst. exact (IH x _ E).
      * exact (IHd r).
Qed.

Arguments bson_error : simpl never.

(** The primitives. *)
Lemma now_preserves {X} (f : World -> X) :
  (forall w t, f (with_clock w t) = f w) -> preserves f now.
Proof. intros Hf w r w' H. inversion H. apply Hf. Qed.

Lemma fresh_oid_preserves {X} (f : World -> X) :
  (forall w t, f (with_next_oid w t) = f w) -> preserves f fresh_oid.
Proof. intros Hf w r w' H. inversion H. apply Hf. Qed.

Lemma round_trip_preserves {X} (f : World -> X) :
  (forall w t, f (with_outage w t) = f w) -> preserves f round_trip.
Proof.
  intros Hf w r w'. unfold round_trip.
  destruct (outage w) as [[|k]|]; intros H; inversion H; auto.
Qed.

Lemma now_raises P : raises_only P now.
Proof. intros w e w' H. inversion H. Qed.

Lemma fresh_oid_raises P : raises_only P fresh_oid.
Proof. intros w e w' H. inversion H. Qed.

Lemma round_trip_raises : raises_only is_library_error round_trip.
Proof.
  intros w e w'. unfold round_trip.
  destruct (outage w) as [[|k]|]; intros H; inversion H.
  apply library_error. discriminate.
Qed.

Ltac frame_raw :=
  let w := fresh "w" in
  let r := fresh "r" in
  let w' := fresh "w'" in
  let H := fresh "H" in
  intros w r w' H; cbv beta zeta in H;
  repeat match type of H with
         | context [bson_error ?v] => destruct (bson_error v)
         | context [if ?b then _ else _] => destruct b
         end;
  inversion H; reflexivity.

Ltac frame :=
  repeat first
    [ apply preserves_ret
    | apply preserves_raise
    | apply now_preserves; reflexivity
    | apply fresh_oid_preserves; reflexivity
    | apply round_trip_preserves; reflexivity
    | apply preserves_bind; [|intros ?]
    | match goal with
      | |- preserves _ (match ?x with _ => _ end) => destruct x
      | |- preserves _ (if ?x then _ else _) => destruct x
      end
    | frame_raw ].

Ltac raise_raw :=
  let w := fresh "w" in
  let e := fresh "e" in
  let w' := fresh "w'" in
  let H := fresh "H" in
  intros w e w' H; cbv beta zeta in H;
  repeat match type of H with
         | context [bson_error ?v] =>
             let E := fresh "E" in destruct (bson_error v) eqn:E
         | context [if ?b then _ else _] => destruct b
         end;
  inversion H; apply library_error;
  first [ discriminate
        | match goal with
          | E : bson_error _ = Some _ |- _ =>
              intros ->; destruct (bson_error_class _ _ E) as [X|[X|X]]; discriminate X
          end ].

Ltac only_library :=
  repeat first
    [ apply raises_only_ret
    | apply raises_only_raise; apply library_error; discriminate
    | apply now_raises
    | apply fresh_oid_raises
    | apply round_trip_raises
    | apply raises_only_bind; [|intros ?]
    | match goal with
      | |- raises_only _ (match ?x with _ => _ end) => destruct x
      | |- raises_only _ (if ?x then _ else _) => destruct x
      end
    | raise_raw ].

Lemma find_or_create_keeps_logs ucd u n :
  preserves condition_logs (find_or_create ucd u n).
Proof.
  unfold find_or_create, find_or_create_lookup, find_or_create_write,
    hc_find_one, hc_update_one, hc_insert_one,
    HealthCondition.from_dict, HealthCondition.init, HealthCondition.record_new_log,
    HealthCondition.reactivate, HealthCondition.touch.
  frame.
Qed.

Lemma preserves_on_raise_last {A B X} (f : World -> X) (c : M A) (k : A -> M B) :
  preserves_on_raise f c -> (forall a, raises_only (fun _ => False) (k a)) ->
  preserves_on_raise f (bind c k).
Proof.
  intros Hc Hk w e w'. unfold bind.
  destruct (c w) as [[a|e1] w1] eqn:E.
  - intros H. destruct (Hk a _ _ _ H).
  - intros H. inversion H; subst. exact (Hc _ _ _ E).
Qed.

Ltac unfold_store_ops :=
  unfold find_or_create, find_or_create_lookup, find_or_create_write,
    hc_find_one, hc_update_one, hc_insert_one,
    HealthCondition.from_dict, HealthCondition.init, HealthCondition.record_new_log,
    HealthCondition.reactivate, HealthCondition.touch,
    append_to_summary, _save, get_or_create_memory, get_memory,
    mm_find_one, mm_insert_one, mm_update_one,
    MascotMemory.init, MascotMemory.touch,
    create_from_gemini_result, cl_insert_one, ConditionLog.init,
    value_get.

(** ** The card service and the memory CRUD, seen from the other
    collections *)

Lemma find_or_create_keeps_memory ucd u n :
  preserves mascot_memory (find_or_create ucd u n).
Proof. unfold_store_ops. frame. Qed.

Lemma find_or_create_raises ucd u n :
  raises_only is_library_error (find_or_create ucd u n).
Proof.
  unfold_store_ops. only_library.
Qed.

Lemma get_or_create_memory_keeps_cards u :
  preserves health_conditions (get_or_create_memory u).
Proof. unfold_store_ops. frame. Qed.

Lemma get_or_create_memory_keeps_logs u :
  preserves condition_logs (get_or_create_memory u).
Proof. unfold_store_ops. frame. Qed.

Lemma get_or_create_memory_raises u :
  raises_only is_library_error (get_or_create_memory u).
Proof.
  unfold_store_ops. only_library.
Qed.

Lemma get_or_create_memory_loaded u w r w' :
  get_or_create_memory u w = (r, w') -> memory_loaded u w w'.
Proof.
  destruct w as [hc cl mm oid clk out]. unfold_store_ops. unfold bind, memory_loaded.
  cbn. destruct out as [[|[|k]]|]; cbn;
    try (intros H; inversion H; subst; cbn; now left);
    destruct (find _ mm) as [d|] eqn:F; cbn;
    intros H; inversion H; subst; cbn; auto;
    right; (split; [reflexivity|]); eexists; (split; [reflexivity|]); split; reflexivity.
Qed.

Lemma append_to_summary_keeps_logs u line :
  preserves condition_logs (append_to_summary u line).
Proof. unfold_store_ops. frame. Qed.

Lemma append_to_summary_raises u line :
  raises_only is_library_error (append_to_summary u line).
Proof.
  unfold_store_ops. only_library.
Qed.

Lemma value_get_preserves {X} (f : World -> X) x k default :
  preserves f (value_get x k default).
Proof. unfold value_get. frame. Qed.

Lemma value_get_raises x k default :
  raises_only is_library_error (value_get x k default).
Proof. unfold value_get. only_library. Qed.

Lemma create_from_gemini_result_raise_keeps_logs u result mode cid :
  preserves_on_raise condition_logs (create_from_gemini_result u result mode cid).
Proof.
  unfold create_from_gemini_result.
  repeat (apply preserves_on_raise_bind; [apply value_get_preserves | intros ?]).
  apply preserves_on_raise_bind; [unfold ConditionLog.init; frame | intros ?].
  apply preserves_on_raise_last; [|intros ?; apply raises_only_ret].
  unfold cl_insert_one.
  apply preserves_on_raise_bind; [frame | intros ?].
  apply preserves_on_raise_bind; [frame | intros ?].
  intros w e w' H. cbv beta zeta in H.
  destruct (bson_error _); inversion H. reflexivity.
Qed.

Lemma create_from_gemini_result_raises u result mode cid :
  raises_only is_library_error (create_from_gemini_result u result mode cid).
Proof.
  unfold_store_ops. only_library.
Qed.

(* ================================================================== *)
(** * [process_input] *)
(* ================================================================== *)

Lemma dict_get_set_other d k v k' :
  str_eqb k k' = false -> dict_get (dict_set d k v) k' = dict_get d k'.
Proof.
  intros N. induction d as [|[k0 v0] r IH]; simpl.
  - now rewrite N.
  - destruct (str_eqb k0 k) eqn:E; simpl.
    + apply str_eqb_eq in E. subst k0. now rewrite N.
    + destruct (str_eqb k0 k'); [reflexivity | exact IH].
Qed.

Lemma dict_has_set_other d k v k' :
  str_eqb k k' = false -> dict_has (dict_set d k v) k' = dict_has d k'.
Proof. intros N. unfold dict_has. now rewrite dict_get_set_other. Qed.

Lemma bind_ok_inv {A B} (c : M A) (k : A -> M B) w r w' :
  bind c k w = (Ok r, w') ->
  exists a w1, c w = (Ok a, w1) /\ k a w1 = (Ok r, w').
Proof.
  unfold bind. destruct (c w) as [[a|e] w1]; [eauto | discriminate].
Qed.

Lemma value_get_ok x k default w v w' :
  value_get x k default w = (Ok v, w') -> w' = w.
Proof.
  unfold value_get. destruct x; unfold ret, raise; intros H; inversion H; reflexivity.
Qed.

Lemma create_from_gemini_result_ok u result mode cid w log w' :
  create_from_gemini_result u result mode cid w = (Ok log, w') ->
  exists doc, condition_logs w' = condition_logs w ++ [doc]
              /\ cl_input_mode doc = mode
              /\ cl_user_id doc = u
              /\ cl_condition_id doc = cid
              /\ ConditionLog.id log = Some (cl_id doc).
Proof.
  unfold create_from_gemini_result. intros H.
  repeat (apply bind_ok_inv in H; destruct H as [? [? [V H]]];
          apply value_get_ok in V; subst).
  destruct w as [hc cl mm oid clk out].
  unfold ConditionLog.init, cl_insert_one, bind in H. cbn in H.
  destruct out as [[|k]|]; cbn in H; try discriminate;
    match type of H with
    | context [bson_error ?v] => destruct (bson_error v)
    end; inversion H; subst; cbn; eexists; repeat split.
Qed.

Section AgentProofs.
Variable ucd : UnicodeData.
Variable json_loads : str -> option json.
Variable generate_content : GenerateRequest -> GeminiReply.
Variable py_str : json -> str.
Variable personality : str -> str -> str -> str -> str.
Variable json_rules : datetime -> str.

Local Abbreviation log_condition' := (log_condition ucd py_str).
Local Abbreviation interpret_response' := (interpret_response ucd json_loads py_str).
Local Abbreviation process_valid_input' :=
  (process_valid_input ucd json_loads generate_content py_str personality json_rules).
Local Abbreviation process_input' :=
  (process_input ucd json_loads generate_content py_str personality json_rules).

Lemma join_notes_preserves {X} (f : World -> X) x : preserves f (join_notes x).
Proof. unfold join_notes. frame. Qed.

Lemma join_notes_raises x : raises_only is_library_error (join_notes x).
Proof. unfold join_notes. only_library. Qed.

Lemma log_condition_raise_keeps_logs u result mode :
  preserves_on_raise condition_logs (log_condition' u result mode).
Proof.
  unfold log_condition.
  apply preserves_on_raise_bind; [frame | intros ?].
  apply preserves_on_raise_bind; [frame | intros ?].
  apply preserves_on_raise_bind; [apply find_or_create_keeps_logs | intros [card is_new]].
  apply preserves_on_raise_bind; [apply value_get_preserves | intros ?].
  apply preserves_on_raise_bind; [apply join_notes_preserves | intros ?].
  repeat (apply preserves_on_raise_bind; [apply value_get_preserves | intros ?]).
  apply preserves_on_raise_bind; [apply append_to_summary_keeps_logs | intros ?].
  apply preserves_on_raise_last; [|intros ?; apply raises_only_ret].
  apply create_from_gemini_result_raise_keeps_logs.
Qed.

Lemma log_condition_raises u result mode :
  raises_only is_library_error (log_condition' u result mode).
Proof.
  unfold log_condition.
  apply raises_only_bind; [only_library | intros ?].
  apply raises_only_bind; [only_library | intros ?].
  apply raises_only_bind; [apply find_or_create_raises | intros [card is_new]].
  apply raises_only_bind; [apply value_get_raises | intros ?].
  apply raises_only_bind; [apply join_notes_raises | intros ?].
  repeat (apply raises_only_bind; [apply value_get_raises | intros ?]).
  apply raises_only_bind; [apply append_to_summary_raises | intros ?].
  apply raises_only_bind; [apply create_from_gemini_result_raises | intros ?].
  apply raises_only_ret.
Qed.

(** What [log_condition] returns is its argument with the three keys of
    step 9 set. *)
Lemma log_condition_result u result mode w r w' :
  log_condition' u result mode w = (Ok r, w') ->
  exists a b c,
    r = dict_set (dict_set (dict_set result (lit "condition_id") a)
                           (lit "is_new_condition") b)
                 (lit "log_id") c.
Proof.
  unfold log_condition, bind.
  repeat match goal with
         | |- context [match ?c ?w with _ => _ end] =>
             let E := fresh "E" in
             destruct (c w) as [[?|?] ?] eqn:E; try discriminate
         | |- context [let '(_, _) := ?p in _] => destruct p
         | |- context [match ?p with (_, _) => _ end] => destruct p
         end.
  unfold ret. intros H. inversion H. eauto.
Qed.

(** ** Steps 7 to 9 *)

Lemma interpret_empty u memory mode raw_text w :
  opt_truthy raw_text = false ->
  interpret_response' u memory mode raw_text w = (Raise empty_response_error, w).
Proof.
  intros H. unfold interpret_response, parse_response, bind. now rewrite H.
Qed.

Lemma interpret_invalid u memory mode raw_text w :
  opt_truthy raw_text = true ->
  json_loads (or_else raw_text []) = None ->
  interpret_response' u memory mode raw_text w
  = (Raise (invalid_json_error (or_else raw_text [])), w).
Proof.
  intros H J. unfold interpret_response, parse_response, bind. now rewrite H, J.
Qed.

Lemma interpret_object u memory mode raw_text d w :
  opt_truthy raw_text = true ->
  json_loads (or_else raw_text []) = Some (JDict d) ->
  interpret_response' u memory mode raw_text w
  = let result := dict_set d (lit "memory_context") (memory_context memory) in
    if is_loggable result then log_condition' u result mode w else (Ok result, w).
Proof.
  intros H J. unfold interpret_response, parse_response, attach_memory_context, bind.
  rewrite H, J. simpl. unfold ret. now destruct (is_loggable _).
Qed.

(** The ways [interpret_response] can end. *)
Lemma interpret_cases u memory mode raw_text w r w' :
  interpret_response' u memory mode raw_text w = (r, w') ->
  (w' = w /\ r = Raise empty_response_error /\ opt_truthy raw_text = false)
  \/ (w' = w /\ r = Raise (invalid_json_error (or_else raw_text []))
      /\ opt_truthy raw_text = true /\ json_loads (or_else raw_text []) = None)
  \/ (w' = w /\ r = Raise (LibraryError TypeError))
  \/ (exists d,
        opt_truthy raw_text = true
        /\ json_loads (or_else raw_text []) = Some (JDict d)
        /\ let result := dict_set d (lit "memory_context") (memory_context memory) in
           (is_loggable result = false /\ w' = w /\ r = Ok result
            \/ is_loggable result = true /\ log_condition' u result mode w = (r, w'))).
Proof.
  destruct (opt_truthy raw_text) eqn:T.
  - destruct (json_loads (or_else raw_text [])) as [v|] eqn:J.
    + destruct v as [ | b | z | s0 | l | d];
        try (unfold interpret_response, parse_response, attach_memory_context, bind;
             rewrite T, J; simpl; intros H; inversion H; subst; now auto).
      rewrite (interpret_object u memory mode raw_text d w T J). simpl.
      intros H. right. right. right. exists d. split; [reflexivity|]. split; [reflexivity|].
      simpl. destruct (is_loggable _); [right | left; inversion H; subst]; auto.
    + rewrite interpret_invalid by assumption.
      intros H. inversion H; subst. auto 10.
  - rewrite interpret_empty by assumption. intros H. inversion H; subst. auto.
Qed.

Lemma interpret_raise_keeps_logs u memory mode raw_text :
  preserves_on_raise condition_logs (interpret_response' u memory mode raw_text).
Proof.
  intros w e w' H. apply interpret_cases in H.
  destruct H as [[-> _]|[[-> _]|[[-> _]|[d [_ [_ H]]]]]]; auto.
  simpl in H. destruct H as [[_ [-> _]]|[_ H]]; auto.
  exact (log_condition_raise_keeps_logs _ _ _ _ _ _ H).
Qed.

(** An exception of class [RuntimeError] is one of the two raised by step 7,
    and nothing was written. *)
Lemma interpret_runtime_error u memory mode raw_text w e w' :
  interpret_response' u memory mode raw_text w = (Raise e, w') ->
  exc_class e = RuntimeError ->
  w' = w
  /\ (e = empty_response_error /\ opt_truthy raw_text = false
      \/ e = invalid_json_error (or_else raw_text [])
         /\ opt_truthy raw_text = true /\ json_loads (or_else raw_text []) = None).
Proof.
  intros H C. apply interpret_cases in H.
  destruct H as [[-> [E T]]|[[-> [E [T J]]]|[[-> E]|[d [_ [_ H]]]]]].
  - inversion E; subst. auto.
  - inversion E; subst. auto.
  - inversion E; subst. discriminate.
  - simpl in H. destruct H as [[_ [_ E]]|[_ H]]; [discriminate|].
    apply log_condition_raises in H. destruct H as [cls [-> N]]. simpl in C. contradiction.
Qed.

(** ** Steps 2 to 6 *)

Lemma generate_system_instruction_run memory w :
  generate_system_instruction personality json_rules memory w
  = (Ok (personality
           (PersonaPreferences.mascot_name (MascotMemory.persona_preferences memory))
           (PersonaPreferences.tone (MascotMemory.persona_preferences memory))
           (PersonaPreferences.name_used (MascotMemory.persona_preferences memory))
           (if str_truthy (MascotMemory.summary_memory memory)
            then MascotMemory.summary_memory memory
            else _MEMORY_EMPTY_NOTE
                   (PersonaPreferences.name_used (MascotMemory.persona_preferences memory)))
         ++ json_rules (clock w)),
     with_clock w (N.succ (clock w))).
Proof. reflexivity. Qed.

(** A run behind the input guard ends while the memory is loaded, or at the
    call of the oracle, or in [interpret_response]; up to there only the
    memory collection can have changed, by the creation of a blank memory. *)
Lemma process_valid_input_stages u text ab am ib im force_log history w r w' :
  process_valid_input' u text ab am ib im force_log history w = (r, w') ->
  health_conditions w' = health_conditions w
  /\ condition_logs w' = condition_logs w
  /\ memory_loaded u w w'
  /\ (exists e, r = Raise e
                /\ (is_library_error e \/ exists request, generate_content request = ApiRaises e))
  \/ exists memory w2 request raw_text,
       health_conditions w2 = health_conditions w
       /\ condition_logs w2 = condition_logs w
       /\ memory_loaded u w w2
       /\ generate_content request = Response raw_text
       /\ interpret_response' u memory
            (determine_input_mode (opt_truthy text) (is_some ab) (is_some ib))
            raw_text w2 = (r, w').
Proof.
  unfold process_valid_input. unfold bind at 1.
  destruct (get_or_create_memory u w) as [[memory|e] w1] eqn:E1.
  - pose proof (get_or_create_memory_keeps_cards u _ _ _ E1) as C1.
    pose proof (get_or_create_memory_keeps_logs u _ _ _ E1) as L1.
    pose proof (get_or_create_memory_loaded u _ _ _ E1) as M1.
    unfold bind at 1. rewrite generate_system_instruction_run.
    unfold bind at 1, call_gemini.
    match goal with
    | |- context [generate_content ?q] =>
        set (request := q); destruct (generate_content request) as [e|raw_text] eqn:G
    end.
    + unfold raise. intros H; inversion H; subst. left.
      split; [exact C1|]. split; [exact L1|].
      split; [destruct M1 as [M|M]; [left|right]; exact M|].
      exists e. split; [reflexivity|]. right. now exists request.
    + unfold ret. intros H. right.
      exists memory, (with_clock w1 (N.succ (clock w1))), request, raw_text.
      repeat split; auto.
  - intros H; inversion H; subst. left.
    split; [exact (get_or_create_memory_keeps_cards u _ _ _ E1)|].
    split; [exact (get_or_create_memory_keeps_logs u _ _ _ E1)|].
    split; [exact (get_or_create_memory_loaded u _ _ _ E1)|].
    exists e. split; [reflexivity|]. left.
    exact (get_or_create_memory_raises u _ _ _ E1).
Qed.

Lemma process_input_valid u text audio_file image_file force_log history ab am ib im :
  input_missing text (fst (_resolve_audio ucd audio_file ab am))
                (fst (_resolve_image ucd image_file ib im)) = false ->
  process_input' u text audio_file image_file force_log history ab am ib im
  = process_valid_input' u text
      (fst (_resolve_audio ucd audio_file ab am)) (snd (_resolve_audio ucd audio_file ab am))
      (fst (_resolve_image ucd image_file ib im)) (snd (_resolve_image ucd image_file ib im))
      force_log history.
Proof. intros H. unfold process_input. now rewrite H. Qed.

End AgentProofs.

(** C3, code at the failing input.  A request to log what was discussed,
    with no new text, voice or image, passes the controller's guard, which
    tests [force_log]; [process_input] tests the three inputs alone and
    raises [ValueError] before it loads the memory or calls the oracle.  The
    part that step 5 would have sent, had the guard let the call through,
    is the nudge. *)
Theorem forced_log_without_content_is_refused (ucd : UnicodeData)
    (json_loads : str -> option json)
    (generate_content : GenerateRequest -> GeminiReply) (py_str : json -> str)
    (personality : str -> str -> str -> str -> str) (json_rules : datetime -> str)
    (user_id : ObjectId) (conversation_history : option (list HistoryMessage))
    (audio_mime image_mime : str) (w : World) :
  controller_accepts None None None true = true
  /\ process_input ucd json_loads generate_content py_str personality json_rules
       user_id None None None true conversation_history
       None audio_mime None image_mime w
     = (Raise no_input_error, w)
  /\ current_parts None None audio_mime None image_mime true
     = [Part_from_text (lit "Please log everything we've discussed so far.")].
Proof. repeat split. Qed.

(** C4, as stated, fails: the oracle answers nothing to the first message of
    a user; the run raises, and a memory record has been created for the
    user. *)
Lemma failed_extraction_creates_memory :
  exists w',
    example_run None 7 (Some (lit "my head hurts")) false empty_world
    = (Raise empty_response_error, w')
    /\ mascot_memory empty_world = []
    /\ List.map mm_user_id (mascot_memory w') = [7].
Proof. eexists. split; [vm_compute; reflexivity | split; reflexivity]. Qed.

(** A storage error is no cleaner: the server goes away before the log is
    inserted; the card and the summary line are stored, the log is not. *)
Lemma outage_before_the_log :
  exists w',
    example_run (Some headache_answer) 7 (Some (lit "my head hurts")) false
                (with_outage empty_world (Some 6%nat))
    = (Raise (LibraryError ConnectionFailure), w')
    /\ List.map hc_condition_name (health_conditions w') = [lit "Headache"]
    /\ List.map (fun d => str_truthy (mm_summary_memory d)) (mascot_memory w') = [true]
    /\ condition_logs w' = [].
Proof. eexists. split; [vm_compute; reflexivity | repeat split; reflexivity]. Qed.

(** C4 (amended).  A run of [process_input] that passes the input guard and
    raises has created no condition log.  When it raises [RuntimeError] (the
    oracle's answer was empty or did not parse), the condition cards are as
    before as well, and the memory collection is as before or has gained a
    blank memory for a user who had none. *)
Theorem failed_run_leaves_no_log (ucd : UnicodeData)
    (json_loads : str -> option json)
    (generate_content : GenerateRequest -> GeminiReply) (py_str : json -> str)
    (personality : str -> str -> str -> str -> str) (json_rules : datetime -> str)
    (user_id : ObjectId) (text : option str)
    (audio_file image_file : option FileStorage) (force_log : bool)
    (conversation_history : option (list HistoryMessage))
    (audio_bytes : option bytes) (audio_mime : str)
    (image_bytes : option bytes) (image_mime : str)
    (w : World) (e : PyExc) (w' : World) :
  input_missing text (fst (_resolve_audio ucd audio_file audio_bytes audio_mime))
                (fst (_resolve_image ucd image_file image_bytes image_mime)) = false ->
  process_input ucd json_loads generate_content py_str personality json_rules
    user_id text audio_file image_file force_log conversation_history
    audio_bytes audio_mime image_bytes image_mime w = (Raise e, w') ->
  condition_logs w' = condition_logs w
  /\ (exc_class e = RuntimeError ->
      health_conditions w' = health_conditions w /\ memory_loaded user_id w w').
Proof.
  intros V. rewrite process_input_valid by exact V. intros H.
  apply process_valid_input_stages in H.
  destruct H as [[C [L [M _]]]|[memory [w2 [request [raw_text [C [L [M [G I]]]]]]]]].
  - split; [exact L|]. intros _. now split.
  - split.
    + rewrite <- L. exact (interpret_raise_keeps_logs _ _ _ _ _ _ _ _ _ _ I).
    + intros R.
      destruct (interpret_runtime_error _ _ _ _ _ _ _ _ _ _ I R) as [-> _].
      now split.
Qed.

Lemma failed_run_leaves_no_log_witness :
  let w' := snd (example_run (Some (lit "oops")) 7 (Some (lit "my head hurts")) false
                             empty_world) in
  condition_logs w' = condition_logs empty_world
  /\ (exc_class (invalid_json_error (lit "oops")) = RuntimeError ->
      health_conditions w' = health_conditions empty_world
      /\ memory_loaded 7 empty_world w').
Proof.
  apply (failed_run_leaves_no_log ucd_fragment example_loads
           (oracle_saying (Some (lit "oops"))) example_py_str
           blank_personality blank_json_rules
           7 (Some (lit "my head hurts")) None None false None
           None (lit "audio/webm") None (lit "image/jpeg") empty_world).
  - reflexivity.
  - reflexivity.
Defined.




(** ** The log of a run that succeeds *)

Section LoggedRun.
Variable ucd : UnicodeData.
Variable json_loads : str -> option json.
Variable generate_content : GenerateRequest -> GeminiReply.
Variable py_str : json -> str.
Variable personality : str -> str -> str -> str -> str.
Variable json_rules : datetime -> str.


End LoggedRun.



Lemma process_input_ok_valid ucd json_loads generate_content py_str personality json_rules
    u text audio_file image_file force_log history ab am ib im w result w' :
  process_input ucd json_loads generate_content py_str personality json_rules
    u text audio_file image_file force_log history ab am ib im w = (Ok result, w') ->
  input_missing text (fst (_resolve_audio ucd audio_file ab am))
                (fst (_resolve_image ucd image_file ib im)) = false.
Proof.
  unfold process_input. destruct (input_missing _ _ _); [discriminate | reflexivity].
Qed.




(** The first report of a headache, end to end: one card "Headache" with a
    count of 1, one log of mode text linked to it, one summary line. *)
Lemma first_report_of_a_headache :
  let run := example_run (Some headache_answer) 7
               (Some (lit "I have a headache, pain 6/10, front of head")) false
               empty_world in
  List.map (fun d => (hc_condition_name d, hc_log_count d, hc_status d))
           (health_conditions (snd run))
  = [(lit "Headache", 1%Z, ACTIVE)]
  /\ List.map (fun d => (cl_pain_level d, cl_location d, cl_input_mode d, cl_condition_id d))
              (condition_logs (snd run))
     = [(JInt 6, JList [JStr (lit "front of head")], TEXT, Some 2)]
  /\ List.map mm_summary_memory (mascot_memory (snd run))
     = [lit "headache: pain 6/10, location ['front of head'], throbbing ()"].
Proof. vm_compute. repeat split. Qed.

Lemma is_loggable_unnamed result :
  dict_get result (lit "condition_name") = Some (JStr []) -> is_loggable result = false.
Proof.
  intros H. unfold is_loggable. rewrite H. simpl.
  destruct (dict_get result (lit "action")) as [[ | | | a | | ]|]; try reflexivity.
  apply andb_false_r.
Qed.

(** C10, as stated, fails on an answer that carries one of the keys itself.
    The oracle asks for a log, names no condition and sends a [log_id]; the
    run returns, nothing is logged, and the result has the key [log_id],
    with the value the oracle sent: the result is the oracle's object as it
    came. *)
Lemma unnamed_result_carries_log_id :
  let run := process_input ucd_fragment stray_loads (oracle_saying (Some stray_answer))
               example_py_str blank_personality blank_json_rules
               7 (Some (lit "log it")) None None true None
               None (lit "audio/webm") None (lit "image/jpeg") empty_world in
  exists result,
    fst run = Ok result
    /\ dict_get result (lit "action") = Some (JStr (lit "update_condition"))
    /\ dict_get result (lit "condition_name") = Some (JStr [])
    /\ health_conditions (snd run) = []
    /\ condition_logs (snd run) = []
    /\ dict_has result (lit "log_id") = true
    /\ dict_get result (lit "log_id") = Some (JStr (lit "65f0c0ffee")).
Proof.
  eexists. split; [vm_compute; reflexivity|]. repeat split.
Qed.

(** C10 (amended).  When the oracle asks for a log but names no condition
    (the result that is returned carries the oracle's [action] and
    [condition_name] as they came), the run that returns has stored no card
    and no log and has appended nothing to the summary (the memory
    collection is as before, or has gained the blank memory of a user who
    had none).  The result is the object the oracle answered with, with
    [memory_context] set: it has each of the keys [condition_id],
    [is_new_condition], [log_id] exactly when the oracle's object has it. *)
Theorem unnamed_condition_is_not_logged (ucd : UnicodeData)
    (json_loads : str -> option json)
    (generate_content : GenerateRequest -> GeminiReply) (py_str : json -> str)
    (personality : str -> str -> str -> str -> str) (json_rules : datetime -> str)
    (user_id : ObjectId) (text : option str)
    (audio_file image_file : option FileStorage) (force_log : bool)
    (conversation_history : option (list HistoryMessage))
    (audio_bytes : option bytes) (audio_mime : str)
    (image_bytes : option bytes) (image_mime : str)
    (w : World) (result : dict) (w' : World) :
  process_input ucd json_loads generate_content py_str personality json_rules
    user_id text audio_file image_file force_log conversation_history
    audio_bytes audio_mime image_bytes image_mime w = (Ok result, w') ->
  dict_get result (lit "action") = Some (JStr (lit "update_condition")) ->
  dict_get result (lit "condition_name") = Some (JStr []) ->
  health_conditions w' = health_conditions w
  /\ condition_logs w' = condition_logs w
  /\ memory_loaded user_id w w'
  /\ exists request raw_text d context,
       generate_content request = Response (Some raw_text)
       /\ json_loads raw_text = Some (JDict d)
       /\ result = dict_set d (lit "memory_context") context
       /\ dict_has result (lit "condition_id") = dict_has d (lit "condition_id")
       /\ dict_has result (lit "is_new_condition") = dict_has d (lit "is_new_condition")
       /\ dict_has result (lit "log_id") = dict_has d (lit "log_id").
Proof.
  intros H _ Hname.
  pose proof (process_input_ok_valid _ _ _ _ _ _ _ _ _ _ _ _ _ _ _ _ _ _ _ H) as V.
  rewrite process_input_valid in H by exact V.
  apply process_valid_input_stages in H.
  destruct H as [[_ [_ [_ [e [X _]]]]]|[memory [w2 [request [raw_text [C [L [M [G I]]]]]]]]];
    [discriminate|].
  apply interpret_cases in I.
  destruct I as [[_ [X _]]|[[_ [X _]]|[[_ X]|[d [T [J I]]]]]]; try discriminate.
  simpl in I. destruct I as [[_ [-> R]]|[Hlog I]].
  - inversion R; subst result. split; [exact C|]. split; [exact L|]. split; [exact M|].
    destruct raw_text as [s|]; [|discriminate]. simpl in J.
    exists request, s, d, (memory_context memory).
    split; [exact G|]. split; [exact J|]. split; [reflexivity|].
    rewrite !dict_has_set_other by reflexivity. auto.
  - exfalso. apply log_condition_result in I. destruct I as [a [b [c ->]]].
    do 3 rewrite dict_get_set_other in Hname by reflexivity.
    apply is_loggable_unnamed in Hname. congruence.
Qed.

Lemma unnamed_condition_is_not_logged_witness :
  let run := example_run (Some unnamed_answer) 7 (Some (lit "log it")) true empty_world in
  let result := value_of [] (fst run) in
  health_conditions (snd run) = health_conditions empty_world
  /\ condition_logs (snd run) = condition_logs empty_world
  /\ memory_loaded 7 empty_world (snd run)
  /\ exists request raw_text d context,
       oracle_saying (Some unnamed_answer) request = Response (Some raw_text)
       /\ example_loads raw_text = Some (JDict d)
       /\ result = dict_set d (lit "memory_context") context
       /\ dict_has result (lit "condition_id") = dict_has d (lit "condition_id")
       /\ dict_has result (lit "is_new_condition") = dict_has d (lit "is_new_condition")
       /\ dict_has result (lit "log_id") = dict_has d (lit "log_id").
Proof.
  apply (unnamed_condition_is_not_logged ucd_fragment example_loads
           (oracle_saying (Some unnamed_answer)) example_py_str
           blank_personality blank_json_rules
           7 (Some (lit "log it")) None None true None
           None (lit "audio/webm") None (lit "image/jpeg") empty_world).
  - vm_compute. reflexivity.
  - reflexivity.
  - reflexivity.
Defined.

(* ================================================================== *)
(** * More on the normalisation *)
(* ================================================================== *)

Lemma is_ascii_map_toupper s : is_ascii s = true -> is_ascii (List.map ascii_toupper s) = true.
Proof.
  rewrite !is_ascii_Forall. intros H. apply Forall_map.
  eapply Forall_impl; [|exact H]. intros c. apply ascii_toupper_lt.
Qed.

Lemma is_ascii_map_tolower s : is_ascii s = true -> is_ascii (List.map ascii_tolower s) = true.
Proof.
  rewrite !is_ascii_Forall. intros H. apply Forall_map.
  eapply Forall_impl; [|exact H]. intros c. apply ascii_tolower_lt.
Qed.

Lemma ascii_lstrip_map f s :
  (forall c, ascii_isspace (f c) = ascii_isspace c) ->
  ascii_lstrip (List.map f s) = List.map f (ascii_lstrip s).
Proof.
  intros Hf. induction s as [|c r IH]; simpl; [reflexivity|].
  rewrite Hf. destruct (ascii_isspace c); [exact IH | reflexivity].
Qed.

Lemma ascii_strip_map f s :
  (forall c, ascii_isspace (f c) = ascii_isspace c) ->
  ascii_strip (List.map f s) = List.map f (ascii_strip s).
Proof.
  intros Hf. unfold ascii_strip.
  now rewrite (ascii_lstrip_map f s Hf), <- map_rev, (ascii_lstrip_map f _ Hf), map_rev.
Qed.

Lemma ascii_toupper_tolower c : ascii_toupper (ascii_tolower c) = ascii_toupper c.
Proof. ascii_cases. Qed.

Lemma ascii_tolower_toupper c : ascii_tolower (ascii_toupper c) = ascii_tolower c.
Proof. ascii_cases. Qed.

Lemma ascii_title_map_toupper s : forall p,
  ascii_title p (List.map ascii_toupper s) = ascii_title p s.
Proof.
  induction s as [|c r IH]; intros p; simpl; [reflexivity|].
  rewrite ascii_isalpha_toupper, IH.
  destruct p; [now rewrite ascii_tolower_toupper | now rewrite ascii_toupper_idem].
Qed.

Lemma ascii_title_map_tolower s : forall p,
  ascii_title p (List.map ascii_tolower s) = ascii_title p s.
Proof.
  induction s as [|c r IH]; intros p; simpl; [reflexivity|].
  rewrite ascii_isalpha_tolower, IH.
  destruct p; [now rewrite ascii_tolower_idem | now rewrite ascii_toupper_tolower].
Qed.

(** X1.  On ASCII names the normalisation does not see the case of the
    letters: a name, the name in upper case and the name in lower case
    normalise alike. *)
Theorem normalise_ignores_case (ucd : UnicodeData) (s : str) :
  ascii_rules ucd ->
  is_ascii s = true ->
  normalise ucd (List.map ascii_toupper s) = normalise ucd s
  /\ normalise ucd (List.map ascii_tolower s) = normalise ucd s.
Proof.
  intros R H.
  rewrite (normalise_ascii ucd _ R (is_ascii_map_toupper s H)).
  rewrite (normalise_ascii ucd _ R (is_ascii_map_tolower s H)).
  rewrite (normalise_ascii ucd s R H).
  rewrite (ascii_strip_map _ s ascii_isspace_toupper).
  rewrite (ascii_strip_map _ s ascii_isspace_tolower).
  split; [apply ascii_title_map_toupper | apply ascii_title_map_tolower].
Qed.

Lemma normalise_ignores_case_witness :
  normalise ucd_fragment (List.map ascii_toupper (lit "Skin rash"))
  = normalise ucd_fragment (lit "Skin rash")
  /\ normalise ucd_fragment (List.map ascii_tolower (lit "Skin rash"))
     = normalise ucd_fragment (lit "Skin rash").
Proof.
  apply (normalise_ignores_case ucd_fragment (lit "Skin rash")).
  - split; intros c Hc; simpl;
      replace (c <? 128) with true by (symmetry; now apply N.ltb_lt); reflexivity.
  - reflexivity.
Defined.

Lemma ascii_lstrip_spaces_app l x :
  forallb ascii_isspace l = true -> ascii_lstrip (l ++ x) = ascii_lstrip x.
Proof.
  induction l as [|c r IH]; simpl; [reflexivity|].
  intros H. apply andb_true_iff in H. destruct H as [Hc Hr]. rewrite Hc. now apply IH.
Qed.

Lemma ascii_lstrip_all_spaces l :
  forallb ascii_isspace l = true -> ascii_lstrip l = [].
Proof.
  intros H. rewrite <- (app_nil_r l). now rewrite ascii_lstrip_spaces_app.
Qed.

Lemma ascii_lstrip_app s r :
  ascii_lstrip s <> [] -> ascii_lstrip (s ++ r) = ascii_lstrip s ++ r.
Proof.
  induction s as [|c t IH]; simpl; [congruence|].
  destruct (ascii_isspace c); [exact IH | reflexivity].
Qed.

Lemma ascii_lstrip_nil_spaces s :
  ascii_lstrip s = [] -> forallb ascii_isspace s = true.
Proof.
  induction s as [|c t IH]; simpl; [reflexivity|].
  destruct (ascii_isspace c); [exact IH | discriminate].
Qed.

Lemma forallb_rev {A} (p : A -> bool) l : forallb p (rev l) = forallb p l.
Proof.
  induction l as [|x r IH]; simpl; [reflexivity|].
  rewrite forallb_app, IH. simpl. rewrite andb_true_r. apply andb_comm.
Qed.

Lemma ascii_strip_outer l s r :
  forallb ascii_isspace l = true -> forallb ascii_isspace r = true ->
  ascii_strip (l ++ s ++ r) = ascii_strip s.
Proof.
  intros Hl Hr. unfold ascii_strip. rewrite (ascii_lstrip_spaces_app l _ Hl).
  destruct (ascii_lstrip s) as [|c t] eqn:E.
  - apply ascii_lstrip_nil_spaces in E.
    rewrite (ascii_lstrip_all_spaces (s ++ r)); [reflexivity|].
    rewrite forallb_app, E, Hr. reflexivity.
  - rewrite ascii_lstrip_app by congruence. rewrite E.
    rewrite rev_app_distr. rewrite ascii_lstrip_spaces_app; [reflexivity|].
    now rewrite forallb_rev.
Qed.

(** X2.  On ASCII names the normalisation does not see whitespace around the
    name. *)
Theorem normalise_ignores_outer_whitespace (ucd : UnicodeData) (l s r : str) :
  ascii_rules ucd ->
  is_ascii s = true ->
  forallb ascii_isspace l = true ->
  forallb ascii_isspace r = true ->
  normalise ucd (l ++ s ++ r) = normalise ucd s.
Proof.
  intros R H Hl Hr.
  assert (A : forall x, forallb ascii_isspace x = true -> is_ascii x = true).
  { intros x Hx. unfold is_ascii. rewrite forallb_forall in *. intros c Hc.
    specialize (Hx c Hc). apply N.ltb_lt. revert Hx. ascii_cases. }
  assert (H' : is_ascii (l ++ s ++ r) = true).
  { unfold is_ascii in *. rewrite !forallb_app. now rewrite (A l Hl), H, (A r Hr). }
  rewrite (normalise_ascii ucd _ R H'), (normalise_ascii ucd s R H).
  now rewrite ascii_strip_outer.
Qed.

Lemma normalise_ignores_outer_whitespace_witness :
  normalise ucd_fragment ([32; 9] ++ lit "back pain" ++ [10; 32; 32])
  = normalise ucd_fragment (lit "back pain").
Proof.
  apply (normalise_ignores_outer_whitespace ucd_fragment [32; 9] (lit "back pain") [10; 32; 32]).
  - split; intros c Hc; simpl;
      replace (c <? 128) with true by (symmetry; now apply N.ltb_lt); reflexivity.
  - reflexivity.
  - reflexivity.
  - reflexivity.
Defined.

(* ================================================================== *)
(** * More on the card service *)
(* ================================================================== *)

Lemma find_by_id_unique l d :
  NoDup (List.map hc_id l) -> In d l ->
  find (fun x => hc_id x =? hc_id d) l = Some d.
Proof.
  intros N Hd.
  destruct (find (fun x => hc_id x =? hc_id d) l) as [x|] eqn:F.
  - apply find_some in F. destruct F as [Hx E]. apply N.eqb_eq in E.
    f_equal. now apply (map_inj_on_NoDup hc_id l).
  - pose proof (find_none _ _ F d Hd) as E. simpl in E. rewrite N.eqb_refl in E.
    discriminate.
Qed.

Lemma update_first_other {A} (p : A -> bool) f l x :
  In x l -> p x = false -> In x (update_first p f l).
Proof.
  induction l as [|y r IH]; simpl; [tauto|].
  intros [->|Hx] Px.
  - rewrite Px. now left.
  - destruct (p y); [now right | right; now apply IH].
Qed.

Lemma update_first_In {A} (p : A -> bool) f l x :
  In x (update_first p f l) -> In x l \/ exists y, In y l /\ p y = true /\ x = f y.
Proof.
  induction l as [|y r IH]; simpl; [tauto|].
  destruct (p y) eqn:Py; simpl.
  - intros [<-|Hx]; [right; exists y; auto | left; now right].
  - intros [<-|Hx]; [left; now left|].
    destruct (IH Hx) as [H|[z [Hz [Pz E]]]]; [left; now right|].
    right. exists z. auto.
Qed.

(** What a call of [find_or_create] returns is what it has stored. *)
Lemma find_or_create_stored ucd u n w card is_new w' :
  store_ok w ->
  find_or_create ucd u n w = (Ok (card, is_new), w') ->
  store_ok w'
  /\ exists d, In d (health_conditions w')
               /\ HealthCondition.id card = Some (hc_id d)
               /\ hc_user_id d = u
               /\ hc_condition_name d
                  = (if is_new then normalise ucd (normalise ucd n) else normalise ucd n)
               /\ hc_log_count d = HealthCondition.log_count card
               /\ hc_status d = ACTIVE
               /\ HealthCondition.status card = ACTIVE.
Proof.
  intros S E. split; [exact (find_or_create_store_ok ucd u n w _ w' S E)|].
  destruct (find (matches_key u (normalise ucd n)) (health_conditions w)) as [d|] eqn:F.
  - apply find_some in F. destruct F as [Hd Hk]. apply matches_key_spec in Hk.
    apply (find_or_create_found ucd u n w d) in E; [|apply S|exact Hd|exact Hk].
    destruct E as [_ [_ [-> [Hid [Hcount [Hstatus Hcards]]]]]].
    exists (set_after_log card d). split.
    { rewrite Hcards. apply update_first_In_id; [apply S | exact Hd]. }
    unfold card_key in Hk. inversion Hk. simpl. auto 10.
  - apply find_matches_key_none in F.
    apply (find_or_create_created ucd u n w) in E; [|exact F].
    destruct E as [-> [Hid [Hu [Hname [Hcount [Hstatus [_ [Hcards _]]]]]]]].
    exists (HealthCondition.to_dict card (next_oid w)). split.
    { rewrite Hcards. apply in_or_app. right. now left. }
    simpl. auto 10.
Qed.

(** X3.  Two spellings that normalise alike are one condition: after the
    first report has created the card, a report under the other spelling
    finds it, does not create a second one, and brings its count to 2. *)
Theorem spellings_share_a_card (ucd : UnicodeData) (u : ObjectId) (s s' : str)
    (w w1 w2 : World) (r1 r2 : HealthCondition.t * bool) :
  store_ok w ->
  cards_for u (normalise ucd s) w = 0%nat ->
  normalise ucd (normalise ucd s) = normalise ucd s ->
  normalise ucd s' = normalise ucd s ->
  find_or_create ucd u s w = (Ok r1, w1) ->
  find_or_create ucd u s' w1 = (Ok r2, w2) ->
  snd r1 = true
  /\ snd r2 = false
  /\ HealthCondition.id (fst r2) = HealthCondition.id (fst r1)
  /\ HealthCondition.log_count (fst r2) = 2%Z
  /\ cards_for u (normalise ucd s) w2 = 1%nat.
Proof.
  intros S Z Idem Same E1 E2. destruct r1 as [c1 n1], r2 as [c2 n2]. simpl.
  apply cards_for_zero in Z.
  pose proof (find_or_create_stored ucd u s w c1 n1 w1 S E1) as [S1 [d [Hd [Hid [Hu [Hn [Hc _]]]]]]].
  apply (find_or_create_created ucd u s w) in E1 as C; [|exact Z].
  destruct C as [-> [_ [_ [_ [Hcount _]]]]].
  rewrite Idem in Hn.
  assert (Hk : card_key d = (u, normalise ucd s')) by (unfold card_key; congruence).
  pose proof (find_or_create_stored ucd u s' w1 c2 n2 w2 S1 E2) as [S2 [d2 [Hd2 [_ [Hu2 [Hn2 _]]]]]].
  apply (find_or_create_found ucd u s' w1 d) in E2; [|apply S1|exact Hd|exact Hk].
  destruct E2 as [_ [_ [-> [Hid2 [Hcount2 _]]]]].
  repeat split; try congruence.
  - rewrite Hcount2, Hc, Hcount. reflexivity.
  - apply cards_for_one; [apply S2|]. unfold card_keys.
    replace (u, normalise ucd s) with (card_key d2); [now apply in_map|].
    unfold card_key. congruence.
Qed.

Lemma spellings_share_a_card_witness :
  let run1 := find_or_create ucd_fragment 7 (lit "back pain") empty_world in
  let run2 := find_or_create ucd_fragment 7 (lit "  BACK PAIN") (snd run1) in
  let r1 := value_of ({| HealthCondition.id := None; HealthCondition.user_id := 0;
                         HealthCondition.condition_name := [];
                         HealthCondition.status := ACTIVE; HealthCondition.log_count := 0;
                         HealthCondition.first_reported := 0;
                         HealthCondition.last_reported := 0;
                         HealthCondition.created_at := 0;
                         HealthCondition.updated_at := 0 |}, false) (fst run1) in
  let r2 := value_of r1 (fst run2) in
  snd r1 = true
  /\ snd r2 = false
  /\ HealthCondition.id (fst r2) = HealthCondition.id (fst r1)
  /\ HealthCondition.log_count (fst r2) = 2%Z
  /\ cards_for 7 (normalise ucd_fragment (lit "back pain")) (snd run2) = 1%nat.
Proof.
  intros run1 run2 r1 r2.
  apply (spellings_share_a_card ucd_fragment 7 (lit "back pain") (lit "  BACK PAIN")
           empty_world (snd run1) (snd run2) r1 r2).
  - split; simpl; constructor.
  - reflexivity.
  - reflexivity.
  - reflexivity.
  - reflexivity.
  - reflexivity.
Defined.

Lemma from_dict_run ucd d w :
  HealthCondition.from_dict ucd d w
  = (Ok {| HealthCondition.id := Some (hc_id d);
           HealthCondition.user_id := hc_user_id d;
           HealthCondition.condition_name := normalise ucd (hc_condition_name d);
           HealthCondition.status := hc_status d;
           HealthCondition.log_count := hc_log_count d;
           HealthCondition.first_reported := hc_first_reported d;
           HealthCondition.last_reported := hc_last_reported d;
           HealthCondition.created_at := hc_created_at d;
           HealthCondition.updated_at := hc_updated_at d |},
     with_clock w (N.succ (clock w))).
Proof. reflexivity. Qed.

(** X4.  A card that [find_or_create] has returned is found again by
    [get_condition_by_name] under the same name, with the same id, count and
    status, when the normalisation is idempotent on the name. *)
Theorem found_by_name_after_report (ucd : UnicodeData) (u : ObjectId) (n : str)
    (w w1 : World) (card : HealthCondition.t) (is_new : bool) :
  store_ok w ->
  normalise ucd (normalise ucd n) = normalise ucd n ->
  find_or_create ucd u n w = (Ok (card, is_new), w1) ->
  outage w1 = None ->
  exists c w2,
    get_condition_by_name ucd u n w1 = (Ok (Some c), w2)
    /\ HealthCondition.id c = HealthCondition.id card
    /\ HealthCondition.user_id c = u
    /\ HealthCondition.condition_name c = normalise ucd n
    /\ HealthCondition.log_count c = HealthCondition.log_count card
    /\ HealthCondition.status c = HealthCondition.status card
    /\ health_conditions w2 = health_conditions w1.
Proof.
  intros S Idem E O.
  destruct (find_or_create_stored ucd u n w card is_new w1 S E)
    as [S1 [d [Hd [Hid [Hu [Hn [Hc [Hs Hs']]]]]]]].
  assert (Hname : hc_condition_name d = normalise ucd n)
    by (destruct is_new; congruence).
  assert (F : find (matches_key u (normalise ucd n)) (health_conditions w1) = Some d).
  { apply find_unique_key; [apply S1 | exact Hd | unfold card_key; congruence]. }
  destruct w1 as [hc cl mm oid clk out]. simpl in O, F. subst out.
  unfold get_condition_by_name, hc_find_one, bind. cbn. rewrite F. cbn.
  do 2 eexists. split; [reflexivity|]. cbn.
  rewrite Hname, Idem. repeat split; congruence.
Qed.

Lemma found_by_name_after_report_witness :
  let run := find_or_create ucd_fragment 7 (lit " migraine ") empty_world in
  exists c w2,
    get_condition_by_name ucd_fragment 7 (lit " migraine ") (snd run) = (Ok (Some c), w2)
    /\ HealthCondition.id c = Some 1
    /\ HealthCondition.user_id c = 7
    /\ HealthCondition.condition_name c = normalise ucd_fragment (lit " migraine ")
    /\ HealthCondition.log_count c = 1%Z
    /\ HealthCondition.status c = ACTIVE
    /\ health_conditions w2 = health_conditions (snd run).
Proof.
  intros run.
  apply (found_by_name_after_report ucd_fragment 7 (lit " migraine ") empty_world (snd run)
           {| HealthCondition.id := Some 1; HealthCondition.user_id := 7;
              HealthCondition.condition_name := lit "Migraine";
              HealthCondition.status := ACTIVE; HealthCondition.log_count := 1;
              HealthCondition.first_reported := 0; HealthCondition.last_reported := 0;
              HealthCondition.created_at := 1; HealthCondition.updated_at := 1 |} true).
  - split; simpl; constructor.
  - reflexivity.
  - reflexivity.
  - reflexivity.
Defined.

(** ** [resolve_condition] *)

Lemma set_after_resolve_key card d : card_key (set_after_resolve card d) = card_key d.
Proof. reflexivity. Qed.

Lemma set_after_resolve_id card d : hc_id (set_after_resolve card d) = hc_id d.
Proof. reflexivity. Qed.

(** X5.  [resolve_condition] on the id of a stored card, with the server
    up: that card is stored as resolved, with its count, name, owner and
    report dates as they were; every other card is as it was, and the index
    still holds.  A card that was resolved already stays resolved. *)
Theorem resolve_marks_one_card (ucd : UnicodeData) (w : World) (d : HealthConditionDoc) :
  store_ok w ->
  outage w = None ->
  In d (health_conditions w) ->
  exists card w' d',
    resolve_condition ucd (hc_id d) w = (Ok (Some card), w')
    /\ HealthCondition.status card = RESOLVED
    /\ HealthCondition.log_count card = hc_log_count d
    /\ In d' (health_conditions w')
    /\ hc_id d' = hc_id d
    /\ hc_status d' = RESOLVED
    /\ (hc_user_id d', hc_condition_name d', hc_log_count d',
        hc_first_reported d', hc_last_reported d', hc_created_at d')
       = (hc_user_id d, hc_condition_name d, hc_log_count d,
          hc_first_reported d, hc_last_reported d, hc_created_at d)
    /\ (forall x, In x (health_conditions w) -> hc_id x <> hc_id d ->
                  In x (health_conditions w'))
    /\ List.length (health_conditions w') = List.length (health_conditions w)
    /\ store_ok w'.
Proof.
  intros S O Hd.
  pose proof (find_by_id_unique _ d (ok_ids w S) Hd) as F.
  destruct w as [hc cl mm oid clk out]. simpl in O, F, Hd. subst out.
  unfold resolve_condition, get_condition_by_id, hc_find_one, hc_update_one, bind.
  cbn. rewrite F. cbn.
  do 2 eexists. eexists (set_after_resolve _ d).
  split; [reflexivity|]. cbn.
  split; [reflexivity|]. split; [reflexivity|].
  split; [apply update_first_In_id; [apply S | exact Hd]|].
  split; [reflexivity|]. split; [reflexivity|]. split; [reflexivity|].
  split.
  { intros x Hx Ne. apply update_first_other; [exact Hx|]. now apply N.eqb_neq. }
  split; [apply update_first_length|].
  destruct S as [K I Fr]. split.
  - unfold unique_index, card_keys in *. cbn in *.
    now rewrite (update_first_map card_key _ _ hc (set_after_resolve_key _)).
  - unfold card_ids in *. cbn in *.
    now rewrite (update_first_map hc_id _ _ hc (set_after_resolve_id _)).
  - unfold card_ids in *. cbn in *.
    now rewrite (update_first_map hc_id _ _ hc (set_after_resolve_id _)).
Qed.

Lemma resolve_marks_one_card_witness :
  let w := snd (find_or_create ucd_fragment 7 (lit "headache") empty_world) in
  let d := {| hc_id := 1; hc_user_id := 7; hc_condition_name := lit "Headache";
              hc_status := ACTIVE; hc_log_count := 1;
              hc_first_reported := 0; hc_last_reported := 0;
              hc_created_at := 1; hc_updated_at := 1 |} in
  exists card w' d',
    resolve_condition ucd_fragment 1 w = (Ok (Some card), w')
    /\ HealthCondition.status card = RESOLVED
    /\ HealthCondition.log_count card = 1%Z
    /\ In d' (health_conditions w')
    /\ hc_id d' = 1
    /\ hc_status d' = RESOLVED
    /\ (hc_user_id d', hc_condition_name d', hc_log_count d',
        hc_first_reported d', hc_last_reported d', hc_created_at d')
       = (7, lit "Headache", 1%Z, 0, 0, 1)
    /\ (forall x, In x (health_conditions w) -> hc_id x <> 1 ->
                  In x (health_conditions w'))
    /\ List.length (health_conditions w') = List.length (health_conditions w)
    /\ store_ok w'.
Proof.
  intros w d.
  apply (resolve_marks_one_card ucd_fragment w d).
  - split; vm_compute; repeat constructor; simpl; tauto.
  - reflexivity.
  - vm_compute. left. reflexivity.
Defined.

(** X6.  [resolve_condition] on an id that no card has returns [None], or
    raises when the server is away, and leaves every collection as it is. *)
Theorem resolve_unknown_changes_nothing (ucd : UnicodeData) (condition_id : ObjectId)
    (w : World) (r : Outcome (option HealthCondition.t)) (w' : World) :
  ~ In condition_id (card_ids w) ->
  resolve_condition ucd condition_id w = (r, w') ->
  (r = Ok None \/ r = Raise (LibraryError ConnectionFailure))
  /\ health_conditions w' = health_conditions w
  /\ condition_logs w' = condition_logs w
  /\ mascot_memory w' = mascot_memory w.
Proof.
  intros N.
  assert (F : find (fun x => hc_id x =? condition_id) (health_conditions w) = None).
  { destruct (find _ (health_conditions w)) as [x|] eqn:F; [|reflexivity].
    apply find_some in F. destruct F as [Hx E]. apply N.eqb_eq in E.
    exfalso. apply N. rewrite <- E. unfold card_ids. now apply in_map. }
  destruct w as [hc cl mm oid clk out]. simpl in F.
  unfold resolve_condition, get_condition_by_id, hc_find_one, bind. cbn.
  destruct out as [[|k]|]; cbn; try rewrite F; cbn;
    intros H; inversion H; subst; cbn; auto.
Qed.

Lemma resolve_unknown_changes_nothing_witness :
  (@Ok (option HealthCondition.t) None = Ok None
   \/ @Ok (option HealthCondition.t) None = Raise (LibraryError ConnectionFailure))
  /\ health_conditions empty_world = health_conditions empty_world
  /\ condition_logs empty_world = condition_logs empty_world
  /\ mascot_memory empty_world = mascot_memory empty_world.
Proof.
  apply (resolve_unknown_changes_nothing ucd_fragment 42 empty_world (Ok None) empty_world).
  - simpl. tauto.
  - reflexivity.
Defined.

(** ** Deleting cards *)

Lemma remove_first_by_id {A} (f : A -> N) (a : N) (l : list A) :
  NoDup (List.map f l) ->
  remove_first (fun x => f x =? a) l
  = (filter (fun x => negb (f x =? a)) l,
     if existsb (fun x => f x =? a) l then 1%nat else 0%nat).
Proof.
  induction l as [|x r IH]; simpl; [reflexivity|].
  intros N. inversion N as [|? ? Hx Hr]; subst.
  destruct (f x =? a) eqn:E; simpl.
  - apply N.eqb_eq in E. f_equal.
    symmetry. apply forallb_filter_id. apply forallb_forall. intros y Hy.
    apply negb_true_iff, N.eqb_neq. intros E'. apply Hx. rewrite E, <- E'.
    now apply in_map.
  - rewrite (IH Hr). reflexivity.
Qed.

Lemma NoDup_map_filter {A B} (f : A -> B) (p : A -> bool) l :
  NoDup (List.map f l) -> NoDup (List.map f (filter p l)).
Proof.
  induction l as [|x r IH]; simpl; [auto|].
  intros N. inversion N as [|? ? Hx Hr]; subst.
  destruct (p x); simpl; [|now apply IH].
  constructor; [|now apply IH].
  intros H. apply Hx. apply in_map_iff in H. destruct H as [y [E Hy]].
  apply filter_In in Hy. rewrite <- E. apply in_map. tauto.
Qed.

Lemma store_ok_filter w w' p :
  store_ok w ->
  health_conditions w' = filter p (health_conditions w) ->
  next_oid w' = next_oid w ->
  store_ok w'.
Proof.
  intros [K I F] Hc Hn. split.
  - unfold unique_index, card_keys. rewrite Hc. now apply NoDup_map_filter.
  - unfold card_ids. rewrite Hc. now apply NoDup_map_filter.
  - unfold card_ids in *. rewrite Hc, Hn. rewrite Forall_forall in *.
    intros i Hi. apply F. apply in_map_iff in Hi. destruct Hi as [x [E Hx]].
    apply filter_In in Hx. rewrite <- E. apply in_map. tauto.
Qed.

(** X7.  [delete_condition], when the call returns: it says [True] exactly
    when a card had the id; afterwards no card has the id, every other card
    is still there, and nothing else is stored. *)
Theorem delete_removes_the_card (condition_id : ObjectId) (w : World) (deleted : bool)
    (w' : World) :
  store_ok w ->
  delete_condition condition_id w = (Ok deleted, w') ->
  (deleted = true <-> In condition_id (card_ids w))
  /\ ~ In condition_id (card_ids w')
  /\ (forall x, In x (health_conditions w') <->
                In x (health_conditions w) /\ hc_id x <> condition_id)
  /\ store_ok w'.
Proof.
  intros S.
  destruct w as [hc cl mm oid clk out].
  unfold delete_condition, bind. cbn.
  pose proof (remove_first_by_id hc_id condition_id hc (ok_ids _ S)) as R.
  assert (Ex : existsb (fun x => hc_id x =? condition_id) hc = true
               <-> In condition_id (List.map hc_id hc)).
  { rewrite existsb_exists, in_map_iff. split; intros [x [A B]]; exists x.
    - apply N.eqb_eq in B. auto.
    - split; [exact B | now apply N.eqb_eq]. }
  assert (Mem : forall x, In x (filter (fun x => negb (hc_id x =? condition_id)) hc)
                          <-> In x hc /\ hc_id x <> condition_id).
  { intros x. rewrite filter_In, negb_true_iff, N.eqb_neq. tauto. }
  destruct out as [[|k]|]; cbn; try rewrite R; cbn.
  all: intros H; inversion H; subst; clear H; cbn.
  all: split;
    [destruct (existsb (fun x => hc_id x =? condition_id) hc) eqn:X; simpl;
     [split; [intros _; now apply Ex | reflexivity]
     |split; [discriminate | intros I; apply Ex in I; discriminate]]|].
  all: split;
    [intros I; apply in_map_iff in I; destruct I as [x [E Hx]];
     apply Mem in Hx; destruct Hx as [_ Hx]; now apply Hx|].
  all: split; [exact Mem|].
  all: eapply store_ok_filter; [exact S | reflexivity | reflexivity].
Qed.

Lemma delete_removes_the_card_witness :
  let w := snd (find_or_create ucd_fragment 7 (lit "headache") empty_world) in
  let w' := snd (delete_condition 1 w) in
  (true = true <-> In 1 (card_ids w))
  /\ ~ In 1 (card_ids w')
  /\ (forall x, In x (health_conditions w') <->
                In x (health_conditions w) /\ hc_id x <> 1)
  /\ store_ok w'.
Proof.
  intros w w'.
  apply (delete_removes_the_card 1 w true w').
  - split; vm_compute; repeat constructor; simpl; tauto.
  - reflexivity.
Defined.

(** X8.  [delete_all_for_user] returns the number of cards the user had,
    which is what [count_conditions_for_user] reported just before; after it
    the user has no card and the cards of the other users are all there. *)
Theorem delete_all_removes_the_users_cards (user_id : ObjectId) (w w1 w2 : World)
    (total deleted : nat) :
  count_conditions_for_user user_id None w = (Ok total, w1) ->
  delete_all_conditions_for_user user_id w1 = (Ok deleted, w2) ->
  deleted = total
  /\ (forall x, In x (health_conditions w2) <->
                In x (health_conditions w) /\ hc_user_id x <> user_id)
  /\ List.length (filter (user_query user_id None) (health_conditions w2)) = 0%nat.
Proof.
  destruct w as [hc cl mm oid clk out].
  unfold count_conditions_for_user, delete_all_conditions_for_user, remove_all, bind.
  assert (Q : forall l, filter (user_query user_id None) l
                        = filter (fun d => hc_user_id d =? user_id) l).
  { intros l. apply filter_ext. intros d. unfold user_query. apply andb_true_r. }
  assert (Mem : forall x, In x (filter (fun x => negb (hc_user_id x =? user_id)) hc)
                          <-> In x hc /\ hc_user_id x <> user_id).
  { intros x. rewrite filter_In, negb_true_iff, N.eqb_neq. tauto. }
  assert (Z : filter (fun d => hc_user_id d =? user_id)
                (filter (fun x => negb (hc_user_id x =? user_id)) hc) = []).
  { induction hc as [|x r IH]; simpl; [reflexivity|].
    destruct (hc_user_id x =? user_id) eqn:E; simpl; [apply IH; intros y; now rewrite filter_In, negb_true_iff, N.eqb_neq|].
    rewrite E. apply IH. intros y. now rewrite filter_In, negb_true_iff, N.eqb_neq. }
  cbn. destruct out as [[|[|k]]|]; cbn; intros H1; inversion H1; subst; clear H1; cbn;
    intros H2; inversion H2; subst; clear H2; cbn;
    rewrite (Q hc), (Q (filter _ hc)), Z; auto.
Qed.

Lemma delete_all_removes_the_users_cards_witness :
  let w := snd (find_or_create_times ucd_fragment 2 7 (lit "headache")
                  (snd (find_or_create ucd_fragment 8 (lit "rash") empty_world))) in
  let w1 := snd (count_conditions_for_user 7 None w) in
  let w2 := snd (delete_all_conditions_for_user 7 w1) in
  1%nat = 1%nat
  /\ (forall x, In x (health_conditions w2) <->
                In x (health_conditions w) /\ hc_user_id x <> 7)
  /\ List.length (filter (user_query 7 None) (health_conditions w2)) = 0%nat.
Proof.
  intros w w1 w2.
  apply (delete_all_removes_the_users_cards 7 w w1 w2 1 1); vm_compute; reflexivity.
Defined.

(** ** Listing the cards *)

Lemma insert_desc_perm {A} (key : A -> N) x l :
  Permutation (insert_desc key x l) (x :: l).
Proof.
  induction l as [|y r IH]; simpl; [reflexivity|].
  destruct (key y <=? key x); [reflexivity|].
  rewrite IH. apply perm_swap.
Qed.

Lemma sort_desc_perm {A} (key : A -> N) l : Permutation (sort_desc key l) l.
Proof.
  induction l as [|x r IH]; simpl; [reflexivity|].
  rewrite insert_desc_perm. now constructor.
Qed.

Lemma insert_desc_sorted {A} (key : A -> N) x l :
  descending key l -> descending key (insert_desc key x l).
Proof.
  unfold descending. induction 1 as [|y r Hr IH Hy]; simpl.
  - repeat constructor.
  - destruct (N.leb_spec (key y) (key x)) as [L|L].
    + constructor; [now constructor|].
      constructor; [exact L|].
      eapply Forall_impl; [|exact Hy]. simpl. intros; lia.
    + constructor; [exact IH|].
      eapply Permutation_Forall; [symmetry; apply insert_desc_perm|].
      constructor; [lia | exact Hy].
Qed.

Lemma sort_desc_sorted {A} (key : A -> N) l : descending key (sort_desc key l).
Proof.
  induction l as [|x r IH]; simpl; [constructor | now apply insert_desc_sorted].
Qed.

Lemma hydrate_all_run ucd docs : forall w,
  exists w', hydrate_all ucd docs w = (Ok (List.map (card_of_doc ucd) docs), w')
             /\ health_conditions w' = health_conditions w
             /\ condition_logs w' = condition_logs w
             /\ mascot_memory w' = mascot_memory w
             /\ outage w' = outage w.
Proof.
  induction docs as [|d r IH]; intros w; simpl.
  - exists w. auto.
  - unfold bind. rewrite from_dict_run.
    destruct (IH (with_clock w (N.succ (clock w)))) as [w' [E [H1 [H2 [H3 H4]]]]].
    rewrite E. exists w'. auto.
Qed.

Lemma descending_map {A B} (f : A -> B) (kb : B -> N) (ka : A -> N) l :
  (forall a, kb (f a) = ka a) -> descending ka l -> descending kb (List.map f l).
Proof.
  intros H. unfold descending. induction 1 as [|x r Hr IH Hx]; simpl; constructor.
  - exact IH.
  - apply Forall_map. eapply Forall_impl; [|exact Hx].
    simpl. intros a Ha. now rewrite !H.
Qed.

(** X9.  [GET /api/conditions]: the cards returned are the user's cards of
    the status asked for, each once, the most recently reported first, and
    [total] is their number; a status other than "active" or "resolved"
    filters nothing.  Listing stores nothing. *)
Theorem horizon_is_sorted_and_counted (ucd : UnicodeData) (user_id : ObjectId)
    (status_filter : option str) (w : World)
    (cards : list HealthCondition.t) (total : nat) (w' : World) :
  get_my_conditions ucd user_id status_filter w = (Ok (cards, total), w') ->
  total = List.length cards
  /\ descending HealthCondition.last_reported cards
  /\ Permutation
       (List.map HealthCondition.id cards)
       (List.map (fun d => Some (hc_id d))
          (filter (user_query user_id (parse_status_filter status_filter))
                  (health_conditions w)))
  /\ Forall (fun c => HealthCondition.user_id c = user_id) cards
  /\ (forall st, parse_status_filter status_filter = Some st ->
                 Forall (fun c => HealthCondition.status c = st) cards)
  /\ health_conditions w' = health_conditions w.
Proof.
  set (status := parse_status_filter status_filter).
  unfold get_my_conditions, get_conditions_for_user, count_conditions_for_user.
  fold status. intros H.
  apply bind_ok_inv in H. destruct H as [cs [w3 [G H]]].
  apply bind_ok_inv in G. destruct G as [[] [w1 [R1 G]]].
  apply bind_ok_inv in G. destruct G as [docs [w1' [D G]]].
  inversion D; subst docs w1'. clear D.
  set (docs := sort_desc hc_last_reported
                 (filter (user_query user_id status) (health_conditions w1))) in *.
  destruct (hydrate_all_run ucd docs w1) as [w2 [E [C2 _]]].
  rewrite E in G. inversion G; subst cs w3. clear G.
  apply bind_ok_inv in H. destruct H as [t [w4 [T H]]].
  apply bind_ok_inv in T. destruct T as [[] [w3 [R3 T]]].
  inversion T; subst t w4. clear T.
  unfold ret in H. inversion H; subst cards total w'. clear H.
  assert (C1 : health_conditions w1 = health_conditions w).
  { exact (round_trip_preserves health_conditions (fun _ _ => eq_refl) _ _ _ R1). }
  assert (C3 : health_conditions w3 = health_conditions w2).
  { exact (round_trip_preserves health_conditions (fun _ _ => eq_refl) _ _ _ R3). }
  assert (P : Permutation docs (filter (user_query user_id status) (health_conditions w))).
  { unfold docs. rewrite C1. apply sort_desc_perm. }
  split.
  { rewrite length_map, C3, C2, C1. apply Permutation_length. now symmetry. }
  split.
  { apply (descending_map (card_of_doc ucd) _ hc_last_reported); [reflexivity|].
    apply sort_desc_sorted. }
  split.
  { rewrite map_map. simpl. now apply Permutation_map. }
  assert (All : Forall (fun d => user_query user_id status d = true) docs).
  { eapply Permutation_Forall; [symmetry; exact P|].
    apply Forall_forall. intros d Hd. apply filter_In in Hd. tauto. }
  split.
  { apply Forall_map. eapply Forall_impl; [|exact All]. simpl. intros d Hd.
    unfold user_query in Hd. apply andb_true_iff in Hd. now apply N.eqb_eq. }
  split.
  { intros st Hst. apply Forall_map. eapply Forall_impl; [|exact All]. simpl.
    intros d Hd. unfold user_query in Hd. rewrite Hst in Hd.
    apply andb_true_iff in Hd. destruct Hd as [_ Hd].
    destruct st, (hc_status d); congruence. }
  congruence.
Qed.

Lemma horizon_is_sorted_and_counted_witness :
  let w := snd (find_or_create ucd_fragment 7 (lit "headache")
                  (snd (find_or_create ucd_fragment 7 (lit "rash") empty_world))) in
  let run := get_my_conditions ucd_fragment 7 (Some (lit "active")) w in
  let cards := fst (value_of ([], 0%nat) (fst run)) in
  2%nat = List.length cards
  /\ descending HealthCondition.last_reported cards
  /\ Permutation
       (List.map HealthCondition.id cards)
       (List.map (fun d => Some (hc_id d))
          (filter (user_query 7 (parse_status_filter (Some (lit "active"))))
                  (health_conditions w)))
  /\ Forall (fun c => HealthCondition.user_id c = 7) cards
  /\ (forall st, parse_status_filter (Some (lit "active")) = Some st ->
                 Forall (fun c => HealthCondition.status c = st) cards)
  /\ health_conditions (snd run) = health_conditions w.
Proof.
  intros w run cards.
  apply (horizon_is_sorted_and_counted ucd_fragment 7 (Some (lit "active")) w cards 2 (snd run)).
  vm_compute. reflexivity.
Defined.

(** X10.  A call of [find_or_create], however it ends, removes no card and
    leaves the id, the owner, the name, the first report and the creation
    date of every card as they are; a card of another user or another name
    is not changed at all. *)
Theorem report_leaves_other_cards (ucd : UnicodeData) (u : ObjectId) (n : str)
    (w : World) (r : Outcome (HealthCondition.t * bool)) (w' : World)
    (x : HealthConditionDoc) :
  store_ok w ->
  find_or_create ucd u n w = (r, w') ->
  In x (health_conditions w) ->
  exists x',
    In x' (health_conditions w')
    /\ hc_id x' = hc_id x
    /\ card_key x' = card_key x
    /\ hc_first_reported x' = hc_first_reported x
    /\ hc_created_at x' = hc_created_at x
    /\ (card_key x <> (u, normalise ucd n) -> x' = x).
Proof.
  intros S E Hx. rewrite find_or_create_unfold in E.
  destruct (find_or_create_lookup ucd u n w) as [[l|e] w1] eqn:L;
    apply lookup_spec in L; destruct L as [Hc [_ [_ Hr]]].
  - destruct Hr as [_ Hdoc]. destruct (lk_doc l) as [d|] eqn:D.
    + symmetry in Hdoc. apply find_some in Hdoc. destruct Hdoc as [Hd Hk].
      apply matches_key_spec in Hk.
      apply (write_found_spec ucd u l d) in E; [|exact D].
      destruct E as [_ [_ Hr]]. destruct r as [[card is_new]|e].
      * destruct Hr as [_ [_ [_ [_ [_ Hcards]]]]]. rewrite Hc in Hcards.
        destruct (hc_id x =? hc_id d) eqn:I.
        -- apply N.eqb_eq in I.
           assert (x = d) by (apply (map_inj_on_NoDup hc_id (health_conditions w));
                              auto; apply S). subst x.
           exists (set_after_log card d). split.
           { rewrite Hcards. apply update_first_In_id; [apply S | exact Hd]. }
           repeat split. intros Ne. contradiction.
        -- exists x. split; [rewrite Hcards; now apply update_first_other|].
           repeat split.
      * destruct Hr as [_ Hcards]. exists x. rewrite Hcards, Hc. repeat split; auto.
    + apply (write_missing_spec ucd u l) in E; [|exact D].
      destruct E as [_ Hr]. destruct r as [[card is_new]|e].
      * destruct Hr as [_ [_ [_ [_ [_ [_ [_ [Hcards _]]]]]]]].
        exists x. rewrite Hcards, Hc. split; [apply in_or_app; now left|]. repeat split.
      * destruct Hr as [Hcards _]. exists x. rewrite Hcards, Hc. repeat split; auto.
  - inversion E; subst. exists x. rewrite Hc. repeat split; auto.
Qed.

Lemma report_leaves_other_cards_witness :
  let w := snd (find_or_create ucd_fragment 7 (lit "rash") empty_world) in
  let run := find_or_create ucd_fragment 7 (lit "headache") w in
  let x := {| hc_id := 1; hc_user_id := 7; hc_condition_name := lit "Rash";
              hc_status := ACTIVE; hc_log_count := 1;
              hc_first_reported := 0; hc_last_reported := 0;
              hc_created_at := 1; hc_updated_at := 1 |} in
  exists x',
    In x' (health_conditions (snd run))
    /\ hc_id x' = hc_id x
    /\ card_key x' = card_key x
    /\ hc_first_reported x' = hc_first_reported x
    /\ hc_created_at x' = hc_created_at x
    /\ (card_key x <> (7, normalise ucd_fragment (lit "headache")) -> x' = x).
Proof.
  intros w run x.
  apply (report_leaves_other_cards ucd_fragment 7 (lit "headache") w (fst run) (snd run) x).
  - split; vm_compute; repeat constructor; simpl; tauto.
  - vm_compute. reflexivity.
  - vm_compute. left. reflexivity.
Defined.

(* ================================================================== *)
(** * More on the memory *)
(* ================================================================== *)

Lemma find_update_first_same {A} (ident : A -> N) (p : A -> bool) f l d :
  NoDup (List.map ident l) ->
  find p l = Some d ->
  (forall x, p (f x) = p x) ->
  find p (update_first (fun x => ident x =? ident d) f l) = Some (f d).
Proof.
  intros N F Pf. induction l as [|x r IH]; simpl in *; [discriminate|].
  inversion N as [|? ? Hx Hr]; subst.
  destruct (p x) eqn:Px.
  - inversion F; subst x. rewrite N.eqb_refl. simpl. now rewrite Pf, Px.
  - assert (Hd : In d r) by (apply find_some in F; tauto).
    destruct (ident x =? ident d) eqn:E.
    + apply N.eqb_eq in E. exfalso. apply Hx. rewrite E. now apply in_map.
    + simpl. rewrite Px. now apply IH.
Qed.

Lemma find_update_first_other {A} (q p : A -> bool) f l :
  (forall x, In x l -> q x = true -> p x = false /\ p (f x) = false) ->
  find p (update_first q f l) = find p l.
Proof.
  induction l as [|x r IH]; simpl; [reflexivity|].
  intros H. destruct (q x) eqn:Q; simpl.
  - destruct (H x (or_introl eq_refl) Q) as [P1 P2]. now rewrite P1, P2.
  - destruct (p x); [reflexivity|]. apply IH. intros y Hy. apply H. now right.
Qed.

Lemma update_first_app_last {A} (q : A -> bool) f l x :
  Forall (fun y => q y = false) l -> q x = true ->
  update_first q f (l ++ [x]) = l ++ [f x].
Proof.
  intros H Q. induction H as [|y r Hy Hr IH]; simpl.
  - now rewrite Q.
  - now rewrite Hy, IH.
Qed.

Lemma find_app_last {A} (p : A -> bool) l x :
  find p (l ++ [x]) = match find p l with
                      | Some y => Some y
                      | None => if p x then Some x else None
                      end.
Proof.
  induction l as [|y r IH]; simpl; [reflexivity|].
  destruct (p y); [reflexivity | exact IH].
Qed.

Lemma fresh_not_stored {A} (ident : A -> N) l n :
  Forall (fun i => i < n) (List.map ident l) ->
  Forall (fun y => (ident y =? n) = false) l.
Proof.
  intros H. apply Forall_forall. intros y Hy. apply N.eqb_neq.
  rewrite Forall_forall in H. specialize (H (ident y) (in_map ident l y Hy)). lia.
Qed.

(** The end of a proof about a call that loads a memory, changes it and
    saves it, once the call is known to have returned: [Fd] says whether the
    user had a memory. *)
Ltac load_modify_save I F Fd :=
  match goal with
  | Fd : find _ ?mm = Some ?d |- _ =>
      rewrite (find_update_first_same mm_id _ _ mm d I Fd) by reflexivity; cbn;
      split; [reflexivity|]; split; [reflexivity|]; split; [reflexivity|];
      split;
      [intros v Hv; apply find_update_first_other; intros x Hx E;
       apply N.eqb_eq in E;
       assert (x = d) by (apply (map_inj_on_NoDup mm_id mm); auto;
                          apply find_some in Fd; tauto);
       subst x; cbn; apply find_some in Fd; destruct Fd as [_ Fu];
       apply N.eqb_eq in Fu; rewrite Fu;
       split; apply N.eqb_neq; congruence|];
      split; [split; cbn; rewrite (update_first_map mm_id); auto|];
      split; reflexivity
  | Fd : find _ ?mm = None |- _ =>
      rewrite (update_first_app_last _ _ mm _ (fresh_not_stored mm_id mm _ F))
        by (cbn; apply N.eqb_refl);
      rewrite find_app_last, Fd; cbn; rewrite N.eqb_refl; cbn;
      split; [reflexivity|]; split; [reflexivity|]; split; [reflexivity|];
      split;
      [intros v Hv; rewrite find_app_last; cbn;
       destruct (find (fun d => mm_user_id d =? v) mm); [reflexivity|];
       match goal with
       | |- context [?u =? v] =>
           replace (u =? v) with false;
           [reflexivity | symmetry; apply N.eqb_neq; congruence]
       end|];
      split;
      [split; cbn; rewrite map_app; cbn;
       [apply NoDup_app; [exact I | constructor; [simpl; tauto | constructor] |];
        let x := fresh "x" in
        let Hx := fresh "Hx" in
        intros x Hx [<-|[]]; rewrite Forall_forall in F; specialize (F _ Hx); lia
       |apply Forall_app; split;
        [eapply Forall_impl; [|exact F]; simpl; intros; lia
        |constructor; [lia | constructor]]]|];
      split; reflexivity
  end.

(** The case of a call that has returned: the server was up at each of its
    round trips and the driver could encode the update. *)
Ltac not_returned :=
  let H := fresh "H" in intros H; discriminate H.

Ltac returned Enc :=
  match goal with
  | |- context [if ?b then _ else _] => destruct b eqn:Enc
  end; cbn; [|not_returned];
  let H := fresh "H" in
  intros H; inversion H; subst; clear H; cbn.

(** X11.  [append_to_summary], when it returns: the user's stored summary
    is the old one, a newline and the line, or the line alone when the
    summary was empty or the user had no memory yet; the method returns that
    summary, and what it has saved is text that BSON can encode.  The
    preferences of the user and the memories of the other users are as they
    were. *)
Theorem summary_grows_by_one_line (user_id : ObjectId) (line : str) (w : World)
    (m : MascotMemory.t) (w' : World) :
  memory_ok w ->
  append_to_summary user_id line w = (Ok m, w') ->
  forallb utf8_encodable (saved_texts m) = true
  /\ summary_of user_id w'
     = (if str_truthy (summary_of user_id w)
        then summary_of user_id w ++ [10] ++ line
        else line)
  /\ MascotMemory.summary_memory m = summary_of user_id w'
  /\ preferences_of user_id w'
     = Some (match preferences_of user_id w with
             | Some p => p
             | None => PersonaPreferences.default
             end)
  /\ (forall v, v <> user_id -> memory_doc_of v w' = memory_doc_of v w)
  /\ memory_ok w'
  /\ health_conditions w' = health_conditions w
  /\ condition_logs w' = condition_logs w.
Proof.
  intros MO. destruct w as [hc cl mm oid clk out].
  destruct MO as [I F]. simpl in I, F.
  unfold append_to_summary, get_or_create_memory, get_memory, mm_find_one,
    mm_insert_one, mm_update_one, _save, saved_texts, bind,
    summary_of, preferences_of, memory_doc_of.
  cbn.
  destruct (find (fun d => mm_user_id d =? user_id) mm) as [d|] eqn:Fd.
  - destruct out as [[|[|k]]|]; cbn; rewrite ?Fd; cbn; try not_returned;
      destruct (str_truthy (mm_summary_memory d)) eqn:T; cbn; try not_returned;
      returned Enc; rewrite ?T; (split; [exact Enc|]);
      load_modify_save I F Fd.
  - destruct out as [[|[|[|k]]]|]; cbn; rewrite ?Fd; cbn; try not_returned;
      returned Enc; (split; [exact Enc|]);
      load_modify_save I F Fd.
Qed.

Lemma summary_grows_by_one_line_witness :
  let w := snd (append_to_summary 7 (lit "Headache: pain 6/10") empty_world) in
  let run := append_to_summary 7 (lit "Rash: pain 2/10") w in
  let m := value_of no_memory (fst run) in
  let w' := snd run in
  forallb utf8_encodable (saved_texts m) = true
  /\ summary_of 7 w'
     = (if str_truthy (summary_of 7 w)
        then summary_of 7 w ++ [10] ++ lit "Rash: pain 2/10"
        else lit "Rash: pain 2/10")
  /\ MascotMemory.summary_memory m = summary_of 7 w'
  /\ preferences_of 7 w'
     = Some (match preferences_of 7 w with
             | Some p => p
             | None => PersonaPreferences.default
             end)
  /\ (forall v, v <> 7 -> memory_doc_of v w' = memory_doc_of v w)
  /\ memory_ok w'
  /\ health_conditions w' = health_conditions w
  /\ condition_logs w' = condition_logs w.
Proof.
  intros w run m w'.
  apply (summary_grows_by_one_line 7 (lit "Rash: pain 2/10") w m w').
  - split; vm_compute; repeat constructor; simpl; tauto.
  - vm_compute. reflexivity.
Defined.

(** X12.  [update_preferences], when it returns, has changed the
    preferences that are given and kept the others: of the stored
    preferences, or of the defaults when the user had no memory; what it has
    saved is text that BSON can encode.  The summary and the memories of the
    other users are as they were. *)
Theorem preferences_are_merged (user_id : ObjectId)
    (tone name_used mascot_name : option str) (w : World)
    (m : MascotMemory.t) (w' : World) :
  memory_ok w ->
  update_preferences user_id tone name_used mascot_name w = (Ok m, w') ->
  forallb utf8_encodable (saved_texts m) = true
  /\ preferences_of user_id w'
     = (let old := match preferences_of user_id w with
                   | Some p => p
                   | None => PersonaPreferences.default
                   end in
        Some {| PersonaPreferences.tone := or_else tone (PersonaPreferences.tone old);
                PersonaPreferences.name_used :=
                  or_else name_used (PersonaPreferences.name_used old);
                PersonaPreferences.mascot_name :=
                  or_else mascot_name (PersonaPreferences.mascot_name old) |})
  /\ Some (MascotMemory.persona_preferences m) = preferences_of user_id w'
  /\ summary_of user_id w' = summary_of user_id w
  /\ (forall v, v <> user_id -> memory_doc_of v w' = memory_doc_of v w)
  /\ memory_ok w'
  /\ health_conditions w' = health_conditions w
  /\ condition_logs w' = condition_logs w.
Proof.
  intros MO. destruct w as [hc cl mm oid clk out].
  destruct MO as [I F]. simpl in I, F.
  unfold update_preferences, MascotMemory_update_preferences, get_or_create_memory,
    get_memory, mm_find_one, mm_insert_one, mm_update_one, _save, saved_texts, bind,
    summary_of, preferences_of, memory_doc_of.
  cbn.
  destruct (find (fun d => mm_user_id d =? user_id) mm) as [d|] eqn:Fd.
  - destruct out as [[|[|k]]|]; cbn; rewrite ?Fd; cbn; try not_returned;
      returned Enc; (split; [exact Enc|]);
      load_modify_save I F Fd.
  - destruct out as [[|[|[|k]]]|]; cbn; rewrite ?Fd; cbn; try not_returned;
      returned Enc; (split; [exact Enc|]);
      load_modify_save I F Fd.
Qed.

Lemma preferences_are_merged_witness :
  let run := update_preferences 7 None (Some (lit "Saleem")) None empty_world in
  let m := value_of no_memory (fst run) in
  let w' := snd run in
  forallb utf8_encodable (saved_texts m) = true
  /\ preferences_of 7 w'
     = (let old := match preferences_of 7 empty_world with
                   | Some p => p
                   | None => PersonaPreferences.default
                   end in
        Some {| PersonaPreferences.tone := or_else None (PersonaPreferences.tone old);
                PersonaPreferences.name_used :=
                  or_else (Some (lit "Saleem")) (PersonaPreferences.name_used old);
                PersonaPreferences.mascot_name :=
                  or_else None (PersonaPreferences.mascot_name old) |})
  /\ Some (MascotMemory.persona_preferences m) = preferences_of 7 w'
  /\ summary_of 7 w' = summary_of 7 empty_world
  /\ (forall v, v <> 7 -> memory_doc_of v w' = memory_doc_of v empty_world)
  /\ memory_ok w'
  /\ health_conditions w' = health_conditions empty_world
  /\ condition_logs w' = condition_logs empty_world.
Proof.
  intros run m w'.
  apply (preferences_are_merged 7 None (Some (lit "Saleem")) None empty_world m w').
  - split; simpl; constructor.
  - vm_compute. reflexivity.
Defined.

(** X13.  [update_summary], when it returns, has replaced the stored
    summary by the new one, whatever it was, and kept the preferences; what
    it has saved is text that BSON can encode. *)
Theorem summary_is_replaced (user_id : ObjectId) (new_summary : str) (w : World)
    (m : MascotMemory.t) (w' : World) :
  memory_ok w ->
  update_summary user_id new_summary w = (Ok m, w') ->
  forallb utf8_encodable (saved_texts m) = true
  /\ summary_of user_id w' = new_summary
  /\ MascotMemory.summary_memory m = new_summary
  /\ preferences_of user_id w'
     = Some (match preferences_of user_id w with
             | Some p => p
             | None => PersonaPreferences.default
             end)
  /\ (forall v, v <> user_id -> memory_doc_of v w' = memory_doc_of v w)
  /\ memory_ok w'
  /\ health_conditions w' = health_conditions w
  /\ condition_logs w' = condition_logs w.
Proof.
  intros MO. destruct w as [hc cl mm oid clk out].
  destruct MO as [I F]. simpl in I, F.
  unfold update_summary, MascotMemory_update_summary, get_or_create_memory,
    get_memory, mm_find_one, mm_insert_one, mm_update_one, _save, saved_texts, bind,
    summary_of, preferences_of, memory_doc_of.
  cbn.
  destruct (find (fun d => mm_user_id d =? user_id) mm) as [d|] eqn:Fd.
  - destruct out as [[|[|k]]|]; cbn; rewrite ?Fd; cbn; try not_returned;
      returned Enc; (split; [exact Enc|]);
      load_modify_save I F Fd.
  - destruct out as [[|[|[|k]]]|]; cbn; rewrite ?Fd; cbn; try not_returned;
      returned Enc; (split; [exact Enc|]);
      load_modify_save I F Fd.
Qed.

Lemma summary_is_replaced_witness :
  let w := snd (append_to_summary 7 (lit "Headache: pain 6/10") empty_world) in
  let run := update_summary 7 (lit "Recurring headaches.") w in
  let m := value_of no_memory (fst run) in
  let w' := snd run in
  forallb utf8_encodable (saved_texts m) = true
  /\ summary_of 7 w' = lit "Recurring headaches."
  /\ MascotMemory.summary_memory m = lit "Recurring headaches."
  /\ preferences_of 7 w'
     = Some (match preferences_of 7 w with
             | Some p => p
             | None => PersonaPreferences.default
             end)
  /\ (forall v, v <> 7 -> memory_doc_of v w' = memory_doc_of v w)
  /\ memory_ok w'
  /\ health_conditions w' = health_conditions w
  /\ condition_logs w' = condition_logs w.
Proof.
  intros w run m w'.
  apply (summary_is_replaced 7 (lit "Recurring headaches.") w m w').
  - split; vm_compute; repeat constructor; simpl; tauto.
  - vm_compute. reflexivity.
Defined.

(** A summary line that BSON cannot encode is not saved: here the line is
    a lone surrogate, the user has no memory yet; the call raises, the blank
    memory that was created for the user stays, its summary empty. *)
Lemma unencodable_line_is_not_saved :
  let run := append_to_summary 7 [55296] empty_world in
  fst run = Raise (LibraryError UnicodeEncodeError)
  /\ List.map (fun d => (mm_user_id d, mm_summary_memory d)) (mascot_memory (snd run))
     = [(7, [])].
Proof. split; reflexivity. Qed.

(** X14.  [get_or_create_memory] creates a memory only for a user who has
    none: a second call returns the memory of the first and stores nothing,
    and a user with a memory keeps the memories as they are. *)
Theorem memory_is_created_once (user_id : ObjectId) (w w1 w2 : World)
    (m1 m2 : MascotMemory.t) :
  get_or_create_memory user_id w = (Ok m1, w1) ->
  get_or_create_memory user_id w1 = (Ok m2, w2) ->
  m2 = m1
  /\ mascot_memory w2 = mascot_memory w1
  /\ MascotMemory.user_id m1 = user_id
  /\ (memory_doc_of user_id w <> None -> mascot_memory w1 = mascot_memory w)
  /\ (memory_doc_of user_id w = None ->
      exists d, mascot_memory w1 = mascot_memory w ++ [d]
                /\ MascotMemory.from_dict d = m1
                /\ mm_summary_memory d = []).
Proof.
  destruct w as [hc cl mm oid clk out].
  unfold get_or_create_memory, get_memory, mm_find_one, mm_insert_one, bind, memory_doc_of.
  cbn.
  destruct (find (fun d => mm_user_id d =? user_id) mm) as [d|] eqn:Fd.
  - destruct out as [[|[|k]]|]; cbn; try discriminate; rewrite ?Fd; cbn;
      intros H1; inversion H1; subst; clear H1; cbn; rewrite ?Fd; cbn;
      intros H2; inversion H2; subst; clear H2; cbn;
      (split; [reflexivity|]); (split; [reflexivity|]);
      (split; [apply find_some in Fd; now apply N.eqb_eq|]);
      (split; [reflexivity | congruence]).
  - destruct out as [[|[|[|k]]]|]; cbn; try discriminate; rewrite ?Fd; cbn;
      try discriminate;
      intros H1; inversion H1; subst; clear H1; cbn;
      rewrite ?find_app_last, ?Fd; cbn; rewrite ?N.eqb_refl; cbn;
      intros H2; inversion H2; subst; clear H2; cbn;
      (split; [reflexivity|]); (split; [reflexivity|]); (split; [reflexivity|]);
      (split; [congruence|]); intros _; eexists; repeat split.
Qed.

Lemma memory_is_created_once_witness :
  let run1 := get_or_create_memory 7 empty_world in
  let run2 := get_or_create_memory 7 (snd run1) in
  let m1 := value_of (MascotMemory.from_dict
                        {| mm_id := 0; mm_user_id := 0; mm_tone := []; mm_name_used := [];
                           mm_mascot_name := []; mm_summary_memory := [];
                           mm_created_at := 0; mm_updated_at := 0 |}) (fst run1) in
  let m2 := value_of m1 (fst run2) in
  m2 = m1
  /\ mascot_memory (snd run2) = mascot_memory (snd run1)
  /\ MascotMemory.user_id m1 = 7
  /\ (memory_doc_of 7 empty_world <> None -> mascot_memory (snd run1) = mascot_memory empty_world)
  /\ (memory_doc_of 7 empty_world = None ->
      exists d, mascot_memory (snd run1) = mascot_memory empty_world ++ [d]
                /\ MascotMemory.from_dict d = m1
                /\ mm_summary_memory d = []).
Proof.
  intros run1 run2 m1 m2.
  apply (memory_is_created_once 7 empty_world (snd run1) (snd run2) m1 m2);
    vm_compute; reflexivity.
Defined.

Lemma remove_first_count {A} (p : A -> bool) l :
  snd (remove_first p l) = if existsb p l then 1%nat else 0%nat.
Proof.
  induction l as [|x r IH]; simpl; [reflexivity|].
  destruct (p x); simpl; [reflexivity|].
  destruct (remove_first p r) as [r' n]. simpl in *. exact IH.
Qed.

Lemma remove_first_find_other {A} (p q : A -> bool) l :
  (forall x, p x = true -> q x = false) ->
  find q (fst (remove_first p l)) = find q l.
Proof.
  intros D. induction l as [|x r IH]; simpl; [reflexivity|].
  destruct (p x) eqn:P; simpl.
  - now rewrite (D x P).
  - destruct (remove_first p r) as [r' n]. simpl in *. now rewrite IH.
Qed.

Lemma remove_first_find_single {A} (p : A -> bool) l :
  (List.length (filter p l) <= 1)%nat ->
  find p (fst (remove_first p l)) = None.
Proof.
  induction l as [|x r IH]; simpl; [reflexivity|].
  destruct (p x) eqn:P; simpl.
  - intros L. destruct (find p r) as [y|] eqn:F; [|reflexivity].
    apply find_some in F. exfalso.
    assert (In y (filter p r)) by (apply filter_In; exact F).
    destruct (filter p r); [contradiction | simpl in L; lia].
  - intros L. destruct (remove_first p r) as [r' n]. simpl in *.
    rewrite P. now apply IH.
Qed.

Lemma existsb_find {A} (p : A -> bool) l : existsb p l = true <-> find p l <> None.
Proof.
  induction l as [|x r IH]; simpl; [split; congruence|].
  destruct (p x); simpl; [split; congruence | exact IH].
Qed.

(** X15.  [delete_memory], when the call returns: it says [True] exactly
    when the user had a memory; the memories of the other users are as they
    were; and a user who had one memory has none afterwards, so that the
    summary is gone. *)
Theorem memory_is_forgotten (user_id : ObjectId) (w : World) (deleted : bool)
    (w' : World) :
  delete_memory user_id w = (Ok deleted, w') ->
  (deleted = true <-> memory_doc_of user_id w <> None)
  /\ (forall v, v <> user_id -> memory_doc_of v w' = memory_doc_of v w)
  /\ ((List.length (filter (fun d => (mm_user_id d =? user_id)%N) (mascot_memory w)) <= 1)%nat ->
      memory_doc_of user_id w' = None /\ summary_of user_id w' = [])
  /\ health_conditions w' = health_conditions w
  /\ condition_logs w' = condition_logs w.
Proof.
  destruct w as [hc cl mm oid clk out].
  unfold delete_memory, bind, summary_of, memory_doc_of. cbn.
  pose proof (remove_first_count (fun d => mm_user_id d =? user_id) mm) as Cnt.
  pose proof (remove_first_find_single (fun d => mm_user_id d =? user_id) mm) as Single.
  assert (Other : forall v, v <> user_id ->
            find (fun d => mm_user_id d =? v)
                 (fst (remove_first (fun d => mm_user_id d =? user_id) mm))
            = find (fun d => mm_user_id d =? v) mm).
  { intros v Hv. apply remove_first_find_other. intros x Hx.
    apply N.eqb_eq in Hx. apply N.eqb_neq. congruence. }
  destruct out as [[|k]|]; cbn; try discriminate.
  all: destruct (remove_first (fun d => mm_user_id d =? user_id) mm) as [rest n].
  all: simpl in Cnt, Single, Other; subst n.
  all: intros H; inversion H; subst; clear H; cbn.
  all: split;
    [rewrite <- existsb_find;
     destruct (existsb (fun d => mm_user_id d =? user_id) mm); simpl;
     split; congruence|].
  all: split; [exact Other|].
  all: split; [intros L; rewrite (Single L); now split|].
  all: split; reflexivity.
Qed.

Lemma memory_is_forgotten_witness :
  let w := snd (append_to_summary 7 (lit "Headache: pain 6/10") empty_world) in
  let w' := snd (delete_memory 7 w) in
  (true = true <-> memory_doc_of 7 w <> None)
  /\ (forall v, v <> 7 -> memory_doc_of v w' = memory_doc_of v w)
  /\ ((List.length (filter (fun d => (mm_user_id d =? 7)%N) (mascot_memory w)) <= 1)%nat ->
      memory_doc_of 7 w' = None /\ summary_of 7 w' = [])
  /\ health_conditions w' = health_conditions w
  /\ condition_logs w' = condition_logs w.
Proof.
  intros w w'. apply (memory_is_forgotten 7 w true w'). vm_compute. reflexivity.
Defined.

(* ================================================================== *)
(** * More on the inputs of [process_input] *)
(* ================================================================== *)

Lemma do_lower_ascii ucd s :
  ascii_rules ucd -> Forall (fun c => c < 128) s ->
  forall before, do_lower ucd before s = List.map ascii_tolower s.
Proof.
  intros R. induction 1 as [|c r Hc Hr IH]; intros before; simpl; [reflexivity|].
  rewrite IH. unfold lower_ucs4.
  replace (c =? 931) with false by (symmetry; apply N.eqb_neq; lia).
  now rewrite (ar_lower ucd R) by assumption.
Qed.

Lemma py_lower_ascii ucd s :
  ascii_rules ucd -> is_ascii s = true -> py_lower ucd s = List.map ascii_tolower s.
Proof.
  intros R H. apply is_ascii_Forall in H. now apply do_lower_ascii.
Qed.

Lemma map_tolower_toupper s :
  List.map ascii_tolower (List.map ascii_toupper s) = List.map ascii_tolower s.
Proof.
  rewrite map_map. apply map_ext. apply ascii_tolower_toupper.
Qed.

(** X16.  [_mime_from_filename] returns the default or a type of the
    table, the default when there is no name or an empty one, and on ASCII
    names it does not see the case of the letters: "PHOTO.PNG" is typed as
    "photo.png". *)
Theorem mime_type_from_filename (ucd : UnicodeData) (filename : str)
    (ext_map : list (str * str)) (default : str) :
  ascii_rules ucd ->
  is_ascii filename = true ->
  In (_mime_from_filename ucd (Some filename) ext_map default)
     (default :: List.map snd ext_map)
  /\ _mime_from_filename ucd (Some (List.map ascii_toupper filename)) ext_map default
     = _mime_from_filename ucd (Some filename) ext_map default
  /\ _mime_from_filename ucd None ext_map default = default
  /\ _mime_from_filename ucd (Some []) ext_map default = default.
Proof.
  intros R H. split; [|split; [|split; reflexivity]].
  - unfold _mime_from_filename. destruct (negb _); [now left|].
    destruct (find _ ext_map) as [em|] eqn:F; [|now left].
    right. apply find_some in F. apply in_map. tauto.
  - unfold _mime_from_filename. simpl.
    rewrite (py_lower_ascii ucd _ R (is_ascii_map_toupper _ H)).
    rewrite (py_lower_ascii ucd _ R H), map_tolower_toupper.
    now destruct filename.
Qed.

Lemma mime_type_from_filename_witness :
  In (_mime_from_filename ucd_fragment (Some (lit "photo.png")) _IMAGE_EXT_MAP
        (lit "image/jpeg"))
     (lit "image/jpeg" :: List.map snd _IMAGE_EXT_MAP)
  /\ _mime_from_filename ucd_fragment (Some (List.map ascii_toupper (lit "photo.png")))
       _IMAGE_EXT_MAP (lit "image/jpeg")
     = _mime_from_filename ucd_fragment (Some (lit "photo.png")) _IMAGE_EXT_MAP
         (lit "image/jpeg")
  /\ _mime_from_filename ucd_fragment None _IMAGE_EXT_MAP (lit "image/jpeg")
     = lit "image/jpeg"
  /\ _mime_from_filename ucd_fragment (Some []) _IMAGE_EXT_MAP (lit "image/jpeg")
     = lit "image/jpeg".
Proof.
  apply (mime_type_from_filename ucd_fragment (lit "photo.png") _IMAGE_EXT_MAP
           (lit "image/jpeg")).
  - split; intros c Hc; simpl;
      replace (c <? 128) with true by (symmetry; now apply N.ltb_lt); reflexivity.
  - reflexivity.
Defined.

(** X17.  An upload counts as input whatever it holds.  With an empty
    audio file, no text (or an empty one) and no image, the input guard lets
    the call through
    and the mode is voice, yet no part is built from the file: without
    [force_log] the request to the oracle has no turn for the current
    message, with [force_log] it has the nudge. *)
Theorem empty_upload_is_input (ucd : UnicodeData) (text : option str)
    (audio_file : FileStorage)
    (audio_bytes : option bytes) (audio_mime image_mime : str)
    (conversation_history : option (list HistoryMessage)) :
  opt_truthy text = false ->
  fs_read audio_file = [] ->
  let audio := _resolve_audio ucd (Some audio_file) audio_bytes audio_mime in
  input_missing text (fst audio) None = false
  /\ determine_input_mode (opt_truthy text) (is_some (fst audio)) (is_some (@None bytes))
     = VOICE
  /\ build_contents conversation_history
       (current_parts text (fst audio) (snd audio) None image_mime false)
     = history_contents conversation_history
  /\ current_parts text (fst audio) (snd audio) None image_mime true
     = [Part_from_text (lit "Please log everything we've discussed so far.")].
Proof.
  intros T E. unfold input_missing, current_parts. simpl. rewrite T, E. repeat split.
Qed.

Lemma empty_upload_is_input_witness :
  let f := {| fs_read := []; fs_content_type := Some (lit "audio/webm");
              fs_filename := Some (lit "voice.webm") |} in
  let audio := _resolve_audio ucd_fragment (Some f) None (lit "audio/webm") in
  input_missing None (fst audio) None = false
  /\ determine_input_mode (opt_truthy None) (is_some (fst audio)) (is_some (@None bytes))
     = VOICE
  /\ build_contents None
       (current_parts None (fst audio) (snd audio) None (lit "image/jpeg") false)
     = history_contents None
  /\ current_parts None (fst audio) (snd audio) None (lit "image/jpeg") true
     = [Part_from_text (lit "Please log everything we've discussed so far.")].
Proof.
  intros f.
  apply (empty_upload_is_input ucd_fragment None f None (lit "audio/webm")
           (lit "image/jpeg") None); reflexivity.
Defined.

(* ================================================================== *)
(** * Reading and deleting logs *)
(* ================================================================== *)

Lemma firstn_In {A} (l : list A) n x : In x (firstn n l) -> In x l.
Proof.
  revert n. induction l as [|y r IH]; intros [|n]; simpl; try tauto.
  intros [E|H]; [now left | right; eauto].
Qed.

Lemma skipn_In {A} (l : list A) n x : In x (skipn n l) -> In x l.
Proof.
  revert n. induction l as [|y r IH]; intros [|n]; simpl; try tauto.
  intros H. right. eauto.
Qed.

Lemma cursor_limit_In {A} (l : list A) m x : In x (cursor_limit m l) -> In x l.
Proof. destruct m; simpl; [tauto | apply (firstn_In l (S m))]. Qed.

Lemma descending_firstn {A} (key : A -> N) (l : list A) n :
  descending key l -> descending key (firstn n l).
Proof.
  unfold descending. revert n. induction l as [|x r IH]; intros [|n] H; simpl;
    try constructor.
  - apply IH. now inversion H.
  - inversion H as [|? ? ? Hx]; subst.
    rewrite Forall_forall in *. intros y Hy. apply Hx. eapply firstn_In. exact Hy.
Qed.

Lemma descending_skipn {A} (key : A -> N) (l : list A) n :
  descending key l -> descending key (skipn n l).
Proof.
  unfold descending. revert n. induction l as [|x r IH]; intros [|n] H; simpl; auto.
  apply IH. now inversion H.
Qed.

Lemma descending_cursor_limit {A} (key : A -> N) (l : list A) m :
  descending key l -> descending key (cursor_limit m l).
Proof. destruct m; simpl; [tauto | apply (descending_firstn key l (S m))]. Qed.

Lemma cursor_limit_length {A} (l : list A) m :
  List.length (cursor_limit m l)
  = match m with O => List.length l | _ => Nat.min m (List.length l) end.
Proof. destruct m; simpl; [reflexivity | apply (length_firstn (S m))]. Qed.

(** The page that [find_logs] hands out. *)
Lemma find_logs_page query limit skip w logs w' :
  find_logs query limit skip w = (Ok logs, w') ->
  logs = List.map ConditionLog_from_dict
           (cursor_limit limit
              (skipn skip (sort_desc cl_created_at (filter query (condition_logs w)))))
  /\ health_conditions w' = health_conditions w
  /\ condition_logs w' = condition_logs w
  /\ mascot_memory w' = mascot_memory w.
Proof.
  destruct w as [hc cl mm oid clk out]. unfold find_logs, bind. cbn.
  destruct out as [[|k]|]; cbn; intros H; inversion H; subst; cbn; auto.
Qed.

(** X18.  [GET /api/logs]: the logs returned are logs stored for the
    user, newest first; [total] is the number of logs the user has; the
    page holds the logs left after [skip], at most [limit] of them, all of
    them when [limit] is 0; nothing stored is changed. *)
Theorem logs_page_is_sorted_and_counted (user_id : ObjectId) (limit skip : nat)
    (w w' : World) (logs : list ConditionLog.t) (total : nat) :
  get_my_logs user_id limit skip w = (Ok (logs, total), w') ->
  total = List.length (logs_of user_id w)
  /\ List.length logs
     = match limit with
       | O => (total - skip)%nat
       | _ => Nat.min limit (total - skip)
       end
  /\ Forall (fun l => ConditionLog.user_id l = user_id) logs
  /\ descending ConditionLog.created_at logs
  /\ (forall l, In l logs ->
        exists d, In d (condition_logs w) /\ l = ConditionLog_from_dict d)
  /\ health_conditions w' = health_conditions w
  /\ condition_logs w' = condition_logs w
  /\ mascot_memory w' = mascot_memory w.
Proof.
  unfold get_my_logs, get_logs_for_user. intros H.
  apply bind_ok_inv in H. destruct H as [page [w1 [P H]]].
  apply find_logs_page in P. destruct P as [-> [C1 [L1 M1]]].
  apply bind_ok_inv in H. destruct H as [n [w2 [Cn H]]].
  inversion H; subst; clear H.
  assert (Hn : total = List.length (logs_of user_id w) /\ health_conditions w' = health_conditions w1
               /\ condition_logs w' = condition_logs w1 /\ mascot_memory w' = mascot_memory w1).
  { destruct w1 as [hc cl mm oid clk out]. simpl in L1. subst cl.
    unfold count_logs_for_user, bind in Cn. cbn in Cn.
    destruct out as [[|k]|]; cbn in Cn; inversion Cn; subst; cbn; auto. }
  destruct Hn as [-> [C2 [L2 M2]]].
  set (docs := sort_desc cl_created_at (logs_of user_id w)).
  assert (Len : List.length docs = List.length (logs_of user_id w)).
  { apply Permutation_length, sort_desc_perm. }
  split; [reflexivity|]. split.
  { rewrite length_map, cursor_limit_length, length_skipn. fold (logs_of user_id w). fold docs.
    rewrite Len. reflexivity. }
  split.
  { apply Forall_forall. intros l Hl. apply in_map_iff in Hl. destruct Hl as [d [<- Hd]].
    apply cursor_limit_In, skipn_In in Hd.
    apply (Permutation_in _ (sort_desc_perm cl_created_at _)) in Hd.
    apply filter_In in Hd. destruct Hd as [_ E]. now apply N.eqb_eq in E. }
  split.
  { apply (descending_map ConditionLog_from_dict ConditionLog.created_at cl_created_at);
      [reflexivity|].
    apply descending_cursor_limit, descending_skipn, sort_desc_sorted. }
  split.
  { intros l Hl. apply in_map_iff in Hl. destruct Hl as [d [<- Hd]].
    apply cursor_limit_In, skipn_In in Hd.
    apply (Permutation_in _ (sort_desc_perm cl_created_at _)) in Hd.
    apply filter_In in Hd. exists d. tauto. }
  repeat split; congruence.
Qed.

Lemma logs_page_is_sorted_and_counted_witness :
  let w := snd (example_run (Some headache_answer) 7
                  (Some (lit "I have a headache, pain 6/10, front of head")) false
                  empty_world) in
  let run := get_my_logs 7 50 0 w in
  let logs := fst (value_of ([], O) (fst run)) in
  let total := snd (value_of ([], O) (fst run)) in
  let w' := snd run in
  total = List.length (logs_of 7 w)
  /\ List.length logs = Nat.min 50 (total - 0)
  /\ Forall (fun l => ConditionLog.user_id l = 7) logs
  /\ descending ConditionLog.created_at logs
  /\ (forall l, In l logs ->
        exists d, In d (condition_logs w) /\ l = ConditionLog_from_dict d)
  /\ health_conditions w' = health_conditions w
  /\ condition_logs w' = condition_logs w
  /\ mascot_memory w' = mascot_memory w.
Proof.
  intros w run logs total w'.
  apply (logs_page_is_sorted_and_counted 7 50 0 w w' logs total).
  vm_compute. reflexivity.
Defined.

Lemma firstn_then_firstn {A} (l : list A) k m :
  firstn k l ++ firstn m (skipn k l) = firstn (k + m) l.
Proof.
  revert l. induction k as [|k IH]; intros l; simpl; [reflexivity|].
  destruct l as [|x r]; simpl; [now destruct m | now rewrite IH].
Qed.

(** X19.  Paging through [get_logs_for_user]: with the server up and no
    two of the user's logs created at the same instant (the server leaves
    the order of equals open), a page of [k] logs and the page of [m] logs
    behind it are, one after the other, the page of [k + m] logs: pages
    neither overlap nor leave a log out. *)
Theorem log_pages_follow_one_another (user_id : ObjectId) (k m skip : nat) (w : World) :
  outage w = None ->
  NoDup (List.map cl_created_at (logs_of user_id w)) ->
  (0 < k)%nat -> (0 < m)%nat ->
  exists first_page next_page both,
    get_logs_for_user user_id k skip w = (Ok first_page, w)
    /\ get_logs_for_user user_id m (skip + k) w = (Ok next_page, w)
    /\ get_logs_for_user user_id (k + m) skip w = (Ok both, w)
    /\ first_page ++ next_page = both.
Proof.
  intros O _ Hk Hm.
  destruct w as [hc cl mm oid clk out]. simpl in O. subst out.
  unfold get_logs_for_user, find_logs, bind. cbn.
  do 3 eexists. split; [reflexivity|]. split; [reflexivity|]. split; [reflexivity|].
  destruct k as [|k]; [lia|]. destruct m as [|m]; [lia|].
  rewrite <- map_app. f_equal.
  change (cursor_limit (S k + S m)) with (@firstn ConditionLogDoc (S k + S m)).
  unfold cursor_limit.
  rewrite (Nat.add_comm skip (S k)), <- skipn_skipn.
  apply firstn_then_firstn.
Qed.

Lemma log_pages_follow_one_another_witness :
  let w := snd (example_run (Some headache_answer) 7
                  (Some (lit "I have a headache, pain 6/10, front of head")) false
                  (snd (example_run (Some headache_answer) 7
                          (Some (lit "my head hurts again")) false empty_world))) in
  exists first_page next_page both,
    get_logs_for_user 7 1 0 w = (Ok first_page, w)
    /\ get_logs_for_user 7 1 (0 + 1) w = (Ok next_page, w)
    /\ get_logs_for_user 7 (1 + 1) 0 w = (Ok both, w)
    /\ first_page ++ next_page = both.
Proof.
  intros w.
  apply (log_pages_follow_one_another 7 1 1 0 w).
  - reflexivity.
  - vm_compute. repeat constructor; simpl; intuition discriminate.
  - lia.
  - lia.
Defined.

(** What [delete_one] does when [find_one] with the same filter finds
    [d]. *)
Lemma remove_first_found {A} (p : A -> bool) (l : list A) (d : A) :
  find p l = Some d ->
  exists l1 l2, l = l1 ++ d :: l2 /\ remove_first p l = (l1 ++ l2, 1%nat).
Proof.
  induction l as [|x r IH]; simpl; [discriminate|].
  destruct (p x) eqn:E.
  - intros H. inversion H; subst. now exists [], r.
  - intros H. destruct (IH H) as [l1 [l2 [-> R]]]. rewrite R.
    now exists (x :: l1), l2.
Qed.

Lemma remove_first_missing {A} (p : A -> bool) (l : list A) :
  find p l = None -> remove_first p l = (l, 0%nat).
Proof.
  induction l as [|x r IH]; simpl; [reflexivity|].
  destruct (p x); [discriminate|]. intros H. now rewrite (IH H).
Qed.

(** X20.  [DELETE /api/logs/<id>], when it answers: 404 when no log has
    the id, 403 when the log is another user's, 200 otherwise.  The logs of
    the other users are as they were in every case; unless the answer is
    200 no log goes, and with 200 exactly one does.  The cards are not
    touched: the [log_count] of the log's card stays as it was. *)
Theorem only_the_owner_deletes_a_log (user_id log_id : ObjectId) (w : World)
    (r : Reply unit) (w' : World) :
  delete_log_endpoint user_id log_id w = (Ok r, w') ->
  status_code r
  = match find (fun d => cl_id d =? log_id) (condition_logs w) with
    | None => 404%nat
    | Some d => if cl_user_id d =? user_id then 200%nat else 403%nat
    end
  /\ logs_of_others user_id w' = logs_of_others user_id w
  /\ (status_code r <> 200%nat -> condition_logs w' = condition_logs w)
  /\ (status_code r = 200%nat ->
      exists l1 d l2, condition_logs w = l1 ++ d :: l2
                      /\ condition_logs w' = l1 ++ l2
                      /\ cl_id d = log_id /\ cl_user_id d = user_id)
  /\ health_conditions w' = health_conditions w
  /\ mascot_memory w' = mascot_memory w.
Proof.
  destruct w as [hc cl mm oid clk out].
  unfold delete_log_endpoint, get_log_by_id, delete_log, logs_of_others, bind. cbn.
  destruct (find (fun d => cl_id d =? log_id) cl) as [d|] eqn:F.
  - pose proof (find_some _ _ F) as [_ Hid]. apply N.eqb_eq in Hid.
    destruct (remove_first_found _ _ _ F) as [l1 [l2 [Ecl R]]].
    destruct (cl_user_id d =? user_id) eqn:U.
    + destruct out as [[|[|k]]|]; cbn; rewrite ?F; cbn; rewrite ?U; cbn;
        rewrite ?R; cbn; intros H; inversion H; clear H; cbn; rewrite ?F, ?U;
        (split; [reflexivity|]);
        (split; [rewrite Ecl, !filter_app; simpl; now rewrite U|]);
        (split; [congruence|]);
        (split; [intros _; exists l1, d, l2; apply N.eqb_eq in U; auto|]); auto.
    + destruct out as [[|k]|]; cbn; rewrite ?F; cbn; rewrite ?U; cbn;
        intros H; inversion H; clear H; cbn; rewrite ?F, ?U;
        repeat split; try reflexivity; discriminate.
  - destruct out as [[|k]|]; cbn; rewrite ?F; cbn;
      intros H; inversion H; clear H; cbn; rewrite ?F;
      repeat split; try reflexivity; discriminate.
Qed.

Lemma only_the_owner_deletes_a_log_witness :
  let w := snd (example_run (Some headache_answer) 7
                  (Some (lit "I have a headache, pain 6/10, front of head")) false
                  empty_world) in
  let run := delete_log_endpoint 8 3 w in
  let r := value_of {| status_code := 0%nat; payload := None |} (fst run) in
  let w' := snd run in
  status_code r
  = match find (fun d => cl_id d =? 3) (condition_logs w) with
    | None => 404%nat
    | Some d => if cl_user_id d =? 8 then 200%nat else 403%nat
    end
  /\ logs_of_others 8 w' = logs_of_others 8 w
  /\ (status_code r <> 200%nat -> condition_logs w' = condition_logs w)
  /\ (status_code r = 200%nat ->
      exists l1 d l2, condition_logs w = l1 ++ d :: l2
                      /\ condition_logs w' = l1 ++ l2
                      /\ cl_id d = 3 /\ cl_user_id d = 8)
  /\ health_conditions w' = health_conditions w
  /\ mascot_memory w' = mascot_memory w.
Proof.
  intros w run r w'.
  apply (only_the_owner_deletes_a_log 8 3 w r w').
  vm_compute. reflexivity.
Defined.

(* ================================================================== *)
(** * The endpoints that change a card *)
(* ================================================================== *)

Lemma filter_update_first_found {A} (p q : A -> bool) f (l : list A) (d : A) :
  find p l = Some d -> q d = false -> q (f d) = false ->
  filter q (update_first p f l) = filter q l.
Proof.
  intros F Qd Qf. induction l as [|x r IH]; simpl in *; [reflexivity|].
  destruct (p x).
  - inversion F; subst. simpl. now rewrite Qd, Qf.
  - simpl. now rewrite (IH F).
Qed.

(** X21.  [PATCH /api/conditions/<id>/resolve], when it answers: 404 when
    no card has the id, 403 when the card is another user's, 200 with the
    resolved card otherwise.  The cards of the other users are as they were
    in every case; unless the answer is 200 no card is changed; no card is
    added, removed or renamed, and logs and memories are not touched. *)
Theorem only_the_owner_resolves_a_card (ucd : UnicodeData)
    (user_id condition_id : ObjectId) (w : World)
    (r : Reply HealthCondition.t) (w' : World) :
  resolve_condition_endpoint ucd user_id condition_id w = (Ok r, w') ->
  status_code r
  = match find (fun d => hc_id d =? condition_id) (health_conditions w) with
    | None => 404%nat
    | Some d => if hc_user_id d =? user_id then 200%nat else 403%nat
    end
  /\ cards_of_others user_id w' = cards_of_others user_id w
  /\ (status_code r <> 200%nat -> health_conditions w' = health_conditions w)
  /\ (status_code r = 200%nat ->
      exists card, payload r = Some card
                   /\ HealthCondition.id card = Some condition_id
                   /\ HealthCondition.user_id card = user_id
                   /\ HealthCondition.status card = RESOLVED)
  /\ card_keys w' = card_keys w
  /\ card_ids w' = card_ids w
  /\ condition_logs w' = condition_logs w
  /\ mascot_memory w' = mascot_memory w.
Proof.
  destruct w as [hc cl mm oid clk out].
  unfold resolve_condition_endpoint, resolve_condition, get_condition_by_id,
    hc_find_one, hc_update_one, cards_of_others, card_keys, card_ids, bind. cbn.
  destruct (find (fun d => hc_id d =? condition_id) hc) as [d|] eqn:F.
  - pose proof (find_some _ _ F) as [_ Hid]. apply N.eqb_eq in Hid.
    destruct (hc_user_id d =? user_id) eqn:U.
    + destruct out as [[|[|[|k]]]|]; cbn; rewrite ?F; cbn; rewrite ?U; cbn;
        rewrite ?F; cbn; intros H; inversion H; clear H; cbn; rewrite ?F, ?U;
        (split; [reflexivity|]);
        (split; [rewrite Hid;
                 apply (filter_update_first_found _ _ _ hc d F); simpl; now rewrite U|]);
        (split; [congruence|]);
        (split; [intros _; eexists; split; [reflexivity|]; cbn;
                 apply N.eqb_eq in U; rewrite Hid, U; auto|]);
        rewrite (update_first_map card_key _ _ hc (set_after_resolve_key _)),
          (update_first_map hc_id _ _ hc (set_after_resolve_id _)); auto.
    + destruct out as [[|k]|]; cbn; rewrite ?F; cbn; rewrite ?U; cbn;
        intros H; inversion H; clear H; cbn; rewrite ?F, ?U;
        repeat split; try reflexivity; discriminate.
  - destruct out as [[|k]|]; cbn; rewrite ?F; cbn;
      intros H; inversion H; clear H; cbn; rewrite ?F;
      repeat split; try reflexivity; discriminate.
Qed.

Lemma only_the_owner_resolves_a_card_witness :
  let w := snd (find_or_create ucd_fragment 7 (lit "headache") empty_world) in
  let run := resolve_condition_endpoint ucd_fragment 8 1 w in
  let r := value_of {| status_code := 0%nat; payload := None |} (fst run) in
  let w' := snd run in
  status_code r
  = match find (fun d => hc_id d =? 1) (health_conditions w) with
    | None => 404%nat
    | Some d => if hc_user_id d =? 8 then 200%nat else 403%nat
    end
  /\ cards_of_others 8 w' = cards_of_others 8 w
  /\ (status_code r <> 200%nat -> health_conditions w' = health_conditions w)
  /\ (status_code r = 200%nat ->
      exists card, payload r = Some card
                   /\ HealthCondition.id card = Some 1
                   /\ HealthCondition.user_id card = 8
                   /\ HealthCondition.status card = RESOLVED)
  /\ card_keys w' = card_keys w
  /\ card_ids w' = card_ids w
  /\ condition_logs w' = condition_logs w
  /\ mascot_memory w' = mascot_memory w.
Proof.
  intros w run r w'.
  apply (only_the_owner_resolves_a_card ucd_fragment 8 1 w r w').
  vm_compute. reflexivity.
Defined.

(* ================================================================== *)
(** * What a logged run leaves behind *)
(* ================================================================== *)

Lemma dict_get_set_same d k v : dict_get (dict_set d k v) k = Some v.
Proof.
  induction d as [|[k0 v0] r IH]; simpl.
  - now rewrite str_eqb_refl.
  - destruct (str_eqb k0 k) eqn:E; simpl; rewrite E; [reflexivity | exact IH].
Qed.

Lemma append_to_summary_keeps_cards u line :
  preserves health_conditions (append_to_summary u line).
Proof. unfold_store_ops. frame. Qed.

Lemma create_from_gemini_result_keeps_cards u result mode cid :
  preserves health_conditions (create_from_gemini_result u result mode cid).
Proof. unfold_store_ops. frame. Qed.

(** The card that [find_or_create] returns is stored, under the id that the
    caller gets, for the user of the call. *)
Lemma find_or_create_links ucd u n w card is_new w' :
  unique_index w -> NoDup (card_ids w) ->
  find_or_create ucd u n w = (Ok (card, is_new), w') ->
  exists d, In d (health_conditions w')
            /\ HealthCondition.id card = Some (hc_id d)
            /\ hc_user_id d = u
            /\ hc_status d = ACTIVE
            /\ hc_log_count d = HealthCondition.log_count card.
Proof.
  intros K I E.
  destruct (find (matches_key u (normalise ucd n)) (health_conditions w)) as [d|] eqn:F.
  - apply find_some in F. destruct F as [Hd Hk]. apply matches_key_spec in Hk.
    apply (find_or_create_found ucd u n w d) in E; [|exact K|exact Hd|exact Hk].
    destruct E as [_ [_ [_ [Hid [_ [Hstatus Hcards]]]]]].
    exists (set_after_log card d). split.
    { rewrite Hcards. apply update_first_In_id; [exact I | exact Hd]. }
    unfold card_key in Hk. inversion Hk. simpl. auto.
  - apply find_matches_key_none in F.
    apply (find_or_create_created ucd u n w) in E; [|exact F].
    destruct E as [_ [Hid [Hu [_ [_ [Hstatus [_ [Hcards _]]]]]]]].
    exists (HealthCondition.to_dict card (next_oid w)). split.
    { rewrite Hcards. apply in_or_app. right. now left. }
    simpl. auto.
Qed.

Lemma log_condition_links ucd py_str u result mode w r w' :
  unique_index w -> NoDup (card_ids w) ->
  log_condition ucd py_str u result mode w = (Ok r, w') ->
  exists doc card,
    condition_logs w' = condition_logs w ++ [doc]
    /\ In card (health_conditions w')
    /\ cl_condition_id doc = Some (hc_id card)
    /\ cl_user_id doc = u
    /\ hc_user_id card = u
    /\ hc_status card = ACTIVE
    /\ dict_get r (lit "log_id") = Some (oid_json (Some (cl_id doc)))
    /\ dict_get r (lit "condition_id") = Some (oid_json (Some (hc_id card))).
Proof.
  intros K I. unfold log_condition. intros H.
  apply bind_ok_inv in H. destruct H as [entry [w1 [E1 H]]].
  assert (w1 = w) by (destruct (dict_get result (lit "extracted_data"));
                      inversion E1; reflexivity). subst w1.
  apply bind_ok_inv in H. destruct H as [name [w1 [E2 H]]].
  assert (w1 = w) by (destruct (dict_get result (lit "condition_name")) as [[]|];
                      inversion E2; reflexivity). subst w1.
  apply bind_ok_inv in H. destruct H as [[card is_new] [w1 [E3 H]]].
  pose proof (find_or_create_keeps_logs _ _ _ _ _ _ E3) as L3.
  apply (find_or_create_links ucd u name w card is_new w1 K I) in E3.
  destruct E3 as [d [Hd [Hid [Hu [Hs _]]]]].
  apply bind_ok_inv in H. destruct H as [notes [w2 [V H]]].
  apply value_get_ok in V. subst w2.
  apply bind_ok_inv in H. destruct H as [notes_str [w2 [J H]]].
  assert (w2 = w1) by (apply (join_notes_preserves (fun w => w)) in J; exact J).
  subst w2.
  repeat (apply bind_ok_inv in H; destruct H as [? [? [V H]]];
          apply value_get_ok in V; subst).
  apply bind_ok_inv in H. destruct H as [m [w2 [A H]]].
  pose proof (append_to_summary_keeps_logs _ _ _ _ _ A) as L4.
  apply append_to_summary_keeps_cards in A.
  apply bind_ok_inv in H. destruct H as [log [w3 [C H]]].
  pose proof (create_from_gemini_result_keeps_cards _ _ _ _ _ _ _ C) as C5.
  apply create_from_gemini_result_ok in C.
  destruct C as [doc [L [_ [Hdu [Hcid Hlog]]]]].
  inversion H; subst. exists doc, d.
  split; [congruence|]. split; [congruence|]. split; [congruence|].
  split; [congruence|]. split; [congruence|]. split; [exact Hs|].
  split.
  - rewrite dict_get_set_same. now rewrite Hlog.
  - rewrite dict_get_set_other by reflexivity.
    rewrite dict_get_set_other by reflexivity.
    rewrite dict_get_set_same. now rewrite Hid.
Qed.

(** X22.  A run of [process_input] that returns, on a store where the
    index holds and the ids are distinct: either it has stored no log, or
    it has stored one log, which belongs to the user and carries the id of a
    stored, active card of the same user; the response names that log under
    "log_id" and that card under "condition_id". *)
Theorem logged_run_links_log_and_card (ucd : UnicodeData)
    (json_loads : str -> option json)
    (generate_content : GenerateRequest -> GeminiReply) (py_str : json -> str)
    (personality : str -> str -> str -> str -> str) (json_rules : datetime -> str)
    (user_id : ObjectId) (text : option str)
    (audio_file image_file : option FileStorage) (force_log : bool)
    (conversation_history : option (list HistoryMessage))
    (audio_bytes : option bytes) (audio_mime : str)
    (image_bytes : option bytes) (image_mime : str)
    (w : World) (result : dict) (w' : World) :
  unique_index w ->
  NoDup (card_ids w) ->
  process_input ucd json_loads generate_content py_str personality json_rules
    user_id text audio_file image_file force_log conversation_history
    audio_bytes audio_mime image_bytes image_mime w = (Ok result, w') ->
  (condition_logs w' = condition_logs w
   /\ health_conditions w' = health_conditions w)
  \/ exists doc card,
       condition_logs w' = condition_logs w ++ [doc]
       /\ In card (health_conditions w')
       /\ cl_condition_id doc = Some (hc_id card)
       /\ cl_user_id doc = user_id
       /\ hc_user_id card = user_id
       /\ hc_status card = ACTIVE
       /\ dict_get result (lit "log_id") = Some (oid_json (Some (cl_id doc)))
       /\ dict_get result (lit "condition_id") = Some (oid_json (Some (hc_id card))).
Proof.
  intros K I H.
  pose proof (process_input_ok_valid _ _ _ _ _ _ _ _ _ _ _ _ _ _ _ _ _ _ _ H) as V.
  rewrite process_input_valid in H by exact V.
  apply process_valid_input_stages in H.
  destruct H as [[_ [_ [_ [e [X _]]]]]|[memory [w2 [request [raw_text [C [L [_ [_ R]]]]]]]]];
    [discriminate|].
  apply interpret_cases in R.
  destruct R as [[_ [X _]]|[[_ [X _]]|[[_ X]|[d [_ [_ R]]]]]]; try discriminate.
  simpl in R. destruct R as [[_ [-> _]]|[_ R]]; [left; now split|].
  right. apply log_condition_links in R.
  - destruct R as [doc [card R]]. exists doc, card. rewrite <- L. exact R.
  - unfold unique_index, card_keys in *. now rewrite C.
  - unfold card_ids in *. now rewrite C.
Qed.

Lemma logged_run_links_log_and_card_witness :
  let run := example_run (Some headache_answer) 7
               (Some (lit "I have a headache, pain 6/10, front of head")) false
               empty_world in
  let result := value_of [] (fst run) in
  let w' := snd run in
  (condition_logs w' = condition_logs empty_world
   /\ health_conditions w' = health_conditions empty_world)
  \/ exists doc card,
       condition_logs w' = condition_logs empty_world ++ [doc]
       /\ In card (health_conditions w')
       /\ cl_condition_id doc = Some (hc_id card)
       /\ cl_user_id doc = 7
       /\ hc_user_id card = 7
       /\ hc_status card = ACTIVE
       /\ dict_get result (lit "log_id") = Some (oid_json (Some (cl_id doc)))
       /\ dict_get result (lit "condition_id") = Some (oid_json (Some (hc_id card))).
Proof.
  intros run result w'.
  apply (logged_run_links_log_and_card ucd_fragment example_loads
           (oracle_saying (Some headache_answer)) example_py_str
           blank_personality blank_json_rules
           7 (Some (lit "I have a headache, pain 6/10, front of head"))
           None None false None None (lit "audio/webm") None (lit "image/jpeg")
           empty_world result w').
  - constructor.
  - constructor.
  - vm_compute. reflexivity.
Defined.

Lemma filter_idem {A} (p : A -> bool) l : filter p (filter p l) = filter p l.
Proof.
  induction l as [|x r IH]; simpl; [reflexivity|].
  destruct (p x) eqn:E; simpl; [rewrite E; now f_equal | exact IH].
Qed.

Lemma filter_of_the_rest {A} (p : A -> bool) l :
  filter p (filter (fun x => negb (p x)) l) = [].
Proof.
  induction l as [|x r IH]; simpl; [reflexivity|].
  destruct (p x) eqn:E; simpl; [exact IH | now rewrite E].
Qed.

(** X23.  [ConditionLogService.delete_all_for_user] returns the number of
    logs the user had, which is what [count_logs_for_user] reported just
    before; after it the user has no log, the logs of the other users are
    as they were, and the cards keep their counts. *)
Theorem delete_all_removes_the_users_logs (user_id : ObjectId) (w w1 w2 : World)
    (total deleted : nat) :
  count_logs_for_user user_id w = (Ok total, w1) ->
  delete_all_logs_for_user user_id w1 = (Ok deleted, w2) ->
  deleted = total
  /\ logs_of user_id w2 = []
  /\ logs_of_others user_id w2 = logs_of_others user_id w
  /\ condition_logs w2 = logs_of_others user_id w
  /\ health_conditions w2 = health_conditions w.
Proof.
  destruct w as [hc cl mm oid clk out].
  unfold count_logs_for_user, delete_all_logs_for_user, remove_all, logs_of,
    logs_of_others, bind.
  pose proof (filter_of_the_rest (fun d => cl_user_id d =? user_id) cl) as Z.
  pose proof (filter_idem (fun d => negb (cl_user_id d =? user_id)) cl) as Idem.
  cbn. destruct out as [[|[|k]]|]; cbn; intros H1; inversion H1; subst; clear H1; cbn;
    intros H2; inversion H2; subst; clear H2; cbn; rewrite Z, Idem; auto.
Qed.

Lemma delete_all_removes_the_users_logs_witness :
  let w := snd (example_run (Some headache_answer) 7
                  (Some (lit "I have a headache, pain 6/10, front of head")) false
                  empty_world) in
  let w1 := snd (count_logs_for_user 7 w) in
  let w2 := snd (delete_all_logs_for_user 7 w1) in
  1%nat = 1%nat
  /\ logs_of 7 w2 = []
  /\ logs_of_others 7 w2 = logs_of_others 7 w
  /\ condition_logs w2 = logs_of_others 7 w
  /\ health_conditions w2 = health_conditions w.
Proof.
  intros w w1 w2.
  apply (delete_all_removes_the_users_logs 7 w w1 w2 1 1); vm_compute; reflexivity.
Defined.

(* ================================================================== *)
(** * [POST /api/process-aura] *)
(* ================================================================== *)

(** A run of [process_input] that raises has stored no log. *)
Lemma process_input_raise_keeps_logs ucd json_loads generate_content py_str personality
    json_rules u text audio_file image_file force_log history ab am ib im w e w' :
  process_input ucd json_loads generate_content py_str personality json_rules
    u text audio_file image_file force_log history ab am ib im w = (Raise e, w') ->
  condition_logs w' = condition_logs w.
Proof.
  unfold process_input. destruct (input_missing _ _ _).
  - intros H. now inversion H.
  - intros H. apply process_valid_input_stages in H.
    destruct H as [[_ [L _]]|[memory [w2 [request [raw_text [_ [L [_ [_ I]]]]]]]]];
      [exact L|].
    rewrite <- L. exact (interpret_raise_keeps_logs _ _ _ _ _ _ _ _ _ _ I).
Qed.

(** The speech step changes nothing that is stored; it raises only on a
    [mascot_response] that is no [str], and then [AttributeError]. *)
Lemma attach_audio_cases synthesise result r w' w :
  attach_audio synthesise result w = (r, w') ->
  w' = w
  /\ match r with
     | Ok result' =>
         result' = result
         \/ exists filename,
              result' = dict_set result (lit "audio_url")
                          (JStr (lit "/api/tts/" ++ filename))
     | Raise e => e = LibraryError AttributeError
     end.
Proof.
  unfold attach_audio.
  destruct (truthy _); [|intros H; inversion H; auto].
  destruct (dict_get_default result (lit "mascot_response") (JStr []))
    as [ | b | z | s | l | d]; try (intros H; inversion H; now auto).
  destruct (synthesise s) as [filename|]; [|intros H; inversion H; auto].
  destruct (str_truthy filename); intros H; inversion H; [|now auto].
  split; [reflexivity|]. right. now exists filename.
Qed.

(** A request can be answered 400 after a card has been written.  The
    oracle logs a headache whose details BSON cannot encode: the card is
    created, saving the summary line raises [UnicodeEncodeError], which is a
    [ValueError]; the answer is 400, the card stays, and there is no log. *)
Lemma refused_after_the_card :
  let run := process_aura ucd_fragment surrogate_loads
               (oracle_saying (Some surrogate_answer))
               example_py_str blank_personality blank_json_rules (fun _ => None)
               7 (Some (lit "my head hurts")) None None false None empty_world in
  status_code (fst run) = 400%nat
  /\ List.map (fun d => (hc_condition_name d, hc_log_count d))
              (health_conditions (snd run))
     = [(lit "Headache", 1%Z)]
  /\ condition_logs (snd run) = [].
Proof. repeat split. Qed.

(** X24.  [POST /api/process-aura], from its input guard on (the request
    has passed the authentication), answers with 200, 400, 502 or 500, and
    with a body of results exactly when it answers 200: the result of
    [process_input], with the address of the speech when there is one.  A
    request that the input guard refuses is answered 400 and nothing is
    done.  Whenever the answer is 400 or 502, no log has been written. *)
Theorem refusals_write_no_log (ucd : UnicodeData)
    (json_loads : str -> option json)
    (generate_content : GenerateRequest -> GeminiReply) (py_str : json -> str)
    (personality : str -> str -> str -> str -> str) (json_rules : datetime -> str)
    (synthesise : str -> option str)
    (user_id : ObjectId) (text : option str)
    (audio_file image_file : option FileStorage) (force_log : bool)
    (conversation_history : option (list HistoryMessage))
    (w : World) (r : Reply dict) (w' : World) :
  process_aura ucd json_loads generate_content py_str personality json_rules synthesise
    user_id text audio_file image_file force_log conversation_history w = (r, w') ->
  In (status_code r) [200; 400; 502; 500]%nat
  /\ (status_code r = 200%nat <-> payload r <> None)
  /\ (status_code r = 200%nat ->
      exists result,
        process_input ucd json_loads generate_content py_str personality json_rules
          user_id text audio_file image_file force_log conversation_history
          None (lit "audio/webm") None (lit "image/jpeg") w = (Ok result, w')
        /\ (payload r = Some result
            \/ exists filename,
                 payload r = Some (dict_set result (lit "audio_url")
                                     (JStr (lit "/api/tts/" ++ filename)))))
  /\ (controller_accepts text audio_file image_file force_log = false ->
      status_code r = 400%nat /\ w' = w)
  /\ (status_code r = 400%nat \/ status_code r = 502%nat ->
      condition_logs w' = condition_logs w).
Proof.
  unfold process_aura.
  destruct (controller_accepts text audio_file image_file force_log); simpl.
  2:{ intros H. inversion H. simpl.
      split; [tauto|]. split; [split; [discriminate | congruence]|].
      split; [discriminate|]. split; [now split | reflexivity]. }
  unfold bind.
  destruct (process_input _ _ _ _ _ _ _ _ _ _ _ _ _ _ _ _ w) as [[result|e] w1] eqn:P.
  - destruct (attach_audio synthesise result w1) as [[result'|e] w2] eqn:A;
      apply attach_audio_cases in A; destruct A as [-> A].
    + intros H. inversion H; subst. simpl.
      split; [tauto|]. split; [split; [discriminate | reflexivity]|].
      split.
      { intros _. exists result. split; [reflexivity|].
        destruct A as [->|[filename ->]]; [now left | right; now exists filename]. }
      split; [discriminate|]. intros [X|X]; discriminate.
    + subst e. intros H. inversion H; subst. simpl.
      split; [tauto|]. split; [split; [discriminate | congruence]|].
      split; [discriminate|]. split; [discriminate|].
      intros [X|X]; discriminate.
  - intros H. inversion H; subst. simpl.
    apply process_input_raise_keeps_logs in P.
    split; [unfold status_of_exception; destruct (exc_class e); simpl; tauto|].
    split; [split; [unfold status_of_exception; destruct (exc_class e); discriminate
                   | congruence]|].
    split; [unfold status_of_exception; destruct (exc_class e); discriminate|].
    split; [discriminate|]. intros _. exact P.
Qed.

Lemma refusals_write_no_log_witness :
  let run := process_aura ucd_fragment example_loads (oracle_saying (Some (lit "{")))
               example_py_str blank_personality blank_json_rules (fun _ => None)
               7 (Some (lit "I have a headache")) None None false None empty_world in
  In (status_code (fst run)) [200; 400; 502; 500]%nat
  /\ (status_code (fst run) = 200%nat <-> payload (fst run) <> None)
  /\ (status_code (fst run) = 200%nat ->
      exists result,
        process_input ucd_fragment example_loads (oracle_saying (Some (lit "{")))
          example_py_str blank_personality blank_json_rules
          7 (Some (lit "I have a headache")) None None false None
          None (lit "audio/webm") None (lit "image/jpeg") empty_world
        = (Ok result, snd run)
        /\ (payload (fst run) = Some result
            \/ exists filename,
                 payload (fst run) = Some (dict_set result (lit "audio_url")
                                             (JStr (lit "/api/tts/" ++ filename)))))
  /\ (controller_accepts (Some (lit "I have a headache")) None None false = false ->
      status_code (fst run) = 400%nat /\ snd run = empty_world)
  /\ (status_code (fst run) = 400%nat \/ status_code (fst run) = 502%nat ->
      condition_logs (snd run) = condition_logs empty_world).
Proof.
  intros run.
  apply (refusals_write_no_log ucd_fragment example_loads
           (oracle_saying (Some (lit "{"))) example_py_str blank_personality
           blank_json_rules (fun _ => None)
           7 (Some (lit "I have a headache")) None None false None
           empty_world (fst run) (snd run)).
  vm_compute. reflexivity.
Defined.
